(** * siyuan-share: asset synchronisation engine

    A shallow embedding of the TypeScript plugin services
    [S3UploadService] (s3-upload.ts, in its two revisions),
    [AssetRecordManager] (asset-record.ts) and the asset pipeline of
    [ShareService] (share-service.ts), with the properties of the
    specification stated and proved over them.

    Conventions.
    - A JavaScript string is a [string] holding its UTF-8 bytes, so that
      [TextEncoder.encode] is the identity on the underlying bytes.
    - A [Uint8Array] / [ArrayBuffer] is a [list byte].
    - A JavaScript number that holds an integer is a [Z] (or an [N] for a
      byte value).
    - An awaited promise is [Resolved v], [Rejected msg] (a thrown [Error]
      with its message) or [Pending] (never settled), together with the
      effects performed until then.
    - The browser is an explicit input ([World]): the clock, the outcome of
      the XMLHttpRequest, the kernel token and the outcome of the relay
      [fetch]; [crypto.subtle] is an interface ([SubtleCrypto]); the matches
      of the regular expressions of [ShareService] are a parameter.
    - The network requests and the notifications are returned as a trace.
    - Progress callbacks and console logging have no influence on results
      and are left out. *)

From Stdlib Require Import ZArith NArith List Bool Lia.
From Stdlib.Strings Require Import String Ascii Byte.
From Stdlib.Numbers Require Import DecimalString HexadecimalString.
From Stdlib.Numbers Require DecimalPos DecimalZ.
Import ListNotations.

Local Open Scope string_scope.
Local Open Scope Z_scope.

(** ** JavaScript primitives used by the services *)

Module JS.

(** Truthiness of a string: only the empty string is falsy. *)
Definition truthy (s : string) : bool :=
  match s with EmptyString => false | String _ _ => true end.

(** [a || b] on strings. *)
Definition or_else (a b : string) : string := if truthy a then a else b.

(** An optional property ([undefined] when absent). *)
Definition opt_truthy (o : option string) : bool :=
  match o with Some s => truthy s | None => false end.

Definition opt_or_else (o : option string) (b : string) : string :=
  match o with Some s => or_else s b | None => b end.

(** [String(z)] and the interpolation of an integer in a template
    string: decimal digits, with a minus sign below zero. *)
Definition String_ (z : Z) : string :=
  DecimalString.NilZero.string_of_int (Z.to_int z).

(** [n.toString(16)] for a natural number: lower-case digits, no padding. *)
Definition toString16 (n : N) : string :=
  HexadecimalString.NilZero.string_of_uint (N.to_hex_uint n).

(** [s.substring(0, n)]. *)
Definition substring0 (n : nat) (s : string) : string := substring 0 n s.

(** [s.substring(i)]. *)
Fixpoint substring_from (i : nat) (s : string) : string :=
  match i, s with
  | O, _ => s
  | S k, String _ r => substring_from k r
  | S _, EmptyString => EmptyString
  end.

(** [s.startsWith(p)]. *)
Definition startsWith (p s : string) : bool := prefix p s.

(** [s.includes(p)]. *)
Fixpoint includes (p s : string) : bool :=
  prefix p s ||
  match s with
  | EmptyString => false
  | String _ r => includes p r
  end.

(** [s.lastIndexOf(".")], with [None] for -1. *)
Fixpoint lastIndexOf_from (c : ascii) (s : string) (i : nat) (found : option nat)
  : option nat :=
  match s with
  | EmptyString => found
  | String a r =>
      lastIndexOf_from c r (S i) (if Ascii.eqb a c then Some i else found)
  end.

Definition lastIndexOf (c : ascii) (s : string) : option nat :=
  lastIndexOf_from c s 0%nat None.

(** [s.split(sep)] for a one-character separator. *)
Fixpoint split_loop (sep : ascii) (s : string) (cur : string) : list string :=
  match s with
  | EmptyString => [cur]
  | String a r =>
      if Ascii.eqb a sep then cur :: split_loop sep r ""
      else split_loop sep r (cur ++ String a "")
  end.

Definition split (sep : ascii) (s : string) : list string := split_loop sep s "".

(** [xs.join(sep)]. *)
Definition join (sep : string) (xs : list string) : string := String.concat sep xs.

(** ASCII part of [s.toLowerCase()]; bytes of non-ASCII characters are
    kept (no such character lower-cases to an entry of the MIME table). *)
Definition lower_ascii (a : ascii) : ascii :=
  let n := N_of_ascii a in
  if ((65 <=? n) && (n <=? 90))%N then ascii_of_N (n + 32) else a.

Fixpoint toLowerCase (s : string) : string :=
  match s with
  | EmptyString => EmptyString
  | String a r => String (lower_ascii a) (toLowerCase r)
  end.

(** [s.replace(/^https?:\/\//, '')]. *)
Definition strip_scheme (s : string) : string :=
  if prefix "https://" s then substring_from 8 s
  else if prefix "http://" s then substring_from 7 s
  else s.

(** [s.replace(/\/$/, '')]: one trailing slash is dropped. *)
Fixpoint strip_trailing_slash (s : string) : string :=
  match s with
  | EmptyString => EmptyString
  | String a r =>
      match r with
      | EmptyString => if Ascii.eqb a "/" then EmptyString else s
      | String _ _ => String a (strip_trailing_slash r)
      end
  end.

(** Characters that [encodeURIComponent] leaves alone. *)
Definition uri_unreserved (a : ascii) : bool :=
  let n := N_of_ascii a in
  (((65 <=? n) && (n <=? 90)) || ((97 <=? n) && (n <=? 122))
   || ((48 <=? n) && (n <=? 57)))%N
  || existsb (Ascii.eqb a) (list_ascii_of_string "-_.!~*'()").

Definition upper_digit (d : N) : ascii :=
  if (d <? 10)%N then ascii_of_N (48 + d) else ascii_of_N (55 + d).

(** [encodeURIComponent(s)]: every other UTF-8 byte becomes [%XX]. *)
Fixpoint encodeURIComponent (s : string) : string :=
  match s with
  | EmptyString => EmptyString
  | String a r =>
      if uri_unreserved a then String a (encodeURIComponent r)
      else
        let n := N_of_ascii a in
        String "%" (String (upper_digit (n / 16))
                      (String (upper_digit (n mod 16)) (encodeURIComponent r)))
  end.

(** [new TextEncoder().encode(s)]. *)
Definition encode (s : string) : list byte := list_byte_of_string s.

(** The six-bit alphabet of [btoa]. *)
Definition b64_char (n : N) : ascii :=
  if (n <? 26)%N then ascii_of_N (65 + n)
  else if (n <? 52)%N then ascii_of_N (71 + n)
  else if (n <? 62)%N then ascii_of_N (n - 4)
  else if (n =? 62)%N then "+"%char else "/"%char.

(** [btoa(binary)] where [binary] is the string whose char codes are the
    given bytes. *)
Fixpoint btoa (bs : list byte) : string :=
  match bs with
  | [] => ""
  | [a] =>
      let x := Byte.to_N a in
      String (b64_char (x / 4)) (String (b64_char ((x mod 4) * 16)) "==")
  | [a; b] =>
      let x := Byte.to_N a in
      let y := Byte.to_N b in
      String (b64_char (x / 4))
        (String (b64_char ((x mod 4) * 16 + y / 16))
           (String (b64_char ((y mod 16) * 4)) "="))
  | a :: b :: c :: rest =>
      let x := Byte.to_N a in
      let y := Byte.to_N b in
      let z := Byte.to_N c in
      String (b64_char (x / 4))
        (String (b64_char ((x mod 4) * 16 + y / 16))
           (String (b64_char ((y mod 16) * 4 + z / 64))
              (String (b64_char (z mod 64)) (btoa rest))))
  end.

End JS.

(** ** The WebCrypto interface ([crypto.subtle])

    The services call [crypto.subtle.digest('SHA-256', _)] and
    [crypto.subtle.sign('HMAC', key, _)] with a SHA-256 or a SHA-1 key.
    The interface fixes the digest sizes; the theorems hold for every
    implementation of it. *)

Inductive HashAlg : Type := SHA_1 | SHA_256.

Definition digest_size (h : HashAlg) : nat :=
  match h with SHA_1 => 20%nat | SHA_256 => 32%nat end.

Class SubtleCrypto : Type := {
  digest_SHA256 : list byte -> list byte;
  sign_HMAC : HashAlg -> list byte -> list byte -> list byte;
  digest_SHA256_size : forall data, List.length (digest_SHA256 data) = 32%nat;
  sign_HMAC_size : forall h key data,
      List.length (sign_HMAC h key data) = digest_size h
}.

(** *** A reference implementation (FIPS 180-4, RFC 2104)

    Used to run the services on concrete inputs. *)

Module RefCrypto.

Local Open Scope list_scope.
Local Open Scope N_scope.

Definition w32 (x : N) : N := N.land x 4294967295.
Definition add32 (x y : N) : N := w32 (x + y).
Definition not32 (x : N) : N := N.lxor x 4294967295.
Definition shr (n x : N) : N := N.shiftr x n.
Definition rotr (n x : N) : N := N.lor (N.shiftr x n) (w32 (N.shiftl x (32 - n))).
Definition rotl (n x : N) : N := rotr (32 - n) x.

Definition byte_of_N (n : N) : byte :=
  match Byte.of_N (N.land n 255) with Some b => b | None => x00 end.

(** Big-endian bytes of a 32-bit word and of a 64-bit length. *)
Definition be32 (x : N) : list byte :=
  [byte_of_N (N.shiftr x 24); byte_of_N (N.shiftr x 16); byte_of_N (N.shiftr x 8);
   byte_of_N x].

Definition be64 (x : N) : list byte := be32 (N.shiftr x 32) ++ be32 x.

Fixpoint words_of (bs : list byte) : list N :=
  match bs with
  | a :: b :: c :: d :: rest =>
      N.lor (N.lor (N.shiftl (Byte.to_N a) 24) (N.shiftl (Byte.to_N b) 16))
        (N.lor (N.shiftl (Byte.to_N c) 8) (Byte.to_N d))
        :: words_of rest
  | _ => []
  end.

(** Message padding: a one bit, zeros, and the bit length. *)
Definition pad (msg : list byte) : list byte :=
  let len := N.of_nat (List.length msg) in
  let zeros := N.to_nat ((119 - len mod 64) mod 64) in
  msg ++ x80 :: repeat x00 zeros ++ be64 (8 * len).

Fixpoint blocks_loop (fuel : nat) (ws : list N) : list (list N) :=
  match fuel, ws with
  | S k, _ :: _ => firstn 16 ws :: blocks_loop k (skipn 16 ws)
  | _, _ => []
  end.

Definition blocks (msg : list byte) : list (list N) :=
  let ws := words_of (pad msg) in blocks_loop (List.length ws) ws.

(** The constants are the fractional bits of roots of the first primes. *)
Definition is_prime (n : nat) : bool :=
  forallb (fun d => negb (Nat.eqb (Nat.modulo n d) 0)) (seq 2 (n - 2)).

Definition primes : list N :=
  Eval vm_compute in map N.of_nat (filter is_prime (seq 2 310)).

Fixpoint cbrt_loop (bits : nat) (n r : N) : N :=
  match bits with
  | O => r
  | S k =>
      let c := r + N.shiftl 1 (N.of_nat k) in
      cbrt_loop k n (if c * c * c <=? n then c else r)
  end.

Definition cbrt (n : N) : N := cbrt_loop 40 n 0.

Definition K256 : list N :=
  Eval vm_compute in map (fun p => w32 (cbrt (p * N.shiftl 1 96))) primes.

Definition H256 : list N :=
  Eval vm_compute in
    map (fun p => w32 (N.sqrt (p * N.shiftl 1 64))) (firstn 8 primes).

Definition nth_w (i : nat) (ws : list N) : N := nth i ws 0.

(** The message schedule, most recent word first. *)
Fixpoint schedule256 (n : nat) (rev_w : list N) : list N :=
  match n with
  | O => rev_w
  | S k =>
      let w2 := nth_w 1 rev_w in
      let w7 := nth_w 6 rev_w in
      let w15 := nth_w 14 rev_w in
      let w16 := nth_w 15 rev_w in
      let s0 := N.lxor (N.lxor (rotr 7 w15) (rotr 18 w15)) (shr 3 w15) in
      let s1 := N.lxor (N.lxor (rotr 17 w2) (rotr 19 w2)) (shr 10 w2) in
      schedule256 k (add32 (add32 w16 s0) (add32 w7 s1) :: rev_w)
  end.

Definition state := list N.

Definition round256 (st : state) (kw : N * N) : state :=
  match st with
  | [a; b; c; d; e; f; g; h] =>
      let S1 := N.lxor (N.lxor (rotr 6 e) (rotr 11 e)) (rotr 25 e) in
      let ch := N.lxor (N.land e f) (N.land (not32 e) g) in
      let t1 := add32 (add32 (add32 h S1) (add32 ch (fst kw))) (snd kw) in
      let S0 := N.lxor (N.lxor (rotr 2 a) (rotr 13 a)) (rotr 22 a) in
      let maj := N.lxor (N.lxor (N.land a b) (N.land a c)) (N.land b c) in
      [add32 t1 (add32 S0 maj); a; b; c; add32 d t1; e; f; g]
  | _ => st
  end.

Fixpoint add_state (x y : state) : state :=
  match x, y with
  | a :: x', b :: y' => add32 a b :: add_state x' y'
  | _, _ => []
  end.

Definition compress256 (st : state) (block : list N) : state :=
  let w := rev (schedule256 48 (rev block)) in
  add_state st (fold_left round256 (combine K256 w) st).

(** Serialisation of a state of [n] words; always [4 * n] bytes. *)
Fixpoint state_bytes (n : nat) (st : state) : list byte :=
  match n with
  | O => []
  | S k => be32 (nth_w 0 st) ++ state_bytes k (tl st)
  end.

Definition sha256 (msg : list byte) : list byte :=
  state_bytes 8 (fold_left compress256 (blocks msg) H256).

(** SHA-1. *)
Definition H1 : state := [1732584193; 4023233417; 2562383102; 271733878; 3285377520].

Fixpoint schedule1 (n : nat) (rev_w : list N) : list N :=
  match n with
  | O => rev_w
  | S k =>
      let x := N.lxor (N.lxor (nth_w 2 rev_w) (nth_w 7 rev_w))
                 (N.lxor (nth_w 13 rev_w) (nth_w 15 rev_w)) in
      schedule1 k (rotl 1 x :: rev_w)
  end.

Definition round1 (st : state) (tw : nat * N) : state :=
  match st with
  | [a; b; c; d; e] =>
      let t := fst tw in
      let fk :=
        if (t <? 20)%nat then
          (N.lor (N.land b c) (N.land (not32 b) d), 1518500249)
        else if (t <? 40)%nat then (N.lxor (N.lxor b c) d, 1859775393)
        else if (t <? 60)%nat then
          (N.lor (N.lor (N.land b c) (N.land b d)) (N.land c d), 2400959708)
        else (N.lxor (N.lxor b c) d, 3395469782) in
      let tmp := add32 (add32 (add32 (rotl 5 a) (fst fk)) (add32 e (snd fk))) (snd tw) in
      [tmp; a; rotl 30 b; c; d]
  | _ => st
  end.

Definition compress1 (st : state) (block : list N) : state :=
  let w := rev (schedule1 64 (rev block)) in
  add_state st (fold_left round1 (combine (seq 0 80) w) st).

Definition sha1 (msg : list byte) : list byte :=
  state_bytes 5 (fold_left compress1 (blocks msg) H1).

Definition hash (h : HashAlg) : list byte -> list byte :=
  match h with SHA_1 => sha1 | SHA_256 => sha256 end.

(** HMAC with a 64-byte block. *)
Definition xor_byte (c : N) (b : byte) : byte := byte_of_N (N.lxor c (Byte.to_N b)).

Definition hmac (h : HashAlg) (key data : list byte) : list byte :=
  let k0 := if (64 <? List.length key)%nat then hash h key else key in
  let k := k0 ++ repeat x00 (64 - List.length k0) in
  hash h (map (xor_byte 92) k ++ hash h (map (xor_byte 54) k ++ data)).

End RefCrypto.

(** Hexadecimal rendering of a byte array, as the services do it. *)
Definition hex_of_byte (b : byte) : string :=
  let hex := JS.toString16 (Byte.to_N b) in
  if Nat.eqb (String.length hex) 1 then "0" ++ hex else hex.

Definition hex_of_bytes (bs : list byte) : string :=
  JS.join "" (map hex_of_byte bs).

(** ** Data model (types.ts) *)

Inductive Provider : Type := aws | oss.

Record S3Config : Type := {
  enabled : bool;
  endpoint : string;
  region : string;
  bucket : string;
  accessKeyId : string;
  secretAccessKey : string;
  customDomain : option string;
  pathPrefix : option string;
  provider : option Provider
}.

Record AssetUploadRecord : Type := {
  localPath : string;
  s3Key : string;
  s3Url : string;
  contentType : string;
  size : Z;
  hash : string;
  uploadedAt : Z
}.

Record DocAssetMapping : Type := {
  docId : string;
  shareId : string;
  assets : list AssetUploadRecord;
  createdAt : Z;
  updatedAt : Z
}.

(** A browser [File]: its [size] is the number of bytes of its content. *)
Record File : Type := {
  name : string;
  type : string;
  arrayBuffer : list byte
}.

Definition file_size (f : File) : Z := Z.of_nat (List.length (arrayBuffer f)).

(** The UTC fields of a [Date]. *)
Record Date : Type := {
  getUTCFullYear : Z;
  getUTCMonth : Z;
  getUTCDate : Z;
  getUTCDay : Z;
  getUTCHours : Z;
  getUTCMinutes : Z;
  getUTCSeconds : Z
}.

(** [Date.prototype.toUTCString()]: the day name, the day of the month on
    two digits, the month name, the year on at least four digits and the
    time on two digits each, followed by GMT. *)
Definition dayNames : list string := ["Sun"; "Mon"; "Tue"; "Wed"; "Thu"; "Fri"; "Sat"].

Definition monthNames : list string :=
  ["Jan"; "Feb"; "Mar"; "Apr"; "May"; "Jun"; "Jul"; "Aug"; "Sep"; "Oct"; "Nov"; "Dec"].

Definition zero_padded (width : nat) (n : Z) : string :=
  let digits := JS.String_ n in
  string_of_list_ascii (repeat "0"%char (width - String.length digits)) ++ digits.

Definition toUTCString (d : Date) : string :=
  let year := getUTCFullYear d in
  nth (Z.to_nat (getUTCDay d)) dayNames "" ++ ", " ++
  zero_padded 2 (getUTCDate d) ++ " " ++
  nth (Z.to_nat (getUTCMonth d)) monthNames "" ++ " " ++
  (if year <? 0 then "-" else "") ++ zero_padded 4 (Z.abs year) ++ " " ++
  zero_padded 2 (getUTCHours d) ++ ":" ++
  zero_padded 2 (getUTCMinutes d) ++ ":" ++
  zero_padded 2 (getUTCSeconds d) ++ " GMT".

(** ** The browser as an input *)

(** Which listener of the XMLHttpRequest fires. *)
Inductive XhrOutcome : Type :=
| xhr_load (status : Z) (responseText : string)
| xhr_error
| xhr_abort.

(** The kernel's JSON envelope; a field may be absent. *)
Record KernelResponse : Type := {
  code : option Z;
  msg : option string
}.

Record Response : Type := {
  ok : bool;
  resp_status : Z;
  resp_content_type : option string;
  resp_json : option KernelResponse
}.

Inductive FetchOutcome : Type :=
| fetch_response (r : Response)
| fetch_failure (message : string).

(** What one upload or delete call meets. *)
Record World : Type := {
  now : Z;
  date : Date;
  xhr : XhrOutcome;
  siyuanToken : option string;
  forwardProxy : FetchOutcome
}.

Definition Headers : Type := list (string * string).

(** What the code asks of the network. *)
Inductive Request : Type :=
| XhrSend (method url : string) (headers : Headers)
| ForwardProxyPost (url method : string) (headers : Headers) (payload : string)
| AssetGet (apiPath : string).

(** The effects of the public operations, in order: a network request,
    recorded with the local path (upload, fetch) or the object key
    (delete) on whose behalf it is sent, and a notification shown to the
    user. *)
Inductive Effect : Type :=
| Net (subject : string) (r : Request)
| ShowMessage (text : string).

(** ** Promises

    An awaited promise resolves, rejects with an error message, or never
    settles; the effects performed until then are recorded. *)

Inductive Settled (A : Type) : Type :=
| Resolved (a : A)
| Rejected (message : string)
| Pending.

Arguments Resolved {A} a.
Arguments Rejected {A} message.
Arguments Pending {A}.

Definition Promise (E A : Type) : Type := (Settled A * list E)%type.

Definition resolve {E A} (a : A) : Promise E A := (Resolved a, []).
Definition reject {E A} (message : string) : Promise E A := (Rejected message, []).
Definition perform {E} (e : E) : Promise E unit := (Resolved tt, [e]).

Definition await {E A B} (p : Promise E A) (k : A -> Promise E B) : Promise E B :=
  match p with
  | (Resolved a, t) => let (r, t') := k a in (r, (t ++ t')%list)
  | (Rejected m, t) => (Rejected m, t)
  | (Pending, t) => (Pending, t)
  end.

(** [try { p } catch (error) { handler(error.message) }]. *)
Definition try_catch {E A} (p : Promise E A) (handler : string -> Promise E A)
  : Promise E A :=
  match p with
  | (Rejected m, t) => let (r, t') := handler m in (r, (t ++ t')%list)
  | _ => p
  end.

(** The effects of an inner call seen from its caller. *)
Definition lift {E F A} (f : E -> F) (p : Promise E A) : Promise F A :=
  (fst p, map f (snd p)).

Notation "x <- p ;; k" := (await p (fun x => k))
  (at level 61, p at next level, right associativity).
Notation "p ;;; k" := (await p (fun _ => k))
  (at level 61, right associativity).

Definition settled {E A} (p : Promise E A) : Settled A := fst p.
Definition effects {E A} (p : Promise E A) : list E := snd p.

(** The line feed of the template strings. *)
Definition LF : string := String (ascii_of_N 10) "".

(** ** S3UploadService (s3-upload.ts, current revision) *)

Module S3UploadService.
Section Service.

Context {crypto : SubtleCrypto}.
Variable config : S3Config.

Definition validateConfig : bool :=
  enabled config
  && JS.truthy (endpoint config)
  && JS.truthy (region config)
  && JS.truthy (bucket config)
  && JS.truthy (accessKeyId config)
  && JS.truthy (secretAccessKey config).

Definition getFileExtension (filename : string) : string :=
  match JS.lastIndexOf "." filename with
  | Some lastDot =>
      if (0 <? lastDot)%nat then JS.substring_from lastDot filename else ""
  | None => ""
  end.

Definition mimeTypes : list (string * string) :=
  [ (".jpg", "image/jpeg"); (".jpeg", "image/jpeg"); (".png", "image/png");
    (".gif", "image/gif"); (".webp", "image/webp"); (".svg", "image/svg+xml");
    (".pdf", "application/pdf"); (".mp4", "video/mp4"); (".mp3", "audio/mpeg");
    (".zip", "application/zip"); (".txt", "text/plain"); (".md", "text/markdown") ].

Fixpoint lookup (k : string) (table : list (string * string)) : option string :=
  match table with
  | [] => None
  | (k', v) :: rest => if String.eqb k k' then Some v else lookup k rest
  end.

Definition guessContentType (filename : string) : string :=
  let ext := JS.toLowerCase (getFileExtension filename) in
  JS.opt_or_else (lookup ext mimeTypes) "application/octet-stream".

Definition pad2 (n : Z) : string :=
  if n <? 10 then "0" ++ JS.String_ n else JS.String_ n.

Definition formatDateStamp (d : Date) : string :=
  let year := getUTCFullYear d in
  let month := getUTCMonth d + 1 in
  let day := getUTCDate d in
  JS.String_ year ++ pad2 month ++ pad2 day.

Definition formatAmzDate (d : Date) : string :=
  let dateStamp := formatDateStamp d in
  dateStamp ++ "T" ++ pad2 (getUTCHours d) ++ pad2 (getUTCMinutes d)
    ++ pad2 (getUTCSeconds d) ++ "Z".

Definition sha256 (message : string) : string :=
  hex_of_bytes (digest_SHA256 (JS.encode message)).

Definition hmacSha256 (key : list byte) (message : string) : list byte :=
  sign_HMAC SHA_256 key (JS.encode message).

Definition hmacSha256Hex (key : list byte) (message : string) : string :=
  hex_of_bytes (hmacSha256 key message).

Definition getSignatureKey (secretKey dateStamp regionName serviceName : string)
  : list byte :=
  let kDate := hmacSha256 (JS.encode ("AWS4" ++ secretKey)) dateStamp in
  let kRegion := hmacSha256 kDate regionName in
  let kService := hmacSha256 kRegion serviceName in
  let kSigning := hmacSha256 kService "aws4_request" in
  kSigning.

Definition hmacSha1Base64 (secret message : string) : string :=
  JS.btoa (sign_HMAC SHA_1 (JS.encode secret) (JS.encode message)).

Definition calculateFileHash (file : File) : string :=
  let hashHex := hex_of_bytes (digest_SHA256 (arrayBuffer file)) in
  JS.substring0 16 hashHex.

(** *** AWS Signature V4: the named intermediate values of
    [generateSignedHeaders]. *)

Definition payloadHash : string := "UNSIGNED-PAYLOAD".

Definition host : string :=
  bucket config ++ "." ++ JS.strip_scheme (endpoint config).

Definition canonicalUri (key : string) : string :=
  "/" ++ JS.join "/" (map JS.encodeURIComponent (JS.split "/" key)).

Definition canonicalQueryString : string := "".

Definition canonicalHeaders (amzDate : string) : string :=
  "host:" ++ host ++ LF ++
  "x-amz-content-sha256:" ++ payloadHash ++ LF ++
  "x-amz-date:" ++ amzDate ++ LF.

Definition signedHeaders : string := "host;x-amz-content-sha256;x-amz-date".

Definition canonicalRequest (method key amzDate : string) : string :=
  method ++ LF ++
  canonicalUri key ++ LF ++
  canonicalQueryString ++ LF ++
  canonicalHeaders amzDate ++ LF ++
  signedHeaders ++ LF ++
  payloadHash.

Definition algorithm : string := "AWS4-HMAC-SHA256".

Definition credentialScope (dateStamp : string) : string :=
  dateStamp ++ "/" ++ region config ++ "/s3/aws4_request".

Definition stringToSign (method key : string) (d : Date) : string :=
  algorithm ++ LF ++
  formatAmzDate d ++ LF ++
  credentialScope (formatDateStamp d) ++ LF ++
  sha256 (canonicalRequest method key (formatAmzDate d)).

Definition signature (method key : string) (d : Date) : string :=
  let signingKey :=
    getSignatureKey (secretAccessKey config) (formatDateStamp d) (region config) "s3" in
  hmacSha256Hex signingKey (stringToSign method key d).

Definition authorizationHeader (method key : string) (d : Date) : string :=
  algorithm ++ " " ++
  "Credential=" ++ accessKeyId config ++ "/" ++ credentialScope (formatDateStamp d) ++ ", " ++
  "SignedHeaders=" ++ signedHeaders ++ ", " ++
  "Signature=" ++ signature method key d.

Definition generateSignedHeaders
  (method key contentType : string) (contentLength : Z) (d : Date) : Headers :=
  [ ("Content-Type", contentType);
    ("x-amz-date", formatAmzDate d);
    ("x-amz-content-sha256", payloadHash);
    ("Authorization", authorizationHeader method key d) ].

(** *** OSS simple signature *)

Definition ossStringToSign (method key contentType date : string) : string :=
  let resource := "/" ++ bucket config ++ "/" ++ key in
  let contentMD5 := "" in
  let canonicalizedOSSHeaders := "" in
  JS.join LF [method; contentMD5; contentType; date; canonicalizedOSSHeaders ++ resource].

Definition generateOssHeaders (method key contentType : string) (d : Date) : Headers :=
  let date := toUTCString d in
  let signature :=
    hmacSha1Base64 (secretAccessKey config) (ossStringToSign method key contentType date) in
  [ ("Date", date);
    ("Content-Type", JS.or_else contentType "application/octet-stream");
    ("Authorization", "OSS " ++ accessKeyId config ++ ":" ++ signature) ].

Definition provider_or_default : Provider :=
  match provider config with Some p => p | None => aws end.

(** *** Transport *)

(** The payload of the relay is built 32 KiB at a time; each round of
    the loop takes at least one byte, so that a fuel of the number of bytes
    is enough. *)
Definition CHUNK : nat := N.to_nat 32768.

Fixpoint binary_loop (chunk fuel : nat) (uint8 : list byte) : list byte :=
  match fuel, uint8 with
  | S k, _ :: _ => (firstn chunk uint8 ++ binary_loop chunk k (skipn chunk uint8))%list
  | _, _ => []
  end.

(** [/^host$/i.test(k)], on the ASCII header names that the signers
    produce. *)
Definition is_host_header (k : string) : bool :=
  String.eqb (JS.toLowerCase k) "host".

Definition uploadViaForwardProxy
  (file : File) (s3Key : string) (originalHeaders : Headers) (w : World)
  : Promise Request string :=
  let endpoint := JS.strip_scheme (endpoint config) in
  let bucket := bucket config in
  let url := "https://" ++ bucket ++ "." ++ endpoint ++ "/" ++ s3Key in
  let uint8 := arrayBuffer file in
  let binary := binary_loop CHUNK (List.length uint8) uint8 in
  let base64Payload := JS.btoa binary in
  let safeHeaders := filter (fun kv => negb (is_host_header (fst kv))) originalHeaders in
  let configToken := JS.opt_or_else (siyuanToken w) "" in
  if negb (JS.truthy configToken)
  then reject "forwardProxy 失败：缺少思源内核 Token"
  else
    perform (ForwardProxyPost url "PUT" safeHeaders base64Payload) ;;;
    match forwardProxy w with
    | fetch_failure m => reject m
    | fetch_response resp =>
        let ct := JS.opt_or_else (resp_content_type resp) "" in
        let verdict : Promise Request unit :=
          if JS.includes "application/json" ct then
            let result :=
              match resp_json resp with
              | Some r => r
              | None => {| code := None; msg := None |}
              end in
            if negb (ok resp)
               || match code result with Some c => negb (c =? 0) | None => false end
            then reject ("forwardProxy 上传失败: " ++
                         JS.opt_or_else (msg result)
                           ("HTTP " ++ JS.String_ (resp_status resp)))
            else resolve tt
          else if negb (ok resp)
          then reject ("forwardProxy 上传失败: HTTP " ++ JS.String_ (resp_status resp))
          else resolve tt in
        verdict ;;;
        match customDomain config with
        | Some d =>
            if JS.truthy d
            then resolve (JS.strip_trailing_slash d ++ "/" ++ s3Key)
            else resolve url
        | None => resolve url
        end
    end.

Definition performUpload (file : File) (s3Key : string) (w : World)
  : Promise Request string :=
  let endpoint := JS.strip_scheme (endpoint config) in
  let bucket := bucket config in
  let url := "https://" ++ bucket ++ "." ++ endpoint ++ "/" ++ s3Key in
  let contentType := JS.or_else (type file) (guessContentType (name file)) in
  let headers :=
    match provider_or_default with
    | oss => generateOssHeaders "PUT" s3Key contentType (date w)
    | aws => generateSignedHeaders "PUT" s3Key contentType (file_size file) (date w)
    end in
  perform (XhrSend "PUT" url headers) ;;;
  match xhr w with
  | xhr_load status responseText =>
      if (200 <=? status) && (status <? 300) then
        match customDomain config with
        | Some d =>
            if JS.truthy d
            then resolve (JS.strip_trailing_slash d ++ "/" ++ s3Key)
            else resolve url
        | None => resolve url
        end
      else reject ("S3 上传失败: HTTP " ++ JS.String_ status ++ " - " ++ responseText)
  | xhr_error => uploadViaForwardProxy file s3Key headers w
  | xhr_abort => reject "上传已取消"
  end.

(** No listener is registered for an abort of the DELETE request, which
    leaves the promise unsettled. *)
Definition performDelete (s3Key : string) (w : World) : Promise Request unit :=
  let endpoint := JS.strip_scheme (endpoint config) in
  let bucket := bucket config in
  let url := "https://" ++ bucket ++ "." ++ endpoint ++ "/" ++ s3Key in
  let headers :=
    match provider_or_default with
    | oss => generateOssHeaders "DELETE" s3Key "" (date w)
    | aws => generateSignedHeaders "DELETE" s3Key "" 0 (date w)
    end in
  perform (XhrSend "DELETE" url headers) ;;;
  match xhr w with
  | xhr_load status responseText =>
      if (200 <=? status) && (status <? 300) then resolve tt
      else if status =? 404 then resolve tt
      else reject ("S3 删除失败: HTTP " ++ JS.String_ status ++ " - " ++ responseText)
  | xhr_error => reject "网络错误，删除失败"
  | xhr_abort => (Pending, [])
  end.

Definition uploadFile
  (file : File) (localPath : string) (precomputedHash : option string) (w : World)
  : Promise Effect AssetUploadRecord :=
  if negb (enabled config) then reject "S3 存储未启用"
  else if negb validateConfig then reject "S3 配置不完整"
  else
    let hash := JS.opt_or_else precomputedHash (calculateFileHash file) in
    let timestamp := now w in
    let ext := getFileExtension (name file) in
    let s3Key :=
      JS.opt_or_else (pathPrefix config) "siyuan-share" ++ "/" ++
      JS.String_ timestamp ++ "-" ++ hash ++ ext in
    s3Url <- lift (Net localPath) (performUpload file s3Key w) ;;
    resolve {| localPath := localPath;
               s3Key := s3Key;
               s3Url := s3Url;
               contentType := JS.or_else (type file) (guessContentType (name file));
               size := file_size file;
               hash := hash;
               uploadedAt := timestamp |}.

(** The batch loop: [results] and [errors] grow as the files are
    processed in order; the world of the [i]-th file is [net i]. *)
Fixpoint uploadFiles_loop
  (files : list (File * string)) (net : nat -> World) (i : nat)
  (results : list AssetUploadRecord) (errors : list string) (trace : list Effect)
  : Settled (list AssetUploadRecord * list string) * list Effect :=
  match files with
  | [] => (Resolved (results, errors), trace)
  | (file, localPath) :: rest =>
      match uploadFile file localPath None (net i) with
      | (Resolved record, t) =>
          uploadFiles_loop rest net (S i) (results ++ [record])%list errors (trace ++ t)%list
      | (Rejected message, t) =>
          uploadFiles_loop rest net (S i) results
            (errors ++ [(localPath ++ ": " ++ message)%string])%list (trace ++ t)%list
      | (Pending, t) => (Pending, (trace ++ t)%list)
      end
  end.

Definition uploadFiles (files : list (File * string)) (net : nat -> World)
  : Promise Effect (list AssetUploadRecord) :=
  re <- uploadFiles_loop files net 0 [] [] [] ;;
  let results := fst re in
  let errors := snd re in
  (if (0 <? List.length errors)%nat
   then perform (ShowMessage ("部分文件上传失败:" ++ LF ++ JS.join LF errors))
   else resolve tt) ;;;
  resolve results.

Definition deleteFile (s3Key : string) (w : World) : Promise Effect unit :=
  if negb (enabled config) then reject "S3 存储未启用"
  else if negb validateConfig then reject "S3 配置不完整"
  else lift (Net s3Key) (performDelete s3Key w).

Fixpoint deleteFiles_loop
  (s3Keys : list string) (net : nat -> World) (i : nat)
  (success failed : list string) (trace : list Effect)
  : Settled (list string * list string) * list Effect :=
  match s3Keys with
  | [] => (Resolved (success, failed), trace)
  | s3Key :: rest =>
      match deleteFile s3Key (net i) with
      | (Resolved _, t) =>
          deleteFiles_loop rest net (S i) (success ++ [s3Key])%list failed (trace ++ t)%list
      | (Rejected _, t) =>
          deleteFiles_loop rest net (S i) success (failed ++ [s3Key])%list (trace ++ t)%list
      | (Pending, t) => (Pending, (trace ++ t)%list)
      end
  end.

Definition deleteFiles (s3Keys : list string) (net : nat -> World)
  : Promise Effect (list string * list string) :=
  deleteFiles_loop s3Keys net 0 [] [] [].

End Service.
End S3UploadService.

(** ** S3UploadService (s3-upload.ts, earlier revision)

    The earlier revision of the service knows one provider only, signs
    every request with its own [generateSignedHeaders] and has no relay;
    the date, digest, key-derivation and file-name helpers, [uploadFile],
    [uploadFiles], [deleteFile] and [deleteFiles] are the same in both
    revisions. *)

Module S3UploadServiceLegacy.
Section Service.

Context {crypto : SubtleCrypto}.
Variable config : S3Config.

Definition payloadHash : string := "UNSIGNED-PAYLOAD".

Definition host : string :=
  bucket config ++ "." ++ JS.strip_scheme (endpoint config).

Definition canonicalUri (key : string) : string :=
  "/" ++ JS.join "/" (map JS.encodeURIComponent (JS.split "/" key)).

Definition canonicalQueryString : string := "".

Definition canonicalHeaders (amzDate : string) : string :=
  "x-amz-content-sha256:" ++ payloadHash ++ LF ++
  "x-amz-date:" ++ amzDate ++ LF.

Definition signedHeaders : string := "x-amz-content-sha256;x-amz-date".

Definition canonicalRequest (method key amzDate : string) : string :=
  method ++ LF ++
  canonicalUri key ++ LF ++
  canonicalQueryString ++ LF ++
  canonicalHeaders amzDate ++ LF ++
  signedHeaders ++ LF ++
  payloadHash.

Definition algorithm : string := "AWS4-HMAC-SHA256".

Definition credentialScope (dateStamp : string) : string :=
  dateStamp ++ "/" ++ region config ++ "/s3/aws4_request".

Definition stringToSign (method key : string) (d : Date) : string :=
  algorithm ++ LF ++
  S3UploadService.formatAmzDate d ++ LF ++
  credentialScope (S3UploadService.formatDateStamp d) ++ LF ++
  S3UploadService.sha256
    (canonicalRequest method key (S3UploadService.formatAmzDate d)).

Definition signature (method key : string) (d : Date) : string :=
  let signingKey :=
    S3UploadService.getSignatureKey (secretAccessKey config)
      (S3UploadService.formatDateStamp d) (region config) "s3" in
  S3UploadService.hmacSha256Hex signingKey (stringToSign method key d).

Definition authorizationHeader (method key : string) (d : Date) : string :=
  algorithm ++ " " ++
  "Credential=" ++ accessKeyId config ++ "/"
    ++ credentialScope (S3UploadService.formatDateStamp d) ++ ", " ++
  "SignedHeaders=" ++ signedHeaders ++ ", " ++
  "Signature=" ++ signature method key d.

Definition generateSignedHeaders
  (method key contentType : string) (contentLength : Z) (d : Date) : Headers :=
  [ ("Content-Type", contentType);
    ("x-amz-date", S3UploadService.formatAmzDate d);
    ("x-amz-content-sha256", payloadHash);
    ("Authorization", authorizationHeader method key d) ].

(** The transport of the earlier revision: no relay, a transport failure
    of the PUT is an error. *)
Definition performUpload (file : File) (s3Key : string) (w : World)
  : Promise Request string :=
  let endpoint := JS.strip_scheme (endpoint config) in
  let bucket := bucket config in
  let url := "https://" ++ bucket ++ "." ++ endpoint ++ "/" ++ s3Key in
  let headers :=
    generateSignedHeaders "PUT" s3Key
      (JS.or_else (type file) (S3UploadService.guessContentType (name file)))
      (file_size file) (date w) in
  perform (XhrSend "PUT" url headers) ;;;
  match xhr w with
  | xhr_load status responseText =>
      if (200 <=? status) && (status <? 300) then
        match customDomain config with
        | Some d =>
            if JS.truthy d
            then resolve (JS.strip_trailing_slash d ++ "/" ++ s3Key)
            else resolve url
        | None => resolve url
        end
      else reject ("S3 上传失败: HTTP " ++ JS.String_ status ++ " - " ++ responseText)
  | xhr_error => reject "网络错误，上传失败"
  | xhr_abort => reject "上传已取消"
  end.

Definition performDelete (s3Key : string) (w : World) : Promise Request unit :=
  let endpoint := JS.strip_scheme (endpoint config) in
  let bucket := bucket config in
  let url := "https://" ++ bucket ++ "." ++ endpoint ++ "/" ++ s3Key in
  let headers := generateSignedHeaders "DELETE" s3Key "" 0 (date w) in
  perform (XhrSend "DELETE" url headers) ;;;
  match xhr w with
  | xhr_load status responseText =>
      if (200 <=? status) && (status <? 300) then resolve tt
      else if status =? 404 then resolve tt
      else reject ("S3 删除失败: HTTP " ++ JS.String_ status ++ " - " ++ responseText)
  | xhr_error => reject "网络错误，删除失败"
  | xhr_abort => (Pending, [])
  end.

End Service.
End S3UploadServiceLegacy.

(** ** AssetRecordManager (asset-record.ts)

    The [Map] from document id to mapping is the list of its entries in
    insertion order; [saved] is the array last written under the storage
    key.  The clock reading [Date.now()] of an operation is an argument.
    Asset arrays and records are shared by reference between the callers
    and the index, but no operation changes an array or a record in place
    ([filter] builds a new array and the fields of a mapping are
    reassigned), so that they are modelled by value. *)

Module AssetRecordManager.

Definition Entries : Type := list (string * DocAssetMapping).

Record State : Type := {
  mappings : Entries;
  saved : list DocAssetMapping
}.

(** [new AssetRecordManager(plugin)]. *)
Definition init : State := {| mappings := []; saved := [] |}.

(** [Map.prototype.get]. *)
Fixpoint Map_get (k : string) (m : Entries) : option DocAssetMapping :=
  match m with
  | [] => None
  | (k', v) :: rest => if String.eqb k' k then Some v else Map_get k rest
  end.

(** [Map.prototype.set]: an existing key keeps its place. *)
Fixpoint Map_set (k : string) (v : DocAssetMapping) (m : Entries) : Entries :=
  match m with
  | [] => [(k, v)]
  | (k', v') :: rest =>
      if String.eqb k' k then (k, v) :: rest else (k', v') :: Map_set k v rest
  end.

(** [Map.prototype.delete]. *)
Fixpoint Map_delete (k : string) (m : Entries) : Entries :=
  match m with
  | [] => []
  | (k', v') :: rest =>
      if String.eqb k' k then rest else (k', v') :: Map_delete k rest
  end.

Definition Map_values (m : Entries) : list DocAssetMapping := map snd m.

(** [load()]: every stored mapping is entered under its own [docId]. *)
Definition load (data : option (list DocAssetMapping)) (st : State) : State :=
  match data with
  | Some array =>
      {| mappings := fold_left (fun m mapping => Map_set (docId mapping) mapping m)
                       array (mappings st);
         saved := saved st |}
  | None => st
  end.

Definition save (st : State) : State :=
  {| mappings := mappings st; saved := Map_values (mappings st) |}.

Definition addOrUpdateMapping
  (docId_ shareId_ : string) (assets_ : list AssetUploadRecord) (now : Z) (st : State)
  : State :=
  match Map_get docId_ (mappings st) with
  | Some existing =>
      let updated :=
        {| docId := docId existing;
           shareId := shareId_;
           assets := assets_;
           createdAt := createdAt existing;
           updatedAt := now |} in
      save {| mappings := Map_set docId_ updated (mappings st); saved := saved st |}
  | None =>
      let mapping :=
        {| docId := docId_;
           shareId := shareId_;
           assets := assets_;
           createdAt := now;
           updatedAt := now |} in
      save {| mappings := Map_set docId_ mapping (mappings st); saved := saved st |}
  end.

Definition getMapping (docId_ : string) (st : State) : option DocAssetMapping :=
  Map_get docId_ (mappings st).

Definition removeMapping (docId_ : string) (st : State) : State :=
  save {| mappings := Map_delete docId_ (mappings st); saved := saved st |}.

(** Entries deleted while the [Map] is iterated are not visited again,
    the others are visited once, in order. *)
Fixpoint removeMappingByShareId_loop (shareId_ : string) (m : Entries) : Entries :=
  match m with
  | [] => []
  | (docId_, mapping) :: rest =>
      if String.eqb (shareId mapping) shareId_
      then removeMappingByShareId_loop shareId_ rest
      else (docId_, mapping) :: removeMappingByShareId_loop shareId_ rest
  end.

Definition removeMappingByShareId (shareId_ : string) (st : State) : State :=
  save {| mappings := removeMappingByShareId_loop shareId_ (mappings st);
          saved := saved st |}.

Definition clearAll (st : State) : State :=
  save {| mappings := []; saved := saved st |}.

Definition getAllMappings (st : State) : list DocAssetMapping :=
  Map_values (mappings st).

(** [mapping.assets.find(pred)] over the mappings in order. *)
Fixpoint find_in_mappings (pred : AssetUploadRecord -> bool)
  (ms : list DocAssetMapping) : option AssetUploadRecord :=
  match ms with
  | [] => None
  | mapping :: rest =>
      match find pred (assets mapping) with
      | Some asset => Some asset
      | None => find_in_mappings pred rest
      end
  end.

Definition findAssetByHash (hash_ : string) (st : State) : option AssetUploadRecord :=
  find_in_mappings (fun a => String.eqb (hash a) hash_) (Map_values (mappings st)).

Definition findAssetByLocalPath (localPath_ : string) (st : State)
  : option AssetUploadRecord :=
  find_in_mappings (fun a => String.eqb (localPath a) localPath_)
    (Map_values (mappings st)).

Definition with_assets (mapping : DocAssetMapping) (assets_ : list AssetUploadRecord)
  : DocAssetMapping :=
  {| docId := docId mapping;
     shareId := shareId mapping;
     assets := assets_;
     createdAt := createdAt mapping;
     updatedAt := updatedAt mapping |}.

Definition with_updatedAt (mapping : DocAssetMapping) (now : Z) : DocAssetMapping :=
  {| docId := docId mapping;
     shareId := shareId mapping;
     assets := assets mapping;
     createdAt := createdAt mapping;
     updatedAt := now |}.

Definition removeAssetFromDoc (docId_ s3Key_ : string) (now : Z) (st : State)
  : State * bool :=
  match Map_get docId_ (mappings st) with
  | None => (st, false)
  | Some mapping =>
      let originalLength := List.length (assets mapping) in
      let mapping1 :=
        with_assets mapping
          (filter (fun a => negb (String.eqb (s3Key a) s3Key_)) (assets mapping)) in
      let st1 := {| mappings := Map_set docId_ mapping1 (mappings st);
                    saved := saved st |} in
      if Nat.eqb (List.length (assets mapping1)) originalLength
      then (st1, false)
      else
        let mapping2 := with_updatedAt mapping1 now in
        let m2 := Map_set docId_ mapping2 (mappings st1) in
        let m3 :=
          if Nat.eqb (List.length (assets mapping2)) 0
          then Map_delete docId_ m2 else m2 in
        (save {| mappings := m3; saved := saved st |}, true)
  end.

(** [new Set(s3Keys).has(k)]. *)
Definition Set_has (s3Keys : list string) (k : string) : bool :=
  existsb (String.eqb k) s3Keys.

Fixpoint removeAssets_loop (s3Keys : list string) (now : Z) (m : Entries)
  (removedCount : Z) : Entries * Z :=
  match m with
  | [] => ([], removedCount)
  | (docId_, mapping) :: rest =>
      let originalLength := List.length (assets mapping) in
      let mapping1 :=
        with_assets mapping
          (filter (fun a => negb (Set_has s3Keys (s3Key a))) (assets mapping)) in
      if (List.length (assets mapping1) <? originalLength)%nat
      then
        let removedCount' :=
          removedCount + (Z.of_nat originalLength - Z.of_nat (List.length (assets mapping1))) in
        let mapping2 := with_updatedAt mapping1 now in
        let (rest', n) := removeAssets_loop s3Keys now rest removedCount' in
        if Nat.eqb (List.length (assets mapping2)) 0
        then (rest', n)
        else ((docId_, mapping2) :: rest', n)
      else
        let (rest', n) := removeAssets_loop s3Keys now rest removedCount in
        ((docId_, mapping1) :: rest', n)
  end.

Definition removeAssets (s3Keys : list string) (now : Z) (st : State) : State * Z :=
  let (m, removedCount) := removeAssets_loop s3Keys now (mappings st) 0 in
  let st1 := {| mappings := m; saved := saved st |} in
  if 0 <? removedCount then (save st1, removedCount) else (st1, removedCount).

Definition removeAssetsByFilter
  (filter_ : AssetUploadRecord -> string -> bool) (now : Z) (st : State)
  : State * list string :=
  let toRemove :=
    flat_map (fun kv =>
                map s3Key (filter (fun asset => filter_ asset (fst kv))
                             (assets (snd kv))))
      (mappings st) in
  if (0 <? List.length toRemove)%nat
  then (fst (removeAssets toRemove now st), toRemove)
  else (st, toRemove).

End AssetRecordManager.

(** ** ShareService: the asset pipeline (share-service.ts)

    The regular-expression engine is an input: [scan content] is the list
    of link targets captured, in order, by the image, link and HTML image
    patterns of [extractAssetPaths], and [replaceOne content asset] is the
    effect of the three [String.prototype.replace] calls made for one
    asset. *)

Module ShareService.
Section Service.

Context {crypto : SubtleCrypto}.
Variable config_s3 : S3Config.
Variable scan : string -> list string.
Variable replaceOne : string -> AssetUploadRecord -> string.

Definition isLocalAsset (path : string) : bool :=
  if JS.startsWith "http://" path || JS.startsWith "https://" path then false
  else if JS.startsWith "data:" path then false
  else JS.startsWith "assets/" path || JS.startsWith "/assets/" path.

(** [paths.add(path)] on a [Set]: insertion order, no duplicates. *)
Definition Set_add (path : string) (paths : list string) : list string :=
  if existsb (String.eqb path) paths then paths else (paths ++ [path])%list.

Definition extractAssetPaths (content : string) : list string :=
  fold_left (fun paths path => if isLocalAsset path then Set_add path paths else paths)
    (scan content) [].

(** The answer of the kernel to [GET apiPath]: the blob and its type
    when the response is [ok], nothing otherwise. *)
Definition Web : Type := string -> option (list byte * string).

Definition last_segment (assetPath : string) : string :=
  last (JS.split "/" assetPath) "".

Definition fetchAssetFile (assetPath : string) (web : Web)
  : Promise Effect (option File) :=
  let apiPath := if JS.startsWith "/" assetPath then assetPath else "/" ++ assetPath in
  perform (Net assetPath (AssetGet apiPath)) ;;;
  match web apiPath with
  | None => resolve None
  | Some (blob, blob_type) =>
      let filename := JS.or_else (last_segment assetPath) "asset" in
      resolve (Some {| name := filename; type := blob_type; arrayBuffer := blob |})
  end.

(** The first loop of [processAndUploadAssets]. *)
Fixpoint collect
  (index : AssetRecordManager.State) (web : Web) (assetPaths : list string)
  (uploadedAssets : list AssetUploadRecord) (filesToUpload : list (File * string))
  (trace : list Effect)
  : list AssetUploadRecord * list (File * string) * list Effect :=
  match assetPaths with
  | [] => (uploadedAssets, filesToUpload, trace)
  | assetPath :: rest =>
      match AssetRecordManager.findAssetByLocalPath assetPath index with
      | Some existingAsset =>
          collect index web rest (uploadedAssets ++ [existingAsset])%list
            filesToUpload trace
      | None =>
          match fetchAssetFile assetPath web with
          | (Resolved (Some file), t) =>
              collect index web rest uploadedAssets
                (filesToUpload ++ [(file, assetPath)])%list (trace ++ t)%list
          | (_, t) =>
              collect index web rest uploadedAssets filesToUpload (trace ++ t)%list
          end
      end
  end.

Definition processAndUploadAssets
  (content docId_ : string) (index : AssetRecordManager.State)
  (web : Web) (net : nat -> World)
  : Promise Effect (string * list AssetUploadRecord) :=
  let assetPaths := extractAssetPaths content in
  if Nat.eqb (List.length assetPaths) 0 then resolve (content, [])
  else
    let '(existing, filesToUpload, trace) := collect index web assetPaths [] [] [] in
    (Resolved tt, trace) ;;;
    uploadedAssets <-
      (if (0 <? List.length filesToUpload)%nat
       then
         uploaded <- S3UploadService.uploadFiles config_s3 filesToUpload net ;;
         resolve (existing ++ uploaded)%list
       else resolve existing) ;;
    let processedContent := fold_left replaceOne uploadedAssets content in
    resolve (processedContent, uploadedAssets).

(** Step 6 of [createShare]: the mapping is recorded only when at least
    one asset was uploaded or reused. *)
Definition createShare_saveMapping
  (docId_ shareId_ : string) (uploadedAssets : list AssetUploadRecord) (now : Z)
  (index : AssetRecordManager.State) : AssetRecordManager.State :=
  if (0 <? List.length uploadedAssets)%nat
  then AssetRecordManager.addOrUpdateMapping docId_ shareId_ uploadedAssets now index
  else index.

End Service.
End ShareService.

(** * Vocabulary of the specification *)

(** ** Hexadecimal fingerprints *)

(** The two lower-case hexadecimal digits of a byte, high nibble first. *)
Definition nibble (n : N) : ascii :=
  nth (N.to_nat n) (list_ascii_of_string "0123456789abcdef") "0"%char.

Definition two_hex_digits (b : byte) : string :=
  String (nibble (Byte.to_N b / 16)) (String (nibble (Byte.to_N b mod 16)) "").

Fixpoint hex_string (bs : list byte) : string :=
  match bs with
  | [] => ""
  | b :: rest => two_hex_digits b ++ hex_string rest
  end.

Definition is_lower_hex (a : ascii) : bool :=
  existsb (Ascii.eqb a) (list_ascii_of_string "0123456789abcdef").

(** ** Requests and effects *)

Definition is_relay (r : Request) : bool :=
  match r with ForwardProxyPost _ _ _ _ => true | _ => false end.

Definition is_relay_effect (e : Effect) : bool :=
  match e with Net _ r => is_relay r | ShowMessage _ => false end.

(** Not a relay request, or a relayed PUT. *)
Definition is_put_relay (e : Effect) : bool :=
  match e with
  | Net _ (ForwardProxyPost _ method _ _) => String.eqb method "PUT"
  | _ => true
  end.

(** A request of the upload path: a PUT, direct or through the relay. *)
Definition is_upload_request (r : Request) : bool :=
  match r with
  | XhrSend method _ _ => String.eqb method "PUT"
  | ForwardProxyPost _ method _ _ => String.eqb method "PUT"
  | AssetGet _ => false
  end.

(** An upload request sent on behalf of the local path [lp]. *)
Definition upload_effect_of (lp : string) (e : Effect) : bool :=
  match e with
  | Net subject r => String.eqb subject lp && is_upload_request r
  | ShowMessage _ => false
  end.

(** A network request sent on behalf of the local path [p]. *)
Definition concerns (p : string) (e : Effect) : bool :=
  match e with
  | Net subject _ => String.eqb subject p
  | ShowMessage _ => false
  end.

(** The subject, method and URL of an effect, on one line. *)
Definition request_line (e : Effect) : string :=
  match e with
  | Net subject (XhrSend method url _) => subject ++ ": " ++ method ++ " " ++ url
  | Net subject (ForwardProxyPost url method _ _) =>
      subject ++ ": relayed " ++ method ++ " " ++ url
  | Net subject (AssetGet apiPath) => subject ++ ": GET " ++ apiPath
  | ShowMessage text => text
  end.

(** ** URLs, keys and records *)

(** The URL of an object at the bucket endpoint, to which PUT and DELETE
    are sent. *)
Definition objectUrl (config : S3Config) (s3Key : string) : string :=
  "https://" ++ bucket config ++ "." ++ JS.strip_scheme (endpoint config) ++ "/" ++ s3Key.

(** The public URL of an object, as the specification derives it: the
    custom domain without its trailing slash when one is configured, the
    bucket endpoint otherwise. *)
Definition remoteUrl (config : S3Config) (s3Key : string) : string :=
  if JS.opt_truthy (customDomain config)
  then JS.strip_trailing_slash (JS.opt_or_else (customDomain config) "") ++ "/" ++ s3Key
  else "https://" ++ bucket config ++ "." ++ JS.strip_scheme (endpoint config)
         ++ "/" ++ s3Key.

(** The object key that [uploadFile] derives:
    [{pathPrefix}/{unixMillis}-{contentHash}{extension}]. *)
Definition objectKey {crypto : SubtleCrypto} (config : S3Config)
  (file : File) (precomputedHash : option string) (w : World) : string :=
  JS.opt_or_else (pathPrefix config) "siyuan-share" ++ "/" ++
  JS.String_ (now w) ++ "-" ++
  JS.opt_or_else precomputedHash (S3UploadService.calculateFileHash file) ++
  S3UploadService.getFileExtension (name file).

(** The record of an upload that ended with the remote URL [url]. *)
Definition recordOf {crypto : SubtleCrypto} (config : S3Config)
  (file : File) (lp : string) (pre : option string) (w : World) (url : string)
  : AssetUploadRecord :=
  {| localPath := lp;
     s3Key := objectKey config file pre w;
     s3Url := url;
     contentType := JS.or_else (type file) (S3UploadService.guessContentType (name file));
     size := file_size file;
     hash := JS.opt_or_else pre (S3UploadService.calculateFileHash file);
     uploadedAt := now w |}.

(** The same world with another outcome of the XMLHttpRequest. *)
Definition with_xhr (w : World) (outcome : XhrOutcome) : World :=
  {| now := now w;
     date := date w;
     xhr := outcome;
     siyuanToken := siyuanToken w;
     forwardProxy := forwardProxy w |}.

(** The same worlds but for the [i]-th. *)
Definition override (net : nat -> World) (i : nat) (w : World) : nat -> World :=
  fun j => if Nat.eqb j i then w else net j.

(** ** Batches *)

(** What each file of a batch meets on its own: the outcome of its own
    [uploadFile] call in its own world, whatever happened to the files
    before it. *)
Fixpoint attempts {crypto : SubtleCrypto} (config : S3Config)
  (files : list (File * string)) (net : nat -> World) (i : nat)
  : list (string * Promise Effect AssetUploadRecord) :=
  match files with
  | [] => []
  | (file, lp) :: rest =>
      (lp, S3UploadService.uploadFile config file lp None (net i))
        :: attempts config rest net (S i)
  end.

Definition successes (l : list (string * Promise Effect AssetUploadRecord))
  : list AssetUploadRecord :=
  flat_map (fun a => match settled (snd a) with Resolved r => [r] | _ => [] end) l.

Definition failures (l : list (string * Promise Effect AssetUploadRecord))
  : list string :=
  flat_map (fun a => match settled (snd a) with
                     | Rejected m => [fst a ++ ": " ++ m]
                     | _ => []
                     end) l.

Definition traces (l : list (string * Promise Effect AssetUploadRecord))
  : list Effect :=
  flat_map (fun a => effects (snd a)) l.

(** The single notification that reports the collected errors. *)
Definition notification (errors : list string) : list Effect :=
  match errors with
  | [] => []
  | _ :: _ => [ShowMessage ("部分文件上传失败:" ++ LF ++ JS.join LF errors)]
  end.

(** ** Canonical headers *)

(** A canonical header block: one [name:value] line per entry. *)
Definition header_block (entries : list (string * string)) : string :=
  String.concat "" (map (fun e => fst e ++ ":" ++ snd e ++ LF) entries).

(** Strictly ascending header names. *)
Fixpoint strictly_ascending (names : list string) : bool :=
  match names with
  | a :: (b :: _) as rest => String.ltb a b && strictly_ascending rest
  | _ => true
  end.

(** The headers that the current revision signs. *)
Definition signed_entries (config : S3Config) (d : Date) : list (string * string) :=
  [ ("host", bucket config ++ "." ++ JS.strip_scheme (endpoint config));
    ("x-amz-content-sha256", "UNSIGNED-PAYLOAD");
    ("x-amz-date", S3UploadService.formatAmzDate d) ].

(** A string without line feed. *)
Fixpoint one_line (s : string) : bool :=
  match s with
  | EmptyString => true
  | String a r => negb (Ascii.eqb a (ascii_of_N 10)) && one_line r
  end.

(** The shape of an RFC 1123 date: [Www, dd Mmm yyyy hh:mm:ss GMT]. *)
Definition is_digit (a : ascii) : bool :=
  let n := N_of_ascii a in ((48 <=? n) && (n <=? 57))%N.

Definition is_upper (a : ascii) : bool :=
  let n := N_of_ascii a in ((65 <=? n) && (n <=? 90))%N.

Definition is_lower (a : ascii) : bool :=
  let n := N_of_ascii a in ((97 <=? n) && (n <=? 122))%N.

Definition literally (s : string) : list (ascii -> bool) :=
  map (fun c a => Ascii.eqb a c) (list_ascii_of_string s).

Definition name3 : list (ascii -> bool) := [is_upper; is_lower; is_lower].

Definition digits (n : nat) : list (ascii -> bool) := repeat is_digit n.

Definition rfc1123_shape : list (ascii -> bool) :=
  (name3 ++ literally ", " ++ digits 2 ++ literally " " ++ name3 ++ literally " "
   ++ digits 4 ++ literally " " ++ digits 2 ++ literally ":" ++ digits 2
   ++ literally ":" ++ digits 2 ++ literally " GMT")%list.

(** [s] has exactly one character of each class, in order. *)
Fixpoint matches (classes : list (ascii -> bool)) (s : string) : bool :=
  match classes, s with
  | [], EmptyString => true
  | c :: cs, String a r => c a && matches cs r
  | _, _ => false
  end.

Definition is_rfc1123_date (s : string) : bool := matches rfc1123_shape s.

(** [P] holds of the [count] integers from [z] on. *)
Fixpoint check_from (P : Z -> bool) (count : nat) (z : Z) : bool :=
  match count with
  | O => true
  | S k => P z && check_from P k (z + 1)
  end.

(** A date of the years 0 to 9999 with its fields in range. *)
Definition valid_date (d : Date) : Prop :=
  0 <= getUTCFullYear d < 10000
  /\ 0 <= getUTCMonth d < 12
  /\ 0 <= getUTCDate d < 32
  /\ 0 <= getUTCDay d < 7
  /\ 0 <= getUTCHours d < 24
  /\ 0 <= getUTCMinutes d < 60
  /\ 0 <= getUTCSeconds d < 60.

(** ** The dedup index *)

(** All recorded assets, mappings in insertion order. *)
Definition recorded (st : AssetRecordManager.State) : list AssetUploadRecord :=
  flat_map assets (AssetRecordManager.getAllMappings st).

Module Index.

Import AssetRecordManager.

(** The operations that change the index, and the call that [createShare]
    makes after a publication. *)
Inductive Op : Type :=
| CreateShare (docId_ shareId_ : string) (uploadedAssets : list AssetUploadRecord)
| AddOrUpdateMapping (docId_ shareId_ : string) (assets_ : list AssetUploadRecord)
| RemoveAssetFromDoc (docId_ s3Key_ : string)
| RemoveAssets (s3Keys : list string)
| RemoveAssetsByFilter (filter_ : AssetUploadRecord -> string -> bool)
| RemoveMapping (docId_ : string)
| RemoveMappingByShareId (shareId_ : string).

(** One operation, performed at clock reading [now]. *)
Definition step (st : State) (call : Op * Z) : State :=
  let now := snd call in
  match fst call with
  | CreateShare d s a => ShareService.createShare_saveMapping d s a now st
  | AddOrUpdateMapping d s a => addOrUpdateMapping d s a now st
  | RemoveAssetFromDoc d k => fst (removeAssetFromDoc d k now st)
  | RemoveAssets ks => fst (removeAssets ks now st)
  | RemoveAssetsByFilter f => fst (removeAssetsByFilter f now st)
  | RemoveMapping d => removeMapping d st
  | RemoveMappingByShareId s => removeMappingByShareId s st
  end.

Definition run (calls : list (Op * Z)) (st : State) : State :=
  fold_left step calls st.

(** The two properties of the specification. *)
Definition one_mapping_per_doc (st : State) : Prop :=
  NoDup (map docId (getAllMappings st)).

Definition no_empty_mapping (st : State) : Prop :=
  Forall (fun mapping => assets mapping <> []) (getAllMappings st).

(** The invariant that carries them: the keys of the [Map] are distinct,
    every mapping is entered under its own document id, and none is
    empty. *)
Definition entry_ok (kv : string * DocAssetMapping) : Prop :=
  docId (snd kv) = fst kv /\ assets (snd kv) <> [].

Definition index_ok (st : State) : Prop :=
  NoDup (map fst (mappings st)) /\ Forall entry_ok (mappings st).

(** What [createShare] guarantees of its call, asked of a direct call. *)
Definition nonempty_update (call : Op * Z) : Prop :=
  match fst call with
  | AddOrUpdateMapping _ _ a => a <> []
  | _ => True
  end.

(** A pass over the entries that drops some and rewrites the mappings of
    others. *)
Inductive thinned : Entries -> Entries -> Prop :=
| thinned_nil : thinned [] []
| thinned_drop kv m m' : thinned m m' -> thinned (kv :: m) m'
| thinned_keep k v v' m m' : thinned m m' -> thinned ((k, v) :: m) ((k, v') :: m').

End Index.

(** * Sample inputs *)

(** The reference implementation as an instance of the interface. *)
#[export] Instance ref_crypto : SubtleCrypto :=
  {| digest_SHA256 := RefCrypto.sha256;
     sign_HMAC := RefCrypto.hmac;
     digest_SHA256_size := fun _ => eq_refl;
     sign_HMAC_size := fun h _ _ =>
       match h with SHA_1 => eq_refl | SHA_256 => eq_refl end |}.

Definition sample_config : S3Config :=
  {| enabled := true;
     endpoint := "https://s3.example.com";
     region := "us-east-1";
     bucket := "b";
     accessKeyId := "AKIDEXAMPLE";
     secretAccessKey := "wJalrXUtnFEMI/K7MDENG+bPxRfiCYEXAMPLEKEY";
     customDomain := None;
     pathPrefix := Some "p";
     provider := None |}.

Definition sample_date : Date :=
  {| getUTCFullYear := 2024;
     getUTCMonth := 0;
     getUTCDate := 2;
     getUTCDay := 2;
     getUTCHours := 3;
     getUTCMinutes := 4;
     getUTCSeconds := 5 |}.

Definition world (t : Z) (outcome : XhrOutcome) (relay : FetchOutcome) : World :=
  {| now := t;
     date := sample_date;
     xhr := outcome;
     siyuanToken := Some "kernel-token";
     forwardProxy := relay |}.

Definition relay_accepts : FetchOutcome :=
  fetch_response
    {| ok := true;
       resp_status := 200;
       resp_content_type := Some "application/json; charset=utf-8";
       resp_json := Some {| code := Some 0; msg := Some "" |} |}.

Definition relay_down : FetchOutcome := fetch_failure "Failed to fetch".

Definition file_named (n : string) (content : string) : File :=
  {| name := n; type := ""; arrayBuffer := JS.encode content |}.

Definition file_abc : File :=
  {| name := "abc.png"; type := "image/png"; arrayBuffer := JS.encode "abc" |}.

Definition file_abc_renamed : File :=
  {| name := "copy.bin"; type := ""; arrayBuffer := JS.encode "abc" |}.

(** A batch of three files; the direct PUT of the second one fails at the
    transport level and the relay accepts it. *)
Definition batch3 : list (File * string) :=
  [ (file_named "a.png" "first", "assets/a.png");
    (file_named "b.png" "second", "assets/b.png");
    (file_named "c.pdf" "third", "assets/c.pdf") ].

Definition net3 : nat -> World :=
  fun i =>
    match i with
    | 1%nat => world 1700000000002 xhr_error relay_accepts
    | _ => world (1700000000001 + Z.of_nat i) (xhr_load 200 "") relay_down
    end.

(** A batch whose only file is refused with a 403. *)
Definition batch_refused : list (File * string) :=
  [(file_named "a.png" "first", "assets/a.png")].

Definition net_refused : nat -> World :=
  fun _ => world 1700000000001 (xhr_load 403 "AccessDenied") relay_down.

Definition asset (path key url h : string) (n : Z) : AssetUploadRecord :=
  {| localPath := path; s3Key := key; s3Url := url; contentType := "image/png";
     size := n; hash := h; uploadedAt := 1700000000000 |}.

Definition asset_a : AssetUploadRecord :=
  asset "assets/a.png" "p/1-aaaa.png" "https://b.s3.example.com/p/1-aaaa.png"
    "aaaaaaaaaaaaaaaa" 10.

Definition asset_b : AssetUploadRecord :=
  asset "assets/b.png" "p/2-bbbb.png" "https://b.s3.example.com/p/2-bbbb.png"
    "bbbbbbbbbbbbbbbb" 20.

(** A fresh index, then a document published without assets, one
    published with two assets, one asset removed, another document, a
    re-publication and a purge. *)
Definition history : list (Index.Op * Z) :=
  [ (Index.CreateShare "doc-0" "share-0" [], 0);
    (Index.AddOrUpdateMapping "doc-1" "share-1" [asset_a; asset_b], 1);
    (Index.RemoveAssetFromDoc "doc-1" "p/1-aaaa.png", 2);
    (Index.AddOrUpdateMapping "doc-2" "share-2" [asset_a], 3);
    (Index.AddOrUpdateMapping "doc-1" "share-3" [asset_b; asset_a], 4);
    (Index.RemoveAssets ["p/1-aaaa.png"], 5);
    (Index.RemoveMappingByShareId "share-9", 6) ].

(** An index that records [assets/a.png], and a document that references
    it along with an asset not yet uploaded. *)
Definition index_a : AssetRecordManager.State :=
  Index.run [(Index.AddOrUpdateMapping "doc-1" "share-1" [asset_a], 1)]
    AssetRecordManager.init.

Definition scan_two (content : string) : list string :=
  ["assets/a.png"; "https://example.com/x.png"; "assets/b.png"; "assets/a.png"].

Definition web_b : ShareService.Web :=
  fun apiPath =>
    if String.eqb apiPath "/assets/b.png" then Some (JS.encode "second", "image/png")
    else None.

(** An index that holds a record of 7 bytes under the fingerprint of the
    3-byte blob "abc". *)
Definition index_collision : AssetRecordManager.State :=
  Index.run
    [(Index.AddOrUpdateMapping "doc-1" "share-1"
        [asset "assets/other.png" "p/1-ba7816bf8f01cfea.png"
           "https://b.s3.example.com/p/1-ba7816bf8f01cfea.png" "ba7816bf8f01cfea" 7], 1)]
    AssetRecordManager.init.

(** * Further vocabulary *)

(** ** The index as a store *)

Module Store.

Import AssetRecordManager.

(** The entries form a [Map]: the keys are distinct. *)
Definition distinct_keys (st : State) : Prop := NoDup (map fst (mappings st)).

(** Every mapping is entered under its own document id. *)
Definition keyed_by_docId (st : State) : Prop :=
  Forall (fun kv => docId (snd kv) = fst kv) (mappings st).

(** The array last written is the content of the [Map]. *)
Definition persisted (st : State) : Prop := saved st = Map_values (mappings st).

(** The last stored mapping of a document. *)
Definition last_stored (d : string) (data : list DocAssetMapping) : option DocAssetMapping :=
  find (fun mapping => String.eqb (docId mapping) d) (rev data).

(** The asset of key [k] is to be removed. *)
Definition has_key (k : string) (a : AssetUploadRecord) : bool := String.eqb (s3Key a) k.

(** The asset is not named by the keys [ks]. *)
Definition kept (ks : list string) (a : AssetUploadRecord) : bool :=
  negb (Set_has ks (s3Key a)).

End Store.

(** ** The transport of the uploader *)

(** The [headers] that [performUpload] computes for its PUT and hands over
    to the relay. *)
Definition putHeaders {crypto : SubtleCrypto} (config : S3Config)
  (file : File) (s3Key : string) (w : World) : Headers :=
  let contentType :=
    JS.or_else (type file) (S3UploadService.guessContentType (name file)) in
  match S3UploadService.provider_or_default config with
  | oss => S3UploadService.generateOssHeaders config "PUT" s3Key contentType (date w)
  | aws =>
      S3UploadService.generateSignedHeaders config "PUT" s3Key contentType
        (file_size file) (date w)
  end.

(** Whether the kernel token is configured. *)
Definition has_token (w : World) : bool := JS.truthy (JS.opt_or_else (siyuanToken w) "").

(** The parsed body of a relay answer, [{}] when it cannot be parsed. *)
Definition relay_result (resp : Response) : KernelResponse :=
  match resp_json resp with
  | Some r => r
  | None => {| code := None; msg := None |}
  end.

(** A relay answer announced as JSON. *)
Definition is_json (resp : Response) : bool :=
  JS.includes "application/json" (JS.opt_or_else (resp_content_type resp) "").

(** The answers of the relay that count as an upload: an [ok] response
    whose body, when it is announced as JSON, has no [code] or the code 0. *)
Definition relay_accepted (resp : Response) : bool :=
  ok resp
  && (negb (is_json resp)
      || match code (relay_result resp) with Some c => c =? 0 | None => true end).

(** Whether the DELETE sent in the world [w] counts as a deletion. *)
Definition deleted (w : World) : bool :=
  match xhr w with
  | xhr_load status _ => ((200 <=? status) && (status <? 300)) || (status =? 404)
  | _ => false
  end.

(** The keys of a batch with their positions, from position [i] on. *)
Definition indexed (i : nat) (s3Keys : list string) : list (nat * string) :=
  combine (seq i (List.length s3Keys)) s3Keys.

(** ** File names and content types *)

(** A string without a dot. *)
Fixpoint dotless (s : string) : bool :=
  match s with
  | EmptyString => true
  | String a r => negb (Ascii.eqb a ".") && dotless r
  end.

(** The content type that [performUpload] announces and [uploadFile]
    records: [file.type || this.guessContentType(file.name)]. *)
Definition contentTypeOf {crypto : SubtleCrypto} (file : File) : string :=
  JS.or_else (type file) (S3UploadService.guessContentType (name file)).

(** The shape of the timestamps of Signature V4: [yyyymmddThhmmssZ]. *)
Definition amz_date_shape : list (ascii -> bool) :=
  (digits 8 ++ literally "T" ++ digits 6 ++ literally "Z")%list.

(** ** Canonical URIs *)

(** A string without the character [c]. *)
Fixpoint without (c : ascii) (s : string) : bool :=
  match s with
  | EmptyString => true
  | String a r => negb (Ascii.eqb a c) && without c r
  end.

(** An object key made of unreserved characters and slashes. *)
Fixpoint uri_safe (s : string) : bool :=
  match s with
  | EmptyString => true
  | String a r => (JS.uri_unreserved a || Ascii.eqb a "/") && uri_safe r
  end.

(** ** The asset pipeline *)

(** The path under which [fetchAssetFile] asks the kernel for an asset. *)
Definition apiPathOf (assetPath : string) : string :=
  if JS.startsWith "/" assetPath then assetPath else "/" ++ assetPath.


(** The records that the index finds for the paths, in order. *)
Definition found_for (index : AssetRecordManager.State) (assetPaths : list string)
  : list AssetUploadRecord :=
  flat_map (fun p => match AssetRecordManager.findAssetByLocalPath p index with
                     | Some a => [a]
                     | None => []
                     end) assetPaths.

(** ** Further sample inputs *)

(** A configuration that is enabled but names no region, and one that is
    switched off. *)
Definition config_no_region : S3Config :=
  {| enabled := true;
     endpoint := "https://s3.example.com";
     region := "";
     bucket := "b";
     accessKeyId := "AKIDEXAMPLE";
     secretAccessKey := "wJalrXUtnFEMI/K7MDENG+bPxRfiCYEXAMPLEKEY";
     customDomain := None;
     pathPrefix := Some "p";
     provider := None |}.

(** A world in which the kernel token is not configured. *)
Definition world_without_token (t : Z) (outcome : XhrOutcome) (relay : FetchOutcome)
  : World :=
  {| now := t;
     date := sample_date;
     xhr := outcome;
     siyuanToken := None;
     forwardProxy := relay |}.

(** The sample configuration, for the OSS signature scheme. *)
Definition sample_config_oss : S3Config :=
  {| enabled := true;
     endpoint := "https://oss-cn-hangzhou.aliyuncs.com";
     region := "oss-cn-hangzhou";
     bucket := "b";
     accessKeyId := "AKIDEXAMPLE";
     secretAccessKey := "wJalrXUtnFEMI/K7MDENG+bPxRfiCYEXAMPLEKEY";
     customDomain := None;
     pathPrefix := Some "p";
     provider := Some oss |}.

(** * Properties *)

(** ** The primitives at known values *)

Example toUTCString_sample :
  toUTCString sample_date = "Tue, 02 Jan 2024 03:04:05 GMT".
Proof. reflexivity. Qed.

Example toString16_255 : JS.toString16 255 = "ff". Proof. reflexivity. Qed.
Example toString16_10 : JS.toString16 10 = "a". Proof. reflexivity. Qed.
Example toString_404 : JS.String_ 404 = "404". Proof. reflexivity. Qed.
Example toString_0 : JS.String_ 0 = "0". Proof. reflexivity. Qed.
Example btoa_Man : JS.btoa (JS.encode "Ma") = "TWE=". Proof. reflexivity. Qed.
Example split_key : JS.split "/" "p/123-abc.png" = ["p"; "123-abc.png"].
Proof. reflexivity. Qed.
Example encode_space : JS.encodeURIComponent "a b/c" = "a%20b%2Fc".
Proof. reflexivity. Qed.

Example sha256_abc :
  hex_of_bytes (RefCrypto.sha256 (JS.encode "abc"))
  = "ba7816bf8f01cfea414140de5dae2223b00361a396177a9cb410ff61f20015ad".
Proof. vm_compute. reflexivity. Qed.

Example sha256_two_blocks :
  hex_of_bytes (RefCrypto.sha256
     (JS.encode "abcdbcdecdefdefgefghfghighijhijkijkljklmklmnlmnomnopnopq"))
  = "248d6a61d20638b8e5c026930c3e6039a33ce45964ff2167f6ecedd419db06c1".
Proof. vm_compute. reflexivity. Qed.

Example sha1_abc :
  hex_of_bytes (RefCrypto.sha1 (JS.encode "abc"))
  = "a9993e364706816aba3e25717850c26c9cd0d89d".
Proof. vm_compute. reflexivity. Qed.

Example hmac_sha256_rfc4231_2 :
  hex_of_bytes (RefCrypto.hmac SHA_256 (JS.encode "Jefe")
                  (JS.encode "what do ya want for nothing?"))
  = "5bdcc146bf60754e6a042426089575c75a003f089d2739839dec58b964ec3843".
Proof. vm_compute. reflexivity. Qed.

Example hmac_sha1_rfc2202_2 :
  hex_of_bytes (RefCrypto.hmac SHA_1 (JS.encode "Jefe")
                  (JS.encode "what do ya want for nothing?"))
  = "effcdf6ae5eb2fa2d27416d5f184df9c259a7c79".
Proof. vm_compute. reflexivity. Qed.

(** ** Hexadecimal fingerprints *)

Lemma hex_of_byte_two_digits b : hex_of_byte b = two_hex_digits b.
Proof. destruct b; vm_compute; reflexivity. Qed.

Lemma hex_of_bytes_hex_string bs : hex_of_bytes bs = hex_string bs.
Proof.
  unfold hex_of_bytes, JS.join.
  induction bs as [|b [|c rest] IH].
  - reflexivity.
  - cbn. rewrite hex_of_byte_two_digits. reflexivity.
  - change (String.concat "" (map hex_of_byte (b :: c :: rest)))
      with (hex_of_byte b ++ "" ++ String.concat "" (map hex_of_byte (c :: rest))).
    rewrite IH, hex_of_byte_two_digits. reflexivity.
Qed.

Lemma hex_string_length bs : String.length (hex_string bs) = (2 * List.length bs)%nat.
Proof. induction bs as [|b rest IH]; cbn; [reflexivity | rewrite IH; lia]. Qed.

Lemma two_hex_digits_lower b :
  forallb is_lower_hex (list_ascii_of_string (two_hex_digits b)) = true.
Proof. destruct b; vm_compute; reflexivity. Qed.

Lemma hex_string_lower bs :
  forallb is_lower_hex (list_ascii_of_string (hex_string bs)) = true.
Proof.
  induction bs as [|b rest IH]; [reflexivity|].
  pose proof (two_hex_digits_lower b) as Hb.
  cbn in *. rewrite IH. apply andb_true_iff in Hb as [-> Hb].
  apply andb_true_iff in Hb as [-> _]. reflexivity.
Qed.

Lemma substring0_hex_string n bs :
  (n <= List.length bs)%nat ->
  JS.substring0 (2 * n) (hex_string bs) = hex_string (firstn n bs).
Proof.
  unfold JS.substring0. revert bs; induction n as [|n IH]; intros bs Hn.
  - cbn. destruct (hex_string bs); reflexivity.
  - destruct bs as [|b rest]; [cbn in Hn; lia|].
    replace (2 * S n)%nat with (S (S (2 * n))) by lia.
    cbn [hex_string firstn append two_hex_digits substring].
    rewrite IH by (cbn in Hn; lia). reflexivity.
Qed.

(** C7.  For every blob, [calculateFileHash] is the first 16 characters of
    the hexadecimal rendering of the SHA-256 digest of the whole content:
    the two lower-case, zero-padded digits of each of the first eight digest
    bytes; it has exactly 16 characters, all lower-case hexadecimal digits,
    and two files with the same bytes have the same fingerprint, whatever
    their names and types. *)
Theorem calculateFileHash_fingerprint
  (crypto : SubtleCrypto) (file file' : File) :
  arrayBuffer file = arrayBuffer file' ->
  S3UploadService.calculateFileHash file
    = substring 0 16 (hex_string (digest_SHA256 (arrayBuffer file)))
  /\ S3UploadService.calculateFileHash file
    = hex_string (firstn 8 (digest_SHA256 (arrayBuffer file)))
  /\ String.length (S3UploadService.calculateFileHash file) = 16%nat
  /\ forallb is_lower_hex
       (list_ascii_of_string (S3UploadService.calculateFileHash file)) = true
  /\ S3UploadService.calculateFileHash file = S3UploadService.calculateFileHash file'.
Proof.
  intros Hsame.
  assert (Hfirst : S3UploadService.calculateFileHash file
                   = hex_string (firstn 8 (digest_SHA256 (arrayBuffer file)))).
  { unfold S3UploadService.calculateFileHash. rewrite hex_of_bytes_hex_string.
    apply (substring0_hex_string 8). rewrite digest_SHA256_size. lia. }
  repeat split.
  - unfold S3UploadService.calculateFileHash. rewrite hex_of_bytes_hex_string. reflexivity.
  - exact Hfirst.
  - rewrite Hfirst, hex_string_length, length_firstn, digest_SHA256_size. reflexivity.
  - rewrite Hfirst. apply hex_string_lower.
  - unfold S3UploadService.calculateFileHash. rewrite Hsame. reflexivity.
Qed.

Lemma calculateFileHash_fingerprint_witness :
  S3UploadService.calculateFileHash file_abc = "ba7816bf8f01cfea"
  /\ S3UploadService.calculateFileHash file_abc
     = S3UploadService.calculateFileHash file_abc_renamed.
Proof.
  pose proof (calculateFileHash_fingerprint ref_crypto file_abc file_abc_renamed eq_refl)
    as [_ [H8 [_ [_ Heq]]]].
  split; [rewrite H8; vm_compute; reflexivity | exact Heq].
Defined.

(** ** Transport *)

Section Transport.

Context {crypto : SubtleCrypto}.
Variable config : S3Config.

Lemma performDelete_effects s3Key w :
  exists headers,
    effects (S3UploadService.performDelete config s3Key w)
    = [XhrSend "DELETE" (objectUrl config s3Key) headers].
Proof.
  unfold S3UploadService.performDelete, effects, await, perform, resolve, reject.
  eexists. destruct (xhr w) as [status body| |]; cbn [snd].
  - destruct ((200 <=? status) && (status <? 300)); [reflexivity|].
    destruct (status =? 404); reflexivity.
  - reflexivity.
  - reflexivity.
Qed.

Lemma performDelete_load s3Key w status body :
  xhr w = xhr_load status body ->
  settled (S3UploadService.performDelete config s3Key w)
  = if (200 <=? status) && (status <? 300) then Resolved tt
    else if status =? 404 then Resolved tt
    else Rejected ("S3 删除失败: HTTP " ++ JS.String_ status ++ " - " ++ body).
Proof.
  intros Hx.
  unfold S3UploadService.performDelete, settled, await, perform, resolve, reject.
  rewrite Hx. cbn [fst].
  destruct ((200 <=? status) && (status <? 300)); [reflexivity|].
  destruct (status =? 404); reflexivity.
Qed.

Lemma deleteFile_valid s3Key w :
  enabled config = true ->
  S3UploadService.validateConfig config = true ->
  S3UploadService.deleteFile config s3Key w
  = lift (Net s3Key) (S3UploadService.performDelete config s3Key w).
Proof.
  intros He Hv. unfold S3UploadService.deleteFile. rewrite He, Hv. reflexivity.
Qed.

End Transport.

(** C8.  For every DELETE of a remote key that meets an HTTP response: a
    status 404 resolves, just as a 2xx status does, and every other status
    rejects with an error whose message carries the status code and the
    response body; this holds for [performDelete] and, with a complete
    configuration, for [deleteFile]. *)
Theorem delete_404_is_success
  (crypto : SubtleCrypto) (config : S3Config) (s3Key : string) (w : World)
  (status : Z) (body : string) :
  xhr w = xhr_load status body ->
  enabled config = true ->
  S3UploadService.validateConfig config = true ->
  let outcome := settled (S3UploadService.performDelete config s3Key w) in
  (200 <= status < 300 -> outcome = Resolved tt)
  /\ (status = 404 -> outcome = Resolved tt)
  /\ (~ 200 <= status < 300 -> status <> 404 ->
      outcome = Rejected ("S3 删除失败: HTTP " ++ JS.String_ status ++ " - " ++ body))
  /\ settled (S3UploadService.deleteFile config s3Key w) = outcome.
Proof.
  intros Hx He Hv outcome. subst outcome.
  rewrite (deleteFile_valid config s3Key w He Hv).
  rewrite (performDelete_load config s3Key w status body Hx).
  repeat split.
  - intros [Hlo Hhi].
    apply Z.leb_le in Hlo. apply Z.ltb_lt in Hhi. rewrite Hlo, Hhi. reflexivity.
  - intros ->. reflexivity.
  - intros Hnot Hne.
    destruct ((200 <=? status) && (status <? 300)) eqn:H2xx.
    + apply andb_true_iff in H2xx as [Hlo Hhi].
      apply Z.leb_le in Hlo. apply Z.ltb_lt in Hhi. lia.
    + apply Z.eqb_neq in Hne. rewrite Hne. reflexivity.
  - unfold lift, settled. cbn [fst].
    rewrite <- (performDelete_load config s3Key w status body Hx). reflexivity.
Qed.

(** ** Promise combinators *)

Lemma settled_await_resolve {E A B} (p : Promise E A) (g : A -> B) :
  settled (x <- p ;; resolve (g x))
  = match settled p with
    | Resolved a => Resolved (g a)
    | Rejected m => Rejected m
    | Pending => Pending
    end.
Proof. destruct p as [[a|m|] t]; reflexivity. Qed.

Lemma effects_await_resolve {E A B} (p : Promise E A) (g : A -> B) :
  effects (x <- p ;; resolve (g x)) = effects p.
Proof. destruct p as [[a|m|] t]; cbn; [apply app_nil_r | reflexivity | reflexivity]. Qed.

Lemma settled_lift {E F A} (f : E -> F) (p : Promise E A) :
  settled (lift f p) = settled p.
Proof. reflexivity. Qed.

Lemma effects_lift {E F A} (f : E -> F) (p : Promise E A) :
  effects (lift f p) = map f (effects p).
Proof. reflexivity. Qed.

Lemma settled_perform_then {E A} (e : E) (p : Promise E A) :
  settled (perform e ;;; p) = settled p.
Proof. destruct p as [r t]; reflexivity. Qed.

Lemma effects_perform_then {E A} (e : E) (p : Promise E A) :
  effects (perform e ;;; p) = e :: effects p.
Proof. destruct p as [r t]; reflexivity. Qed.

(** ** Uploads *)

Section Upload.

Context {crypto : SubtleCrypto}.
Variable config : S3Config.

Lemma final_url_remoteUrl {E} s3Key :
  match customDomain config with
  | Some d =>
      if JS.truthy d
      then resolve (JS.strip_trailing_slash d ++ "/" ++ s3Key)
      else resolve ("https://" ++ bucket config ++ "." ++ JS.strip_scheme (endpoint config)
                      ++ "/" ++ s3Key)
  | None => resolve ("https://" ++ bucket config ++ "." ++ JS.strip_scheme (endpoint config)
                       ++ "/" ++ s3Key)
  end = (resolve (remoteUrl config s3Key) : Promise E string).
Proof.
  unfold remoteUrl, JS.opt_truthy, JS.opt_or_else, JS.or_else.
  destruct (customDomain config) as [d|]; [destruct (JS.truthy d)|]; reflexivity.
Qed.

Lemma relay_settled file s3Key headers w :
  settled (S3UploadService.uploadViaForwardProxy config file s3Key headers w)
  = Resolved (remoteUrl config s3Key)
  \/ exists m,
      settled (S3UploadService.uploadViaForwardProxy config file s3Key headers w)
      = Rejected m.
Proof.
  unfold S3UploadService.uploadViaForwardProxy.
  rewrite final_url_remoteUrl.
  destruct (negb (JS.truthy (JS.opt_or_else (siyuanToken w) ""))).
  { right. eexists. reflexivity. }
  destruct (forwardProxy w) as [resp|m].
  2:{ right. eexists. reflexivity. }
  destruct (JS.includes "application/json" (JS.opt_or_else (resp_content_type resp) "")).
  - destruct (negb (ok resp) || _).
    + right. eexists. reflexivity.
    + left. reflexivity.
  - destruct (negb (ok resp)).
    + right. eexists. reflexivity.
    + left. reflexivity.
Qed.

(** Whether the relay accepts does not depend on the key or the headers. *)
Lemma relay_settled_uniform file s3Key headers s3Key' headers' w u :
  settled (S3UploadService.uploadViaForwardProxy config file s3Key headers w)
  = Resolved u ->
  settled (S3UploadService.uploadViaForwardProxy config file s3Key' headers' w)
  = Resolved (remoteUrl config s3Key').
Proof.
  unfold S3UploadService.uploadViaForwardProxy.
  rewrite !final_url_remoteUrl.
  destruct (negb (JS.truthy (JS.opt_or_else (siyuanToken w) ""))); [discriminate|].
  destruct (forwardProxy w) as [resp|m]; [|discriminate].
  destruct (JS.includes "application/json" (JS.opt_or_else (resp_content_type resp) "")).
  - destruct (negb (ok resp) || _); [discriminate | reflexivity].
  - destruct (negb (ok resp)); [discriminate | reflexivity].
Qed.

Lemma relay_effects file s3Key headers w :
  forallb is_upload_request
    (effects (S3UploadService.uploadViaForwardProxy config file s3Key headers w)) = true.
Proof.
  unfold S3UploadService.uploadViaForwardProxy.
  rewrite final_url_remoteUrl.
  destruct (negb (JS.truthy (JS.opt_or_else (siyuanToken w) ""))); [reflexivity|].
  destruct (forwardProxy w) as [resp|m]; [|reflexivity].
  destruct (JS.includes "application/json" (JS.opt_or_else (resp_content_type resp) "")).
  - destruct (negb (ok resp) || _); reflexivity.
  - destruct (negb (ok resp)); reflexivity.
Qed.

(** The chunked loop rebuilds the whole content: the fuel is enough. *)
Lemma binary_loop_all chunk fuel (uint8 : list byte) :
  (0 < chunk)%nat -> (List.length uint8 <= fuel)%nat ->
  S3UploadService.binary_loop chunk fuel uint8 = uint8.
Proof.
  intros Hc. revert uint8. induction fuel as [|k IH]; intros uint8 Hlen.
  - destruct uint8; [reflexivity | cbn in Hlen; lia].
  - destruct uint8 as [|b rest]; [reflexivity|].
    cbn [S3UploadService.binary_loop]. rewrite IH.
    + apply firstn_skipn.
    + rewrite length_skipn. cbn [List.length] in *. lia.
Qed.

(** With a kernel token, the relay is asked once, for a PUT of the whole
    file to the object URL, without any [Host] header. *)
Lemma relay_request file s3Key headers w :
  JS.truthy (JS.opt_or_else (siyuanToken w) "") = true ->
  effects (S3UploadService.uploadViaForwardProxy config file s3Key headers w)
  = [ForwardProxyPost (objectUrl config s3Key) "PUT"
       (filter (fun kv => negb (S3UploadService.is_host_header (fst kv))) headers)
       (JS.btoa (arrayBuffer file))].
Proof.
  intros Htoken. unfold S3UploadService.uploadViaForwardProxy.
  rewrite final_url_remoteUrl, Htoken. cbn [negb].
  rewrite effects_perform_then, binary_loop_all;
    [| apply Nat.ltb_lt; vm_compute; reflexivity | apply Nat.le_refl].
  unfold objectUrl. f_equal.
  destruct (forwardProxy w) as [resp|m]; [|reflexivity].
  destruct (JS.includes "application/json" (JS.opt_or_else (resp_content_type resp) "")).
  - destruct (negb (ok resp) || _); reflexivity.
  - destruct (negb (ok resp)); reflexivity.
Qed.

Lemma relay_not_pending file s3Key headers w :
  settled (S3UploadService.uploadViaForwardProxy config file s3Key headers w) <> Pending.
Proof.
  destruct (relay_settled file s3Key headers w) as [H|[m H]]; rewrite H; discriminate.
Qed.

Lemma performUpload_load file s3Key w status body :
  xhr w = xhr_load status body ->
  settled (S3UploadService.performUpload config file s3Key w)
  = if (200 <=? status) && (status <? 300) then Resolved (remoteUrl config s3Key)
    else Rejected ("S3 上传失败: HTTP " ++ JS.String_ status ++ " - " ++ body).
Proof.
  intros Hx. unfold S3UploadService.performUpload.
  rewrite final_url_remoteUrl, Hx.
  destruct ((200 <=? status) && (status <? 300)); reflexivity.
Qed.

Lemma performUpload_error file s3Key w :
  xhr w = xhr_error ->
  exists headers,
    settled (S3UploadService.performUpload config file s3Key w)
    = settled (S3UploadService.uploadViaForwardProxy config file s3Key headers w).
Proof.
  intros Hx. unfold S3UploadService.performUpload. rewrite Hx.
  eexists. apply settled_perform_then.
Qed.

Lemma performUpload_not_pending file s3Key w :
  settled (S3UploadService.performUpload config file s3Key w) <> Pending.
Proof.
  destruct (xhr w) as [status body| |] eqn:Hx.
  - rewrite (performUpload_load _ _ _ _ _ Hx).
    destruct ((200 <=? status) && (status <? 300)); discriminate.
  - destruct (performUpload_error file s3Key w Hx) as [headers ->].
    apply relay_not_pending.
  - unfold S3UploadService.performUpload. rewrite Hx. discriminate.
Qed.

Lemma performUpload_effects file s3Key w :
  forallb is_upload_request
    (effects (S3UploadService.performUpload config file s3Key w)) = true.
Proof.
  unfold S3UploadService.performUpload. rewrite final_url_remoteUrl.
  destruct (xhr w) as [status body| |].
  - destruct ((200 <=? status) && (status <? 300)); reflexivity.
  - rewrite effects_perform_then. cbn [forallb is_upload_request String.eqb].
    apply relay_effects.
  - reflexivity.
Qed.

Lemma uploadFile_settled file lp pre w :
  enabled config = true ->
  S3UploadService.validateConfig config = true ->
  settled (S3UploadService.uploadFile config file lp pre w)
  = match settled (S3UploadService.performUpload config file (objectKey config file pre w) w) with
    | Resolved url => Resolved (recordOf config file lp pre w url)
    | Rejected m => Rejected m
    | Pending => Pending
    end.
Proof.
  intros He Hv. unfold S3UploadService.uploadFile. rewrite He, Hv. cbn [negb].
  rewrite settled_await_resolve, settled_lift. reflexivity.
Qed.

Lemma uploadFile_not_pending file lp pre w :
  settled (S3UploadService.uploadFile config file lp pre w) <> Pending.
Proof.
  unfold S3UploadService.uploadFile.
  destruct (negb (enabled config)); [discriminate|].
  destruct (negb (S3UploadService.validateConfig config)); [discriminate|].
  rewrite settled_await_resolve, settled_lift.
  match goal with
  | |- context [S3UploadService.performUpload ?c ?f ?k ?w'] =>
      pose proof (performUpload_not_pending f k w') as Hp;
      destruct (settled (S3UploadService.performUpload c f k w'))
  end; [discriminate | discriminate | congruence].
Qed.

Lemma uploadFile_effects file lp pre w :
  forallb (upload_effect_of lp)
    (effects (S3UploadService.uploadFile config file lp pre w)) = true.
Proof.
  unfold S3UploadService.uploadFile.
  destruct (negb (enabled config)); [reflexivity|].
  destruct (negb (S3UploadService.validateConfig config)); [reflexivity|].
  rewrite effects_await_resolve, effects_lift.
  match goal with
  | |- context [S3UploadService.performUpload ?c ?f ?k ?w'] =>
      pose proof (performUpload_effects f k w') as Hp;
      induction (effects (S3UploadService.performUpload c f k w')) as [|r t IH]
  end; [reflexivity|].
  cbn in *. apply andb_true_iff in Hp as [Hr Ht].
  rewrite String.eqb_refl, Hr, (IH Ht). reflexivity.
Qed.

End Upload.

(** ** Batches *)

Section Batch.

Context {crypto : SubtleCrypto}.
Variable config : S3Config.

Lemma attempts_length files net i :
  List.length (attempts config files net i) = List.length files.
Proof.
  revert i; induction files as [|[f lp] rest IH]; intros i; cbn; [reflexivity|].
  rewrite IH. reflexivity.
Qed.

Lemma successes_failures_length files net i :
  (List.length (successes (attempts config files net i))
   + List.length (failures (attempts config files net i)) = List.length files)%nat.
Proof.
  revert i; induction files as [|[f lp] rest IH]; intros i; [reflexivity|].
  cbn [attempts successes failures flat_map snd fst].
  pose proof (uploadFile_not_pending config f lp None (net i)) as Hp.
  specialize (IH (S i)). unfold successes, failures in IH.
  destruct (settled (S3UploadService.uploadFile config f lp None (net i)));
    [| | congruence]; rewrite !length_app; cbn [List.length]; lia.
Qed.

Lemma uploadFiles_loop_spec files net i results errors trace :
  S3UploadService.uploadFiles_loop config files net i results errors trace
  = (Resolved ((results ++ successes (attempts config files net i))%list,
               (errors ++ failures (attempts config files net i))%list),
     (trace ++ traces (attempts config files net i))%list).
Proof.
  revert i results errors trace.
  induction files as [|[f lp] rest IH]; intros i results errors trace.
  - cbn. rewrite !app_nil_r. reflexivity.
  - cbn [S3UploadService.uploadFiles_loop attempts successes failures traces
           flat_map snd fst].
    pose proof (uploadFile_not_pending config f lp None (net i)) as Hp.
    unfold settled, effects in *.
    destruct (S3UploadService.uploadFile config f lp None (net i)) as [[r|m|] t];
      cbn [fst snd] in *; [| | congruence];
      rewrite IH; unfold successes, failures, traces;
      rewrite <- !app_assoc; reflexivity.
Qed.

Lemma uploadFiles_spec files net :
  S3UploadService.uploadFiles config files net
  = (Resolved (successes (attempts config files net 0)),
     (traces (attempts config files net 0)
        ++ notification (failures (attempts config files net 0)))%list).
Proof.
  unfold S3UploadService.uploadFiles. rewrite uploadFiles_loop_spec.
  cbn [app await fst snd].
  destruct (failures (attempts config files net 0)) as [|e errs]; cbn; rewrite ?app_nil_r;
    reflexivity.
Qed.

Lemma traces_upload_effects files net i :
  Forall (fun e => exists lp, In lp (map snd files) /\ upload_effect_of lp e = true)
    (traces (attempts config files net i)).
Proof.
  revert i; induction files as [|[f lp] rest IH]; intros i; [constructor|].
  cbn [attempts traces flat_map snd map]. apply Forall_app. split.
  - pose proof (uploadFile_effects config f lp None (net i)) as H.
    rewrite forallb_forall in H. apply Forall_forall. intros e He.
    exists lp. split; [left; reflexivity | apply H, He].
  - eapply Forall_impl; [| apply (IH (S i))].
    intros e [lp' [Hin He]]. exists lp'. split; [right; exact Hin | exact He].
Qed.

Lemma successes_override files net k i w file lp :
  nth_error files i = Some (file, lp) ->
  settled (S3UploadService.uploadFile config file lp None w)
  = settled (S3UploadService.uploadFile config file lp None (net (k + i)%nat)) ->
  successes (attempts config files (override net (k + i) w) k)
  = successes (attempts config files net k).
Proof.
  revert k i. induction files as [|[f lp'] rest IH]; intros k i Hnth Hsame.
  - destruct i; discriminate.
  - cbn [attempts successes flat_map snd]. destruct i as [|i].
    + cbn in Hnth. injection Hnth as -> ->.
      rewrite Nat.add_0_r in *. unfold override at 1. rewrite Nat.eqb_refl, Hsame.
      f_equal. clear. 
      assert (forall j, (k < j)%nat ->
                attempts config rest (override net k w) j = attempts config rest net j) as H.
      { induction rest as [|[f' l'] rest IH]; intros j Hj; [reflexivity|].
        cbn. unfold override at 1.
        destruct (Nat.eqb_spec j k) as [->|_]; [lia|].
        rewrite IH by lia. reflexivity. }
      rewrite H by lia. reflexivity.
    + cbn in Hnth. unfold override at 1.
      destruct (Nat.eqb_spec k (k + S i)) as [Heq|_]; [lia|].
      f_equal. replace (k + S i)%nat with (S k + i)%nat in * by lia.
      apply (IH (S k) i Hnth Hsame).
Qed.

Lemma successes_in files net k i file lp r :
  nth_error files i = Some (file, lp) ->
  settled (S3UploadService.uploadFile config file lp None (net (k + i)%nat)) = Resolved r ->
  In r (successes (attempts config files net k)).
Proof.
  revert k i. induction files as [|[f lp'] rest IH]; intros k i Hnth Hr.
  - destruct i; discriminate.
  - cbn [attempts successes flat_map snd]. apply in_or_app. destruct i as [|i].
    + cbn in Hnth. injection Hnth as -> ->. rewrite Nat.add_0_r in Hr.
      left. rewrite Hr. left. reflexivity.
    + right. cbn in Hnth. replace (k + S i)%nat with (S k + i)%nat in Hr by lia.
      apply (IH (S k) i Hnth Hr).
Qed.

End Batch.

(** C4.  When the direct PUT of the [i]-th file of a batch fails at the
    transport level and the relay accepts the upload, [uploadFile] resolves
    with the very record (same key, same remote URL, custom-domain rule
    included) that it resolves with when the direct PUT is answered by a
    2xx status, and the batch returns the same list of records, with that
    record in it. *)
Theorem relay_fallback_same_url
  (crypto : SubtleCrypto) (config : S3Config)
  (files : list (File * string)) (net : nat -> World) (i : nat)
  (file : File) (lp : string) (precomputedHash : option string)
  (status : Z) (body : string) :
  enabled config = true ->
  S3UploadService.validateConfig config = true ->
  nth_error files i = Some (file, lp) ->
  xhr (net i) = xhr_error ->
  (forall s3Key headers, exists url,
      settled (S3UploadService.uploadViaForwardProxy config file s3Key headers (net i))
      = Resolved url) ->
  200 <= status < 300 ->
  let direct := with_xhr (net i) (xhr_load status body) in
  (exists record,
      settled (S3UploadService.uploadFile config file lp precomputedHash (net i))
      = Resolved record
      /\ settled (S3UploadService.uploadFile config file lp precomputedHash direct)
         = Resolved record
      /\ s3Url record = remoteUrl config (s3Key record))
  /\ (exists record results,
         settled (S3UploadService.uploadFile config file lp None direct) = Resolved record
         /\ settled (S3UploadService.uploadFiles config files net) = Resolved results
         /\ settled (S3UploadService.uploadFiles config files (override net i direct))
            = Resolved results
         /\ In record results).
Proof.
  intros He Hv Hnth Hx Hrelay Hstatus direct.
  assert (H2xx : (200 <=? status) && (status <? 300) = true).
  { apply andb_true_iff. split; [apply Z.leb_le | apply Z.ltb_lt]; lia. }
  assert (Hfallback : forall pre,
             settled (S3UploadService.uploadFile config file lp pre (net i))
             = Resolved (recordOf config file lp pre (net i)
                           (remoteUrl config (objectKey config file pre (net i))))).
  { intros pre. rewrite (uploadFile_settled config file lp pre (net i) He Hv).
    destruct (performUpload_error config file (objectKey config file pre (net i))
                (net i) Hx) as [headers ->].
    destruct (Hrelay (objectKey config file pre (net i)) headers) as [url Hu].
    rewrite (relay_settled_uniform config file _ _ _ headers (net i) url Hu).
    reflexivity. }
  assert (Hdirect : forall pre,
             settled (S3UploadService.uploadFile config file lp pre direct)
             = Resolved (recordOf config file lp pre (net i)
                           (remoteUrl config (objectKey config file pre (net i))))).
  { intros pre. rewrite (uploadFile_settled config file lp pre direct He Hv).
    rewrite (performUpload_load config file _ direct status body eq_refl), H2xx.
    reflexivity. }
  split.
  - eexists. split; [apply Hfallback|]. split; [apply Hdirect | reflexivity].
  - eexists. eexists.
    split; [apply Hdirect|].
    rewrite !uploadFiles_spec. unfold settled. cbn [fst].
    split; [reflexivity|]. split.
    + f_equal. apply (successes_override config files net 0 i direct file lp Hnth).
      cbn [Nat.add]. rewrite Hdirect, Hfallback. reflexivity.
    + apply (successes_in config files net 0 i file lp _ Hnth).
      cbn [Nat.add]. apply Hfallback.
Qed.

(** C10.  A DELETE that fails at the transport level is rejected at once
    with the network error, after the single direct request; no delete
    operation ever sends a relay request, and every relay request of an
    upload batch is a PUT. *)
Theorem delete_never_relayed
  (crypto : SubtleCrypto) (config : S3Config) (s3Key : string) (w : World) :
  xhr w = xhr_error ->
  settled (S3UploadService.performDelete config s3Key w)
  = Rejected "网络错误，删除失败"
  /\ (exists headers,
         effects (S3UploadService.performDelete config s3Key w)
         = [XhrSend "DELETE" (objectUrl config s3Key) headers])
  /\ (forall w', existsb is_relay_effect
                   (effects (S3UploadService.deleteFile config s3Key w')) = false)
  /\ (forall s3Keys net,
         existsb is_relay_effect
           (effects (S3UploadService.deleteFiles config s3Keys net)) = false)
  /\ (forall files net,
         forallb is_put_relay
           (effects (S3UploadService.uploadFiles config files net)) = true).
Proof.
  intros Hx.
  assert (Hfile : forall k w', existsb is_relay_effect
                    (effects (S3UploadService.deleteFile config k w')) = false).
  { intros k w'. unfold S3UploadService.deleteFile.
    destruct (negb (enabled config)); [reflexivity|].
    destruct (negb (S3UploadService.validateConfig config)); [reflexivity|].
    rewrite effects_lift.
    destruct (performDelete_effects config k w') as [headers ->]. reflexivity. }
  split; [|split; [|split; [|split]]].
  - unfold S3UploadService.performDelete. rewrite Hx. apply settled_perform_then.
  - apply performDelete_effects.
  - apply Hfile.
  - intros s3Keys net. unfold S3UploadService.deleteFiles.
    assert (Hloop : forall keys i success failed trace,
               existsb is_relay_effect trace = false ->
               existsb is_relay_effect
                 (effects (S3UploadService.deleteFiles_loop config keys net i
                             success failed trace)) = false).
    { induction keys as [|k rest IH]; intros i success failed trace Ht; [exact Ht|].
      cbn [S3UploadService.deleteFiles_loop].
      pose proof (Hfile k (net i)) as Hk. unfold effects in Hk.
      destruct (S3UploadService.deleteFile config k (net i)) as [[u|m|] t];
        cbn [snd] in Hk.
      - apply IH. rewrite existsb_app, Ht, Hk. reflexivity.
      - apply IH. rewrite existsb_app, Ht, Hk. reflexivity.
      - unfold effects. cbn [snd]. rewrite existsb_app, Ht, Hk. reflexivity. }
    apply Hloop. reflexivity.
  - intros files net. rewrite uploadFiles_spec. unfold effects. cbn [snd].
    rewrite forallb_app. apply andb_true_iff. split.
    + apply forallb_forall. intros e He.
      pose proof (traces_upload_effects config files net 0) as Hall.
      rewrite Forall_forall in Hall. destruct (Hall e He) as [lp' [_ Hup]].
      destruct e as [subject r|text]; [|reflexivity].
      destruct r as [m u h|u m h p|a]; try reflexivity.
      cbn in Hup. apply andb_true_iff in Hup as [_ Hm]. exact Hm.
    + destruct (failures _); reflexivity.
Qed.

(** C5 (as the code has it).  Every file of a batch is attempted, in order
    and in its own world, whatever happened to the files before it; the
    batch always resolves, with the records of the successful attempts, in
    order; the messages of the failed attempts, each prefixed by its local
    path, are gathered into one notification shown to the user after the
    last file, and are not part of the returned value. *)
Theorem uploadFiles_partial_failure
  (crypto : SubtleCrypto) (config : S3Config)
  (files : list (File * string)) (net : nat -> World) :
  let each := attempts config files net 0 in
  List.length each = List.length files
  /\ settled (S3UploadService.uploadFiles config files net) = Resolved (successes each)
  /\ effects (S3UploadService.uploadFiles config files net)
     = (traces each ++ notification (failures each))%list
  /\ (List.length (successes each) + List.length (failures each)
      = List.length files)%nat.
Proof.
  intros each. subst each. rewrite uploadFiles_spec.
  split; [apply attempts_length|]. split; [reflexivity|]. split; [reflexivity|].
  apply successes_failures_length.
Qed.

(** ** Signers *)

Lemma append_assoc (a b c : string) : (a ++ b) ++ c = a ++ (b ++ c).
Proof. induction a as [|x a IH]; cbn; [reflexivity | rewrite IH; reflexivity]. Qed.

Lemma append_nil_r (a : string) : a ++ "" = a.
Proof. induction a as [|x a IH]; cbn; [reflexivity | rewrite IH; reflexivity]. Qed.


(** Both sides are concatenations of the same pieces. *)
Ltac same_text := rewrite ?append_assoc; cbn [append]; rewrite ?append_nil_r; reflexivity.

Section Signer.

Context {crypto : SubtleCrypto}.
Variable config : S3Config.

(** The current revision signs the host: the canonical block holds the
    [host], [x-amz-content-sha256] and [x-amz-date] lines in strictly
    ascending order, and the [Authorization] header names the three. *)
Lemma generateSignedHeaders_signs_host method key contentType contentLength d :
  S3UploadService.canonicalHeaders config (S3UploadService.formatAmzDate d)
  = header_block (signed_entries config d)
  /\ strictly_ascending (map fst (signed_entries config d)) = true
  /\ S3UploadService.signedHeaders = JS.join ";" (map fst (signed_entries config d))
  /\ S3UploadService.signedHeaders = "host;x-amz-content-sha256;x-amz-date"
  /\ S3UploadService.lookup "Authorization"
       (S3UploadService.generateSignedHeaders config method key contentType
          contentLength d)
     = Some ("AWS4-HMAC-SHA256 Credential=" ++ accessKeyId config ++ "/"
             ++ S3UploadService.credentialScope config (S3UploadService.formatDateStamp d)
             ++ ", SignedHeaders=host;x-amz-content-sha256;x-amz-date, Signature="
             ++ S3UploadService.signature config method key d).
Proof.
  split; [|split; [|split; [|split]]]; try reflexivity.
  unfold S3UploadService.canonicalHeaders, header_block, signed_entries,
    S3UploadService.host, S3UploadService.payloadHash.
  cbn [map String.concat fst snd]. same_text.
Qed.

End Signer.

(** ** The dedup index *)

Module IndexFacts.

Import AssetRecordManager.
Import Index.

Lemma index_ok_properties st :
  index_ok st -> one_mapping_per_doc st /\ no_empty_mapping st.
Proof.
  unfold index_ok, one_mapping_per_doc, no_empty_mapping, getAllMappings, Map_values.
  intros [Hnd Hok]. split.
  - replace (map docId (map snd (mappings st))) with (map fst (mappings st)); [exact Hnd|].
    induction Hok as [|[k v] m [Hk _] _ IH]; [reflexivity|].
    cbn in *. rewrite IH by (inversion Hnd; assumption). rewrite Hk. reflexivity.
  - induction Hok as [|[k v] m [_ Ha] _ IH]; cbn; constructor; auto.
    apply IH. inversion Hnd; assumption.
Qed.

Lemma Map_get_in k m v : Map_get k m = Some v -> In (k, v) m.
Proof.
  induction m as [|[k' v'] m IH]; cbn; [discriminate|].
  destruct (String.eqb_spec k' k) as [->|_].
  - intros [= ->]. left. reflexivity.
  - intros H. right. apply IH, H.
Qed.

Lemma Map_set_keys k v m :
  forall k', In k' (map fst (Map_set k v m)) <-> k' = k \/ In k' (map fst m).
Proof.
  induction m as [|[k0 v0] m IH]; intros k'; cbn.
  - intuition.
  - destruct (String.eqb_spec k0 k) as [->|Hne]; cbn.
    + intuition.
    + rewrite IH. intuition.
Qed.

Lemma Map_set_ok k v m :
  NoDup (map fst m) -> Forall entry_ok m -> entry_ok (k, v) ->
  NoDup (map fst (Map_set k v m)) /\ Forall entry_ok (Map_set k v m).
Proof.
  intros Hnd Hok Hv. induction m as [|[k0 v0] m IH]; cbn.
  - split; [repeat constructor; intros [] | constructor; [exact Hv | constructor]].
  - inversion Hnd as [|? ? Hnotin Hnd']; subst. inversion Hok as [|? ? H0 Hok']; subst.
    destruct (String.eqb_spec k0 k) as [->|Hne]; cbn.
    + split; constructor; auto.
    + destruct (IH Hnd' Hok') as [IH1 IH2]. split; constructor; auto.
      rewrite Map_set_keys. intros [->|Hin]; [congruence | exact (Hnotin Hin)].
Qed.

Lemma thinned_refl m : thinned m m.
Proof. induction m as [|[k v] m IH]; constructor; exact IH. Qed.

Lemma thinned_keys m m' : thinned m m' -> forall k, In k (map fst m') -> In k (map fst m).
Proof.
  induction 1 as [|kv m m' _ IH|k v v' m m' _ IH]; intros k0; cbn; [tauto | |].
  - intros Hin. right. apply IH, Hin.
  - intros [->|Hin]; [left; reflexivity | right; apply IH, Hin].
Qed.

Lemma thinned_NoDup m m' : thinned m m' -> NoDup (map fst m) -> NoDup (map fst m').
Proof.
  induction 1 as [|kv m m' Hm IH|k v v' m m' Hm IH]; cbn; intros Hnd.
  - constructor.
  - inversion Hnd; auto.
  - inversion Hnd as [|? ? Hnotin Hnd']; subst. constructor; auto.
    intros Hin. apply Hnotin. eapply thinned_keys; eauto.
Qed.

Lemma Map_delete_thinned k m : thinned m (Map_delete k m).
Proof.
  induction m as [|[k0 v0] m IH]; cbn; [constructor|].
  destruct (String.eqb k0 k); [constructor; apply thinned_refl | constructor; exact IH].
Qed.

Lemma Map_delete_ok k m : Forall entry_ok m -> Forall entry_ok (Map_delete k m).
Proof.
  induction 1 as [|[k0 v0] m H0 Hok IH]; cbn; [constructor|].
  destruct (String.eqb k0 k); [exact Hok | constructor; auto].
Qed.

Lemma removeMappingByShareId_loop_thinned s m :
  thinned m (removeMappingByShareId_loop s m).
Proof.
  induction m as [|[k0 v0] m IH]; cbn; [constructor|].
  destruct (String.eqb (shareId v0) s); constructor; exact IH.
Qed.

Lemma removeMappingByShareId_loop_ok s m :
  Forall entry_ok m -> Forall entry_ok (removeMappingByShareId_loop s m).
Proof.
  induction 1 as [|[k0 v0] m H0 Hok IH]; cbn; [constructor|].
  destruct (String.eqb (shareId v0) s); [exact IH | constructor; auto].
Qed.

Lemma filter_length_le {A} (f : A -> bool) l :
  (List.length (filter f l) <= List.length l)%nat.
Proof. induction l as [|a l IH]; cbn; [lia|]. destruct (f a); cbn; lia. Qed.

Lemma length_zero_false {A} (l : list A) : Nat.eqb (List.length l) 0 = false -> l <> [].
Proof. destruct l; [discriminate | discriminate]. Qed.

Lemma removeAssets_loop_thinned ks now m n :
  thinned m (fst (removeAssets_loop ks now m n)).
Proof.
  revert n; induction m as [|[k0 v0] m IH]; intros n;
    cbn [removeAssets_loop with_assets with_updatedAt assets fst]; [constructor|].
  match goal with |- context [if Nat.ltb ?a ?b then _ else _] => destruct (Nat.ltb a b) end.
  - match goal with |- context [removeAssets_loop ks now m ?n'] =>
      specialize (IH n'); destruct (removeAssets_loop ks now m n') as [rest' c] end.
    match goal with |- context [if Nat.eqb ?a 0 then _ else _] => destruct (Nat.eqb a 0) end;
      constructor; exact IH.
  - specialize (IH n). destruct (removeAssets_loop ks now m n) as [rest' c].
    constructor; exact IH.
Qed.

Lemma removeAssets_loop_ok ks now m n :
  Forall entry_ok m -> Forall entry_ok (fst (removeAssets_loop ks now m n)).
Proof.
  intros Hok. revert n. induction Hok as [|[k0 v0] m [Hk Ha] Hok IH]; intros n;
    cbn [removeAssets_loop with_assets with_updatedAt assets fst]; [constructor|].
  cbn in Hk, Ha.
  pose proof (filter_length_le (fun a => negb (Set_has ks (s3Key a))) (assets v0)) as Hle.
  destruct (Nat.ltb_spec (List.length (filter (fun a => negb (Set_has ks (s3Key a)))
                                         (assets v0)))
              (List.length (assets v0))) as [Hlt|Hge].
  - match goal with |- context [removeAssets_loop ks now m ?n'] =>
      specialize (IH n'); destruct (removeAssets_loop ks now m n') as [rest' c] end.
    match goal with |- context [if Nat.eqb ?a 0 then _ else _] =>
      destruct (Nat.eqb a 0) eqn:Hz end; [exact IH|].
    constructor; [|exact IH]. split; [exact Hk|].
    apply length_zero_false, Hz.
  - specialize (IH n). destruct (removeAssets_loop ks now m n) as [rest' c].
    constructor; [|exact IH]. split; [exact Hk|]. cbn.
    intros Hnil. rewrite Hnil in Hge. cbn in Hge.
    destruct (assets v0); [congruence | cbn in Hge; lia].
Qed.

Lemma removeAssets_ok ks now st : index_ok st -> index_ok (fst (removeAssets ks now st)).
Proof.
  intros [Hnd Hok]. unfold removeAssets.
  pose proof (removeAssets_loop_thinned ks now (mappings st) 0) as Hthin.
  pose proof (removeAssets_loop_ok ks now (mappings st) 0 Hok) as Hok'.
  destruct (removeAssets_loop ks now (mappings st) 0) as [m c]. cbn [fst] in *.
  destruct (0 <? c); cbn; (split; [eapply thinned_NoDup; eauto | exact Hok']).
Qed.

Lemma removeAssetFromDoc_ok d k now st :
  index_ok st -> index_ok (fst (removeAssetFromDoc d k now st)).
Proof.
  intros [Hnd Hok]. unfold removeAssetFromDoc.
  destruct (Map_get d (mappings st)) as [mapping|] eqn:Hget; [|split; assumption].
  pose proof (Map_get_in _ _ _ Hget) as Hin.
  rewrite Forall_forall in Hok. destruct (Hok _ Hin) as [Hk Ha]. cbn in Hk, Ha.
  rewrite <- Forall_forall in Hok.
  set (kept := filter (fun a => negb (String.eqb (s3Key a) k)) (assets mapping)).
  cbn [with_assets with_updatedAt assets].
  destruct (Nat.eqb_spec (List.length kept) (List.length (assets mapping))) as [Heq|Hne];
    cbn [fst].
  - apply Map_set_ok; auto. split; [exact Hk|]. cbn.
    intros Hnil. fold kept in Hnil. rewrite Hnil in Heq.
    destruct (assets mapping); [congruence | discriminate].
  - destruct (Nat.eqb (List.length kept) 0) eqn:Hz.
    + assert (Hkept : kept = []) by (destruct kept; [reflexivity | discriminate]).
      unfold index_ok, save. cbn [mappings].
      set (m1 := Map_set d _ (Map_set d _ (mappings st))).
      split.
      * eapply thinned_NoDup; [apply Map_delete_thinned|].
        subst m1. 
        assert (H1 : forall v v', NoDup (map fst (Map_set d v (Map_set d v' (mappings st))))).
        { intros v v'.
          assert (Hs : forall (m : Entries) w, NoDup (map fst m) ->
                         NoDup (map fst (Map_set d w m))).
          { clear. induction m as [|[k0 v0] m IH]; intros w Hnd; cbn.
            - repeat constructor. intros [].
            - inversion Hnd as [|? ? Hnotin Hnd']; subst.
              destruct (String.eqb_spec k0 d) as [->|Hne]; cbn.
              + constructor; auto.
              + constructor; auto. rewrite Map_set_keys.
                intros [->|Hin]; [congruence | exact (Hnotin Hin)]. }
          apply Hs, Hs, Hnd. }
        apply H1.
      * subst m1.
        assert (Hdel : forall (m : Entries) w w',
                   Forall entry_ok m ->
                   Forall entry_ok (Map_delete d (Map_set d w (Map_set d w' m)))).
        { clear. induction m as [|[k0 v0] m IH]; intros w w' Hok; cbn.
          - rewrite String.eqb_refl. cbn. rewrite String.eqb_refl. constructor.
          - inversion Hok as [|? ? H0 Hok']; subst.
            destruct (String.eqb_spec k0 d) as [->|Hne]; cbn.
            + rewrite String.eqb_refl. cbn. rewrite String.eqb_refl. exact Hok'.
            + destruct (String.eqb_spec k0 d) as [Heq|_]; [congruence|]. cbn.
              destruct (String.eqb_spec k0 d) as [Heq|_]; [congruence|].
              constructor; auto. }
        apply Hdel, Hok.
    + unfold index_ok, save. cbn [mappings].
      assert (Hentry : forall now', entry_ok
                (d, {| docId := docId mapping; shareId := shareId mapping;
                       assets := kept; createdAt := createdAt mapping;
                       updatedAt := now' |})).
      { intros now'. split; [exact Hk | cbn; apply length_zero_false, Hz]. }
      destruct (Map_set_ok d _ (mappings st) Hnd Hok (Hentry (updatedAt mapping)))
        as [Hnd1 Hok1].
      apply (Map_set_ok d _ _ Hnd1 Hok1 (Hentry now)).
Qed.

Lemma addOrUpdateMapping_ok d s a now st :
  a <> [] -> index_ok st -> index_ok (addOrUpdateMapping d s a now st).
Proof.
  intros Ha [Hnd Hok]. unfold addOrUpdateMapping.
  destruct (Map_get d (mappings st)) as [existing|] eqn:Hget.
  - pose proof (Map_get_in _ _ _ Hget) as Hin.
    rewrite Forall_forall in Hok. destruct (Hok _ Hin) as [Hk _]. cbn in Hk.
    rewrite <- Forall_forall in Hok.
    unfold index_ok, save. cbn [mappings]. apply Map_set_ok; auto.
    split; [exact Hk | exact Ha].
  - unfold index_ok, save. cbn [mappings]. apply Map_set_ok; auto.
    split; [reflexivity | exact Ha].
Qed.

Lemma step_ok st call : index_ok st -> nonempty_update call -> index_ok (step st call).
Proof.
  intros Hst Hcall. destruct call as [op now]. unfold step, nonempty_update in *.
  cbn [fst snd] in *. destruct op as [d s a|d s a|d k|ks|f|d|s].
  - unfold ShareService.createShare_saveMapping.
    destruct a as [|a0 a]; [exact Hst|].
    apply addOrUpdateMapping_ok; [discriminate | exact Hst].
  - apply addOrUpdateMapping_ok; assumption.
  - apply removeAssetFromDoc_ok; assumption.
  - apply removeAssets_ok; assumption.
  - unfold removeAssetsByFilter.
    match goal with |- context [if Nat.ltb ?a ?b then _ else _] => destruct (Nat.ltb a b) end;
      cbn [fst]; [apply removeAssets_ok|]; assumption.
  - destruct Hst as [Hnd Hok]. unfold removeMapping, index_ok, save. cbn [mappings].
    split; [eapply thinned_NoDup; [apply Map_delete_thinned | exact Hnd]
           | apply Map_delete_ok, Hok].
  - destruct Hst as [Hnd Hok]. unfold removeMappingByShareId, index_ok, save.
    cbn [mappings].
    split; [eapply thinned_NoDup; [apply removeMappingByShareId_loop_thinned | exact Hnd]
           | apply removeMappingByShareId_loop_ok, Hok].
Qed.

Lemma init_ok : index_ok init.
Proof. split; constructor. Qed.

End IndexFacts.

(** C3 (as the code has it).  Starting from an index in which the keys are
    distinct, every mapping is entered under its own document id and none
    is empty (the index of a fresh manager is one), after every sequence of
    operations in which [addOrUpdateMapping] is called with a non-empty
    asset list, or through the guarded call of [createShare], the index
    holds at most one mapping per document id and no mapping whose asset
    collection is empty. *)
Theorem index_invariant
  (calls : list (Index.Op * Z)) (st : AssetRecordManager.State) :
  Index.index_ok st ->
  Forall Index.nonempty_update calls ->
  Index.index_ok (Index.run calls st)
  /\ Index.one_mapping_per_doc (Index.run calls st)
  /\ Index.no_empty_mapping (Index.run calls st).
Proof.
  intros Hst Hcalls.
  assert (H : Index.index_ok (Index.run calls st)).
  { revert st Hst. induction Hcalls as [|call calls Hcall _ IH]; intros st Hst.
    - exact Hst.
    - cbn. apply IH, IndexFacts.step_ok; assumption. }
  split; [exact H | apply IndexFacts.index_ok_properties, H].
Qed.

(** ** Lookups in the dedup index *)

Section Lookup.

Import AssetRecordManager.

Lemma find_app {A} (f : A -> bool) l1 l2 :
  find f (l1 ++ l2)%list
  = match find f l1 with Some a => Some a | None => find f l2 end.
Proof. induction l1 as [|a l1 IH]; cbn; [reflexivity|]. destruct (f a); auto. Qed.

Lemma find_in_mappings_find pred ms :
  find_in_mappings pred ms = find pred (flat_map assets ms).
Proof.
  induction ms as [|mapping rest IH]; cbn; [reflexivity|].
  rewrite find_app, IH. reflexivity.
Qed.

Lemma findAssetByLocalPath_found p st a :
  findAssetByLocalPath p st = Some a -> In a (recorded st) /\ localPath a = p.
Proof.
  unfold findAssetByLocalPath. rewrite find_in_mappings_find. intros H.
  apply find_some in H as [Hin Heq]. split; [exact Hin | apply String.eqb_eq, Heq].
Qed.

Lemma findAssetByLocalPath_recorded p st a0 :
  In a0 (recorded st) -> localPath a0 = p ->
  exists a, findAssetByLocalPath p st = Some a.
Proof.
  intros Hin Hp. unfold findAssetByLocalPath. rewrite find_in_mappings_find.
  destruct (find _ (flat_map assets (Map_values (mappings st)))) as [a|] eqn:Hf.
  - exists a. reflexivity.
  - exfalso. pose proof (find_none _ _ Hf a0 Hin) as Hn. cbn in Hn.
    apply String.eqb_neq in Hn. exact (Hn Hp).
Qed.

End Lookup.

(** C2 (as the code has it).  [findAssetByHash] matches on the fingerprint
    alone: it returns the first recorded asset, mappings in insertion order,
    whose hash is the queried one, whatever its size; it returns nothing
    exactly when no recorded asset has that hash. *)
Theorem findAssetByHash_first_with_hash
  (hash_ : string) (st : AssetRecordManager.State) :
  AssetRecordManager.findAssetByHash hash_ st
  = find (fun a => String.eqb (hash a) hash_) (recorded st)
  /\ (forall a, AssetRecordManager.findAssetByHash hash_ st = Some a ->
                In a (recorded st) /\ hash a = hash_)
  /\ (forall a, In a (recorded st) -> hash a = hash_ ->
                exists a', AssetRecordManager.findAssetByHash hash_ st = Some a'
                           /\ hash a' = hash_)
  /\ (AssetRecordManager.findAssetByHash hash_ st = None <->
      forall a, In a (recorded st) -> hash a <> hash_).
Proof.
  assert (Hfind : AssetRecordManager.findAssetByHash hash_ st
                  = find (fun a => String.eqb (hash a) hash_) (recorded st)).
  { unfold AssetRecordManager.findAssetByHash. apply find_in_mappings_find. }
  rewrite Hfind. split; [reflexivity|]. split; [|split].
  - intros a H. apply find_some in H as [Hin Heq].
    split; [exact Hin | apply String.eqb_eq, Heq].
  - intros a Hin Hh.
    destruct (find (fun a0 => String.eqb (hash a0) hash_) (recorded st)) as [a'|] eqn:Hf.
    + exists a'. split; [reflexivity|]. apply find_some in Hf as [_ Heq].
      apply String.eqb_eq, Heq.
    + exfalso. pose proof (find_none _ _ Hf a Hin) as Hn. cbn in Hn.
      apply String.eqb_neq in Hn. exact (Hn Hh).
  - split.
    + intros Hf a Hin Hh. pose proof (find_none _ _ Hf a Hin) as Hn. cbn in Hn.
      apply String.eqb_neq in Hn. exact (Hn Hh).
    + intros Hall.
      destruct (find (fun a0 => String.eqb (hash a0) hash_) (recorded st)) as [a'|] eqn:Hf;
        [|reflexivity].
      apply find_some in Hf as [Hin Heq]. apply String.eqb_eq in Heq.
      exfalso. exact (Hall a' Hin Heq).
Qed.

(** ** The asset pipeline *)

Section Pipeline.

Context {crypto : SubtleCrypto}.
Variable config_s3 : S3Config.
Variable scan : string -> list string.
Variable replaceOne : string -> AssetUploadRecord -> string.
Variable index : AssetRecordManager.State.
Variable web : ShareService.Web.

Lemma fetchAssetFile_effects assetPath :
  forallb (concerns assetPath) (effects (ShareService.fetchAssetFile assetPath web)) = true.
Proof.
  unfold ShareService.fetchAssetFile. rewrite effects_perform_then.
  cbn [forallb concerns]. rewrite String.eqb_refl.
  destruct (web _) as [[blob ty]|]; reflexivity.
Qed.

(** The first loop: a path with a record adds that record, and neither a
    fetch nor a file to upload; the other paths are the only subjects. *)
Lemma collect_spec p a assetPaths :
  AssetRecordManager.findAssetByLocalPath p index = Some a ->
  forall existing files trace,
    existsb (concerns p) trace = false ->
    existsb (String.eqb p) (map snd files) = false ->
    let '(existing', files', trace') :=
      ShareService.collect index web assetPaths existing files trace in
    existsb (concerns p) trace' = false
    /\ existsb (String.eqb p) (map snd files') = false
    /\ (In a existing \/ In p assetPaths -> In a existing').
Proof.
  intros Hp. induction assetPaths as [|q rest IH]; intros existing files trace Ht Hf.
  - cbn. split; [exact Ht|]. split; [exact Hf|]. intros [H|[]]; exact H.
  - cbn [ShareService.collect].
    destruct (AssetRecordManager.findAssetByLocalPath q index) as [b|] eqn:Hq.
    + specialize (IH (existing ++ [b])%list files trace Ht Hf).
      destruct (ShareService.collect index web rest (existing ++ [b])%list files trace)
        as [[existing' files'] trace'].
      destruct IH as [IH1 [IH2 IH3]]. split; [exact IH1|]. split; [exact IH2|].
      intros [Hin|[->|Hin]]; apply IH3.
      * left. apply in_or_app. left. exact Hin.
      * left. apply in_or_app. right. left. congruence.
      * right. exact Hin.
    + assert (Hne : String.eqb p q = false).
      { apply String.eqb_neq. intros ->. congruence. }
      pose proof (fetchAssetFile_effects q) as Hfetch.
      assert (Ht' : existsb (concerns p)
                      (trace ++ effects (ShareService.fetchAssetFile q web))%list = false).
      { rewrite existsb_app, Ht. cbn [orb].
        induction (effects (ShareService.fetchAssetFile q web)) as [|e t IHt];
          [reflexivity|].
        cbn in Hfetch |- *. apply andb_true_iff in Hfetch as [He Hrest].
        rewrite (IHt Hrest), orb_false_r.
        destruct e as [subject r|text]; [|reflexivity]. cbn in *.
        apply String.eqb_eq in He. subst subject.
        rewrite String.eqb_sym. exact Hne. }
      unfold effects in Ht'.
      destruct (ShareService.fetchAssetFile q web) as [[[file|]|m|] t]; cbn [snd] in Ht'.
      * assert (Hf' : existsb (String.eqb p) (map snd (files ++ [(file, q)])%list) = false).
        { rewrite map_app, existsb_app, Hf. cbn. rewrite Hne. reflexivity. }
        specialize (IH existing (files ++ [(file, q)])%list (trace ++ t)%list Ht' Hf').
        destruct (ShareService.collect index web rest existing
                    (files ++ [(file, q)])%list (trace ++ t)%list)
          as [[existing' files'] trace'].
        destruct IH as [IH1 [IH2 IH3]]. split; [exact IH1|]. split; [exact IH2|].
        intros [Hin|[->|Hin]]; [apply IH3; left; exact Hin | congruence
                                | apply IH3; right; exact Hin].
      * specialize (IH existing files (trace ++ t)%list Ht' Hf).
        destruct (ShareService.collect index web rest existing files (trace ++ t)%list)
          as [[existing' files'] trace'].
        destruct IH as [IH1 [IH2 IH3]]. split; [exact IH1|]. split; [exact IH2|].
        intros [Hin|[->|Hin]]; [apply IH3; left; exact Hin | congruence
                                | apply IH3; right; exact Hin].
      * specialize (IH existing files (trace ++ t)%list Ht' Hf).
        destruct (ShareService.collect index web rest existing files (trace ++ t)%list)
          as [[existing' files'] trace'].
        destruct IH as [IH1 [IH2 IH3]]. split; [exact IH1|]. split; [exact IH2|].
        intros [Hin|[->|Hin]]; [apply IH3; left; exact Hin | congruence
                                | apply IH3; right; exact Hin].
      * specialize (IH existing files (trace ++ t)%list Ht' Hf).
        destruct (ShareService.collect index web rest existing files (trace ++ t)%list)
          as [[existing' files'] trace'].
        destruct IH as [IH1 [IH2 IH3]]. split; [exact IH1|]. split; [exact IH2|].
        intros [Hin|[->|Hin]]; [apply IH3; left; exact Hin | congruence
                                | apply IH3; right; exact Hin].
Qed.

Lemma uploadFiles_not_concerned p files net :
  existsb (String.eqb p) (map snd files) = false ->
  existsb (concerns p) (effects (S3UploadService.uploadFiles config_s3 files net)) = false.
Proof.
  intros Hp. rewrite uploadFiles_spec. unfold effects. cbn [snd].
  rewrite existsb_app.
  assert (Hn : existsb (concerns p) (notification (failures (attempts config_s3 files net 0)))
               = false) by (destruct (failures _); reflexivity).
  rewrite Hn, orb_false_r.
  destruct (existsb (concerns p) (traces (attempts config_s3 files net 0))) eqn:Hex;
    [|reflexivity].
  apply existsb_exists in Hex as [e [He Hc]].
  pose proof (traces_upload_effects config_s3 files net 0) as Hall.
  rewrite Forall_forall in Hall. destruct (Hall e He) as [lp [Hin Hup]].
  destruct e as [subject r|text]; [|discriminate]. cbn in Hc, Hup.
  apply andb_true_iff in Hup as [Hs _].
  apply String.eqb_eq in Hc, Hs. subst.
  assert (Hyes : existsb (String.eqb lp) (map snd files) = true).
  { apply existsb_exists. exists lp. split; [exact Hin | apply String.eqb_refl]. }
  congruence.
Qed.

End Pipeline.

(** C6.  When a document references a local path that has a record in the
    dedup index, [processAndUploadAssets] resolves, the returned asset list
    holds the record that the index finds for that path (the first one, as
    it is stored, [s3Url] included), and no network request at all - neither
    a fetch of the file nor a direct or relayed upload - is sent on behalf
    of that path. *)
Theorem recorded_path_not_uploaded
  (crypto : SubtleCrypto) (config_s3 : S3Config)
  (scan : string -> list string) (replaceOne : string -> AssetUploadRecord -> string)
  (content docId_ : string) (index : AssetRecordManager.State)
  (web : ShareService.Web) (net : nat -> World)
  (p : string) (a0 : AssetUploadRecord) :
  In p (ShareService.extractAssetPaths scan content) ->
  In a0 (recorded index) ->
  localPath a0 = p ->
  let run :=
    ShareService.processAndUploadAssets config_s3 scan replaceOne content docId_
      index web net in
  (exists a processed assets_,
      AssetRecordManager.findAssetByLocalPath p index = Some a
      /\ In a (recorded index) /\ localPath a = p
      /\ settled run = Resolved (processed, assets_)
      /\ In a assets_
      /\ In (s3Url a) (map s3Url assets_))
  /\ existsb (concerns p) (effects run) = false.
Proof.
  intros Hin Hrecorded Hpath run. subst run.
  destruct (findAssetByLocalPath_recorded p index a0 Hrecorded Hpath) as [a Hfound].
  unfold ShareService.processAndUploadAssets.
  destruct (ShareService.extractAssetPaths scan content) as [|q rest] eqn:Hpaths;
    [destruct Hin|].
  cbn [List.length Nat.eqb].
  pose proof (collect_spec index web p a (q :: rest) Hfound [] [] [] eq_refl eq_refl) as Hc.
  destruct (ShareService.collect index web (q :: rest) [] [] [])
    as [[existing files] trace].
  destruct Hc as [Htrace [Hfiles Hexisting]].
  specialize (Hexisting (or_intror Hin)).
  destruct (findAssetByLocalPath_found p index a Hfound) as [Hrec Hlp].
  destruct (0 <? List.length files)%nat.
  - pose proof (uploadFiles_not_concerned config_s3 p files net Hfiles) as Hup.
    rewrite uploadFiles_spec in *. unfold effects in Hup. cbn [snd] in Hup.
    cbn. split.
    + exists a. eexists. eexists. repeat split; try eassumption; try reflexivity.
      * apply in_or_app. left. exact Hexisting.
      * apply in_map, in_or_app. left. exact Hexisting.
    + rewrite !app_nil_r. rewrite existsb_app, Htrace, Hup. reflexivity.
  - cbn. split.
    + exists a. eexists. eexists. repeat split; try eassumption; try reflexivity.
      apply in_map. exact Hexisting.
    + rewrite !app_nil_r. exact Htrace.
Qed.

(** ** The two signing protocols *)

Lemma btoa_length_upto n bs :
  (List.length bs <= n)%nat ->
  String.length (JS.btoa bs) = (4 * ((List.length bs + 2) / 3))%nat.
Proof.
  revert bs. induction n as [n IH] using lt_wf_ind. intros bs Hn.
  destruct bs as [|a [|b [|c rest]]]; try reflexivity.
  cbn [JS.btoa String.length List.length].
  rewrite (IH (List.length rest)) by (cbn in Hn; lia || lia).
  replace (S (S (S (List.length rest))) + 2)%nat with (1 * 3 + (List.length rest + 2))%nat
    by lia.
  rewrite Nat.div_add_l by lia. lia.
Qed.

Lemma btoa_length bs :
  String.length (JS.btoa bs) = (4 * ((List.length bs + 2) / 3))%nat.
Proof. apply (btoa_length_upto (List.length bs)). lia. Qed.

Lemma one_line_append a b : one_line (a ++ b) = one_line a && one_line b.
Proof.
  induction a as [|x a IH]; cbn; [reflexivity|]. rewrite IH, andb_assoc. reflexivity.
Qed.

Lemma split_loop_last s cur :
  one_line s = true -> JS.split_loop (ascii_of_N 10) s cur = [cur ++ s].
Proof.
  revert cur. induction s as [|x s IH]; intros cur H; cbn in *.
  - rewrite append_nil_r. reflexivity.
  - apply andb_true_iff in H as [Hx Hs]. apply negb_true_iff in Hx. rewrite Hx.
    rewrite (IH _ Hs), append_assoc. reflexivity.
Qed.

Lemma split_loop_field s rest cur :
  one_line s = true ->
  JS.split_loop (ascii_of_N 10) (s ++ LF ++ rest) cur
  = (cur ++ s) :: JS.split_loop (ascii_of_N 10) rest "".
Proof.
  revert cur. induction s as [|x s IH]; intros cur H; cbn in *.
  - rewrite append_nil_r. reflexivity.
  - apply andb_true_iff in H as [Hx Hs]. apply negb_true_iff in Hx. rewrite Hx.
    rewrite (IH _ Hs), append_assoc. reflexivity.
Qed.

Lemma matches_app cs1 cs2 s1 s2 :
  matches cs1 s1 = true -> matches cs2 s2 = true ->
  matches (cs1 ++ cs2) (s1 ++ s2) = true.
Proof.
  revert s1. induction cs1 as [|c cs1 IH]; intros [|a s1] H1 H2; cbn in *;
    try discriminate; [exact H2|].
  apply andb_true_iff in H1 as [-> H1]. apply (IH _ H1 H2).
Qed.

(** A check that holds of the first [count] naturals holds below
    [count]. *)
Lemma check_from_spec (P : Z -> bool) (count : nat) (z0 : Z) :
  check_from P count z0 = true ->
  forall z, z0 <= z < z0 + Z.of_nat count -> P z = true.
Proof.
  revert z0. induction count as [|k IH]; intros z0 Hall z Hz; [lia|].
  cbn [check_from] in Hall. apply andb_true_iff in Hall as [H0 Hrest].
  destruct (Z.eq_dec z z0) as [->|Hne]; [exact H0|].
  apply (IH (z0 + 1) Hrest). lia.
Qed.

Lemma holds_below (P : Z -> bool) (count : N) :
  check_from P (N.to_nat count) 0 = true ->
  forall z, 0 <= z < Z.of_N count -> P z = true.
Proof.
  intros Hall z Hz. apply (check_from_spec P (N.to_nat count) 0 Hall).
  rewrite N_nat_Z. lia.
Qed.

Lemma zero_padded_2_digits n :
  0 <= n < 100 -> matches (digits 2) (zero_padded 2 n) = true.
Proof.
  apply (holds_below (fun n => matches (digits 2) (zero_padded 2 n)) 100).
  vm_compute. reflexivity.
Qed.

Lemma zero_padded_4_digits n :
  0 <= n < 10000 -> matches (digits 4) (zero_padded 4 n) = true.
Proof.
  apply (holds_below (fun n => matches (digits 4) (zero_padded 4 n)) 10000).
  vm_compute. reflexivity.
Qed.

Lemma dayNames_name3 n :
  0 <= n < 7 -> matches name3 (nth (Z.to_nat n) dayNames "") = true.
Proof.
  apply (holds_below (fun n => matches name3 (nth (Z.to_nat n) dayNames "")) 7).
  vm_compute. reflexivity.
Qed.

Lemma monthNames_name3 n :
  0 <= n < 12 -> matches name3 (nth (Z.to_nat n) monthNames "") = true.
Proof.
  apply (holds_below (fun n => matches name3 (nth (Z.to_nat n) monthNames "")) 12).
  vm_compute. reflexivity.
Qed.

(** The date string of a valid date has the RFC 1123 shape. *)
Lemma toUTCString_rfc1123 d : valid_date d -> is_rfc1123_date (toUTCString d) = true.
Proof.
  intros (Hy & Hmo & Hd & Hwd & Hh & Hmi & Hs).
  unfold is_rfc1123_date, rfc1123_shape, toUTCString.
  assert (Hyear : (getUTCFullYear d <? 0) = false) by (apply Z.ltb_ge; lia).
  rewrite Hyear, Z.abs_eq by lia. change ("" ++ ?x) with x.
  repeat (apply matches_app;
          [first [ apply dayNames_name3; lia | apply monthNames_name3; lia
                 | apply zero_padded_2_digits; lia | apply zero_padded_4_digits; lia
                 | reflexivity ] |]).
  reflexivity.
Qed.

(** C9.  Under the SimpleHmac (oss) provider, for every method, key and
    content type: the string to sign is the method, an empty content-MD5,
    the content type, the date string and the resource [/bucket/key], joined
    by line feeds (split on line feeds it gives back exactly these five
    fields); the date string is [toUTCString()] of the clock, of RFC 1123
    shape for a valid date; the signature is the base64 text, 28 characters
    long, of one HMAC-SHA1 of it keyed by the bytes of the secret key; and
    the headers are exactly [Date], [Content-Type] and [Authorization], in
    this order, the last being [OSS accessKeyId:signature]. *)
Theorem generateOssHeaders_simple_hmac
  (crypto : SubtleCrypto) (config : S3Config) (method key contentType : string) (d : Date) :
  let date := toUTCString d in
  let resource := "/" ++ bucket config ++ "/" ++ key in
  let stringToSign :=
    method ++ LF ++ "" ++ LF ++ contentType ++ LF ++ date ++ LF ++ resource in
  let signature :=
    JS.btoa (sign_HMAC SHA_1 (JS.encode (secretAccessKey config)) (JS.encode stringToSign)) in
  S3UploadService.ossStringToSign config method key contentType date = stringToSign
  /\ (one_line method = true -> one_line contentType = true -> one_line date = true ->
      one_line resource = true ->
      JS.split (ascii_of_N 10) stringToSign = [method; ""; contentType; date; resource])
  /\ (valid_date d -> is_rfc1123_date date = true)
  /\ String.length signature = 28%nat
  /\ S3UploadService.generateOssHeaders config method key contentType d
     = [ ("Date", date);
         ("Content-Type", JS.or_else contentType "application/octet-stream");
         ("Authorization", "OSS " ++ accessKeyId config ++ ":" ++ signature) ]
  /\ map fst (S3UploadService.generateOssHeaders config method key contentType d)
     = ["Date"; "Content-Type"; "Authorization"].
Proof.
  intros date resource stringToSign signature.
  assert (Hsts : S3UploadService.ossStringToSign config method key contentType date
                 = stringToSign) by reflexivity.
  split; [exact Hsts|]. split; [|split; [|split; [|split]]].
  - intros Hm Hc Hd Hr. subst stringToSign. unfold JS.split.
    rewrite (split_loop_field method _ "" Hm).
    rewrite (split_loop_field "" _ "" eq_refl).
    rewrite (split_loop_field contentType _ "" Hc).
    rewrite (split_loop_field date _ "" Hd).
    rewrite (split_loop_last resource "" Hr). reflexivity.
  - apply toUTCString_rfc1123.
  - subst signature. rewrite btoa_length, sign_HMAC_size. reflexivity.
  - unfold S3UploadService.generateOssHeaders, S3UploadService.hmacSha1Base64.
    fold date. rewrite Hsts. reflexivity.
  - reflexivity.
Qed.

Example generateOssHeaders_sample :
  S3UploadService.generateOssHeaders (crypto := ref_crypto) sample_config
    "PUT" "p/123-abc.png" "image/png" sample_date
  = [ ("Date", "Tue, 02 Jan 2024 03:04:05 GMT");
      ("Content-Type", "image/png");
      ("Authorization", "OSS AKIDEXAMPLE:nk2HRgspokP+fFbfe2lEEFa9SVw=") ].
Proof. vm_compute. reflexivity. Qed.

(** The signed string keeps the empty content type of a DELETE while the
    header sent names the default type. *)
Example generateOssHeaders_delete :
  S3UploadService.ossStringToSign sample_config "DELETE" "p/123-abc.png" ""
    "Tue, 02 Jan 2024 03:04:05 GMT"
  = "DELETE" ++ LF ++ LF ++ LF ++ "Tue, 02 Jan 2024 03:04:05 GMT" ++ LF ++ "/b/p/123-abc.png"
  /\ S3UploadService.lookup "Content-Type"
       (S3UploadService.generateOssHeaders (crypto := ref_crypto) sample_config
          "DELETE" "p/123-abc.png" "" sample_date)
     = Some "application/octet-stream".
Proof. split; vm_compute; reflexivity. Qed.

(** The earlier revision signs two headers only, for every request. *)
Lemma legacy_signs_two_headers
  (crypto : SubtleCrypto) (config : S3Config) (method key contentType : string)
  (contentLength : Z) (d : Date) :
  S3UploadServiceLegacy.canonicalHeaders (S3UploadService.formatAmzDate d)
  = header_block [ ("x-amz-content-sha256", "UNSIGNED-PAYLOAD");
                   ("x-amz-date", S3UploadService.formatAmzDate d) ]
  /\ S3UploadService.lookup "Authorization"
       (S3UploadServiceLegacy.generateSignedHeaders config method key contentType
          contentLength d)
     = Some ("AWS4-HMAC-SHA256 Credential=" ++ accessKeyId config ++ "/"
             ++ S3UploadServiceLegacy.credentialScope config
                  (S3UploadService.formatDateStamp d)
             ++ ", SignedHeaders=x-amz-content-sha256;x-amz-date, Signature="
             ++ S3UploadServiceLegacy.signature config method key d).
Proof.
  split; [|reflexivity].
  unfold S3UploadServiceLegacy.canonicalHeaders, header_block,
    S3UploadServiceLegacy.payloadHash.
  cbn [map String.concat fst snd]. same_text.
Qed.

(** C1, at the inputs of the specification (endpoint s3.example.com, bucket
    b, region us-east-1, key p/123-abc.png, a fixed clock and fixed
    credentials).  The current revision of the service signs the host: its
    canonical request holds the [host:b.s3.example.com] line and its
    [Authorization] header lists [host;x-amz-content-sha256;x-amz-date].
    The earlier revision does not: its canonical request has no host line and
    its [Authorization] header lists [x-amz-content-sha256;x-amz-date]
    only. *)
Theorem legacy_generateSignedHeaders_omits_host :
  S3UploadService.lookup "Authorization"
    (S3UploadService.generateSignedHeaders (crypto := ref_crypto) sample_config
       "PUT" "p/123-abc.png" "image/png" 3 sample_date)
  = Some ("AWS4-HMAC-SHA256 Credential=AKIDEXAMPLE/20240102/us-east-1/s3/aws4_request, "
          ++ "SignedHeaders=host;x-amz-content-sha256;x-amz-date, "
          ++ "Signature=069a90aa2c4478e4ba981594fa7ce9438fceb61130d5bd19787fbd0031d610f2")
  /\ JS.includes ("host:b.s3.example.com" ++ LF)
       (S3UploadService.canonicalRequest sample_config "PUT" "p/123-abc.png"
          "20240102T030405Z") = true
  /\ S3UploadService.lookup "Authorization"
       (S3UploadServiceLegacy.generateSignedHeaders (crypto := ref_crypto) sample_config
          "PUT" "p/123-abc.png" "image/png" 3 sample_date)
     = Some ("AWS4-HMAC-SHA256 Credential=AKIDEXAMPLE/20240102/us-east-1/s3/aws4_request, "
             ++ "SignedHeaders=x-amz-content-sha256;x-amz-date, "
             ++ "Signature=9ad1b9080a00493125d0944e8b859999759c9d621b961bd484e04067d409bbb3")
  /\ S3UploadServiceLegacy.canonicalRequest "PUT" "p/123-abc.png" "20240102T030405Z"
     = "PUT" ++ LF ++ "/p/123-abc.png" ++ LF ++ LF
       ++ "x-amz-content-sha256:UNSIGNED-PAYLOAD" ++ LF
       ++ "x-amz-date:20240102T030405Z" ++ LF ++ LF
       ++ "x-amz-content-sha256;x-amz-date" ++ LF ++ "UNSIGNED-PAYLOAD"
  /\ JS.includes "host"
       (S3UploadServiceLegacy.canonicalRequest "PUT" "p/123-abc.png" "20240102T030405Z")
     = false.
Proof.
  split; [|split; [|split; [|split]]]; vm_compute; reflexivity.
Qed.

(** ** The properties at sample inputs *)

Lemma relay_fallback_same_url_witness :
  exists results,
    settled (S3UploadService.uploadFiles (crypto := ref_crypto) sample_config batch3 net3)
    = Resolved results
    /\ List.length results = 3%nat
    /\ In "https://b.s3.example.com/p/1700000000002-16367aacb67a4a01.png"
         (map s3Url results).
Proof.
  pose proof (relay_fallback_same_url ref_crypto sample_config batch3 net3 1
                (file_named "b.png" "second") "assets/b.png" None 200 ""
                eq_refl eq_refl eq_refl eq_refl) as H.
  assert (Hrelay : forall s3Key headers, exists url,
             settled (S3UploadService.uploadViaForwardProxy sample_config
                        (file_named "b.png" "second") s3Key headers (net3 1))
             = Resolved url).
  { intros s3Key headers. eexists. reflexivity. }
  specialize (H Hrelay ltac:(lia)). cbv zeta in H.
  destruct H as [_ [record [results [Hdirect [Hbatch [_ Hin]]]]]].
  exists results. split; [exact Hbatch|].
  assert (Hrecord : s3Url record
                    = "https://b.s3.example.com/p/1700000000002-16367aacb67a4a01.png").
  { vm_compute in Hdirect. injection Hdirect as <-. reflexivity. }
  split.
  - vm_compute in Hbatch. injection Hbatch as <-. reflexivity.
  - rewrite <- Hrecord. apply in_map, Hin.
Defined.

Lemma delete_404_is_success_witness :
  settled (S3UploadService.deleteFile (crypto := ref_crypto) sample_config "p/123-abc.png"
             (world 0 (xhr_load 404 "NoSuchKey") relay_down))
  = Resolved tt
  /\ settled (S3UploadService.performDelete (crypto := ref_crypto) sample_config
                "p/123-abc.png" (world 0 (xhr_load 403 "AccessDenied") relay_down))
     = Rejected "S3 删除失败: HTTP 403 - AccessDenied".
Proof.
  split.
  - pose proof (delete_404_is_success ref_crypto sample_config "p/123-abc.png"
                  (world 0 (xhr_load 404 "NoSuchKey") relay_down) 404 "NoSuchKey"
                  eq_refl eq_refl eq_refl) as H.
    cbv zeta in H. destruct H as [_ [H404 [_ Hfile]]].
    rewrite Hfile. apply H404. reflexivity.
  - pose proof (delete_404_is_success ref_crypto sample_config "p/123-abc.png"
                  (world 0 (xhr_load 403 "AccessDenied") relay_down) 403 "AccessDenied"
                  eq_refl eq_refl eq_refl) as H.
    cbv zeta in H. destruct H as [_ [_ [Hother _]]].
    apply Hother; lia.
Defined.

Lemma delete_never_relayed_witness :
  settled (S3UploadService.performDelete (crypto := ref_crypto) sample_config
             "p/123-abc.png" (world 0 xhr_error relay_accepts))
  = Rejected "网络错误，删除失败"
  /\ existsb is_relay_effect
       (effects (S3UploadService.deleteFiles (crypto := ref_crypto) sample_config
                   ["p/123-abc.png"] (fun _ => world 0 xhr_error relay_accepts)))
     = false.
Proof.
  pose proof (delete_never_relayed ref_crypto sample_config "p/123-abc.png"
                (world 0 xhr_error relay_accepts) eq_refl) as [H [_ [_ [Hfiles _]]]].
  split; [exact H | apply Hfiles].
Defined.

Lemma generateOssHeaders_simple_hmac_witness :
  JS.split (ascii_of_N 10)
    (S3UploadService.ossStringToSign sample_config "PUT" "p/123-abc.png" "image/png"
       (toUTCString sample_date))
  = ["PUT"; ""; "image/png"; "Tue, 02 Jan 2024 03:04:05 GMT"; "/b/p/123-abc.png"]
  /\ is_rfc1123_date (toUTCString sample_date) = true
  /\ map fst (S3UploadService.generateOssHeaders (crypto := ref_crypto) sample_config
                "PUT" "p/123-abc.png" "image/png" sample_date)
     = ["Date"; "Content-Type"; "Authorization"].
Proof.
  pose proof (generateOssHeaders_simple_hmac ref_crypto sample_config
                "PUT" "p/123-abc.png" "image/png" sample_date) as H.
  cbv zeta in H. destruct H as (Hsts & Hsplit & Hdate & _ & _ & Hnames).
  split; [|split].
  - rewrite Hsts. apply Hsplit; reflexivity.
  - apply Hdate. unfold valid_date. cbn. lia.
  - exact Hnames.
Defined.

Lemma findAssetByHash_first_with_hash_witness :
  AssetRecordManager.findAssetByHash "bbbbbbbbbbbbbbbb"
    (Index.run history AssetRecordManager.init)
  = Some asset_b
  /\ AssetRecordManager.findAssetByHash "aaaaaaaaaaaaaaaa"
       (Index.run history AssetRecordManager.init)
     = None.
Proof.
  destruct (findAssetByHash_first_with_hash "bbbbbbbbbbbbbbbb"
              (Index.run history AssetRecordManager.init)) as (Hb & _).
  destruct (findAssetByHash_first_with_hash "aaaaaaaaaaaaaaaa"
              (Index.run history AssetRecordManager.init)) as (_ & _ & _ & Hnone).
  split; [rewrite Hb; reflexivity|].
  apply Hnone. intros a Hin. vm_compute in Hin.
  destruct Hin as [<-|[]]. discriminate.
Defined.

Lemma index_invariant_witness :
  Index.one_mapping_per_doc (Index.run history AssetRecordManager.init)
  /\ Index.no_empty_mapping (Index.run history AssetRecordManager.init)
  /\ map docId (AssetRecordManager.getAllMappings (Index.run history AssetRecordManager.init))
     = ["doc-1"].
Proof.
  assert (Hcalls : Forall Index.nonempty_update history).
  { repeat constructor; discriminate. }
  destruct (index_invariant history AssetRecordManager.init IndexFacts.init_ok Hcalls)
    as [_ [H1 H2]].
  split; [exact H1|]. split; [exact H2|]. reflexivity.
Defined.

Lemma recorded_path_not_uploaded_witness :
  exists processed assets_,
    settled (ShareService.processAndUploadAssets (crypto := ref_crypto) sample_config
               scan_two (fun content _ => content) "![a](assets/a.png) [b](assets/b.png)"
               "doc-2" index_a web_b (fun _ => world 1700000000002 (xhr_load 200 "") relay_down))
    = Resolved (processed, assets_)
    /\ In asset_a assets_
    /\ existsb (concerns "assets/a.png")
         (effects (ShareService.processAndUploadAssets (crypto := ref_crypto) sample_config
                     scan_two (fun content _ => content)
                     "![a](assets/a.png) [b](assets/b.png)"
                     "doc-2" index_a web_b
                     (fun _ => world 1700000000002 (xhr_load 200 "") relay_down)))
       = false.
Proof.
  assert (Hin : In "assets/a.png"
                  (ShareService.extractAssetPaths scan_two
                     "![a](assets/a.png) [b](assets/b.png)")).
  { vm_compute. left. reflexivity. }
  assert (Hrecorded : In asset_a (recorded index_a)).
  { vm_compute. left. reflexivity. }
  destruct (recorded_path_not_uploaded ref_crypto sample_config scan_two
              (fun content _ => content) "![a](assets/a.png) [b](assets/b.png)" "doc-2"
              index_a web_b (fun _ => world 1700000000002 (xhr_load 200 "") relay_down)
              "assets/a.png" asset_a Hin Hrecorded eq_refl)
    as [[a [processed [assets_ [Hfound [_ [_ [Hrun [Ha _]]]]]]]] Hnone].
  assert (Hsame : a = asset_a).
  { vm_compute in Hfound. injection Hfound as <-. reflexivity. }
  subst a.
  exists processed, assets_. split; [exact Hrun|]. split; [exact Ha | exact Hnone].
Defined.

Example processAndUploadAssets_sample :
  settled
    (ShareService.processAndUploadAssets (crypto := ref_crypto) sample_config
       scan_two (fun content _ => content) "![a](assets/a.png) [b](assets/b.png)"
       "doc-2" index_a web_b (fun _ => world 1700000000002 (xhr_load 200 "") relay_down))
  = Resolved
      ("![a](assets/a.png) [b](assets/b.png)",
       [ asset_a;
         {| localPath := "assets/b.png";
            s3Key := "p/1700000000002-16367aacb67a4a01.png";
            s3Url := "https://b.s3.example.com/p/1700000000002-16367aacb67a4a01.png";
            contentType := "image/png";
            size := 6;
            hash := "16367aacb67a4a01";
            uploadedAt := 1700000000002 |} ])
  /\ map request_line
       (effects
          (ShareService.processAndUploadAssets (crypto := ref_crypto) sample_config
             scan_two (fun content _ => content) "![a](assets/a.png) [b](assets/b.png)"
             "doc-2" index_a web_b
             (fun _ => world 1700000000002 (xhr_load 200 "") relay_down)))
     = [ "assets/b.png: GET /assets/b.png";
         "assets/b.png: PUT https://b.s3.example.com/p/1700000000002-16367aacb67a4a01.png" ].
Proof. split; vm_compute; reflexivity. Qed.

(** ** Where the code departs from the claims *)

(** C2, refuted as stated.  The index holds a record of 7 bytes under the
    fingerprint of the 3-byte blob "abc"; the lookup by hash returns that
    record for the blob. *)
Lemma findAssetByHash_ignores_size :
  exists a,
    AssetRecordManager.findAssetByHash
      (S3UploadService.calculateFileHash (crypto := ref_crypto) file_abc) index_collision
    = Some a
    /\ size a = 7
    /\ file_size file_abc = 3.
Proof. eexists. split; [vm_compute; reflexivity | split; reflexivity]. Qed.

(** C3, refuted as stated.  [addOrUpdateMapping] called with an empty
    asset list on a fresh index leaves a mapping without assets, retrievable
    by document id. *)
Lemma addOrUpdateMapping_keeps_empty :
  exists mapping,
    AssetRecordManager.getMapping "doc-1"
      (Index.run [(Index.AddOrUpdateMapping "doc-1" "share-1" [], 1)]
         AssetRecordManager.init)
    = Some mapping
    /\ assets mapping = [].
Proof. eexists. split; reflexivity. Qed.

(** C5, refuted as stated.  An empty batch and a batch whose only file is
    refused with a 403 return the same value, although the second one
    collected an error: the errors are not part of what [uploadFiles]
    returns. *)
Lemma uploadFiles_errors_not_returned :
  settled (S3UploadService.uploadFiles (crypto := ref_crypto) sample_config [] net_refused)
  = Resolved []
  /\ settled (S3UploadService.uploadFiles (crypto := ref_crypto) sample_config
                batch_refused net_refused)
     = Resolved []
  /\ failures (attempts (crypto := ref_crypto) sample_config [] net_refused 0) = []
  /\ failures (attempts (crypto := ref_crypto) sample_config batch_refused net_refused 0)
     = ["assets/a.png: S3 上传失败: HTTP 403 - AccessDenied"].
Proof.
  split; [|split; [|split]]; vm_compute; reflexivity.
Qed.

Example uploadFiles_refused_notification :
  List.last
    (effects (S3UploadService.uploadFiles (crypto := ref_crypto) sample_config
                batch_refused net_refused)) (ShowMessage "")
  = ShowMessage ("部分文件上传失败:" ++ LF
                 ++ "assets/a.png: S3 上传失败: HTTP 403 - AccessDenied").
Proof. vm_compute. reflexivity. Qed.

(** * Further properties of the code *)

(** ** The index as a store *)

Module StoreFacts.

Import AssetRecordManager.
Import Store.

Lemma Map_get_set k v d m :
  Map_get d (Map_set k v m) = if String.eqb k d then Some v else Map_get d m.
Proof.
  induction m as [|[k0 v0] m IH]; cbn.
  - destruct (String.eqb k d); reflexivity.
  - destruct (String.eqb_spec k0 k) as [->|Hne]; cbn.
    + destruct (String.eqb k d); reflexivity.
    + destruct (String.eqb_spec k0 d) as [->|Hne'].
      * destruct (String.eqb_spec k d) as [->|_]; [congruence | reflexivity].
      * exact IH.
Qed.

Lemma Map_get_delete_other k d m :
  k <> d -> Map_get d (Map_delete k m) = Map_get d m.
Proof.
  intros Hne. induction m as [|[k0 v0] m IH]; cbn; [reflexivity|].
  destruct (String.eqb_spec k0 k) as [->|Hk].
  - destruct (String.eqb_spec k d) as [->|_]; [congruence | reflexivity].
  - cbn. rewrite IH. reflexivity.
Qed.

Lemma Map_get_none k m : ~ In k (map fst m) -> Map_get k m = None.
Proof.
  induction m as [|[k0 v0] m IH]; cbn; [reflexivity|]. intros Hnot.
  destruct (String.eqb_spec k0 k) as [->|_]; [exfalso; auto | apply IH; auto].
Qed.

Lemma Map_get_delete_same k m :
  NoDup (map fst m) -> Map_get k (Map_delete k m) = None.
Proof.
  induction m as [|[k0 v0] m IH]; cbn; [reflexivity|]. intros Hnd.
  inversion Hnd as [|? ? Hnotin Hnd']; subst.
  destruct (String.eqb_spec k0 k) as [->|Hk].
  - apply Map_get_none, Hnotin.
  - cbn. destruct (String.eqb_spec k0 k) as [->|_]; [congruence | apply IH, Hnd'].
Qed.

Lemma Map_set_fresh k v m :
  ~ In k (map fst m) -> Map_set k v m = (m ++ [(k, v)])%list.
Proof.
  induction m as [|[k0 v0] m IH]; cbn; [reflexivity|]. intros Hnot.
  destruct (String.eqb_spec k0 k) as [->|_]; [exfalso; auto|].
  rewrite IH by auto. reflexivity.
Qed.

(** Writing back the mapping that is there changes nothing. *)
Lemma Map_set_same k v m : Map_get k m = Some v -> Map_set k v m = m.
Proof.
  induction m as [|[k0 v0] m IH]; cbn; [discriminate|].
  destruct (String.eqb_spec k0 k) as [->|_].
  - intros [= ->]. reflexivity.
  - intros H. rewrite IH by exact H. reflexivity.
Qed.

Lemma Map_set_present k v m v0 :
  Map_get k m = Some v0 -> map fst (Map_set k v m) = map fst m.
Proof.
  induction m as [|[k1 v1] m IH]; cbn; [discriminate|].
  destruct (String.eqb_spec k1 k) as [->|_]; cbn; [reflexivity|].
  intros H. rewrite (IH H). reflexivity.
Qed.

Lemma Map_set_absent k v m :
  Map_get k m = None -> Map_set k v m = (m ++ [(k, v)])%list.
Proof.
  induction m as [|[k1 v1] m IH]; cbn; [reflexivity|].
  destruct (String.eqb_spec k1 k) as [->|_]; cbn; [discriminate|].
  intros H. rewrite (IH H). reflexivity.
Qed.

Lemma Map_set_set k v v' m : Map_set k v (Map_set k v' m) = Map_set k v m.
Proof.
  induction m as [|[k0 v0] m IH]; cbn.
  - rewrite String.eqb_refl. reflexivity.
  - destruct (String.eqb_spec k0 k) as [->|Hne]; cbn.
    + rewrite String.eqb_refl. reflexivity.
    + destruct (String.eqb_spec k0 k) as [->|_]; [congruence|]. rewrite IH. reflexivity.
Qed.

Lemma load_fold data m0 :
  NoDup (map fst (m0 ++ data)%list) ->
  Forall (fun kv => docId (snd kv) = fst kv) data ->
  fold_left (fun m mapping => Map_set (docId mapping) mapping m) (map snd data) m0
  = (m0 ++ data)%list.
Proof.
  revert m0. induction data as [|[k v] data IH]; intros m0 Hnd Hkeyed; cbn.
  - rewrite app_nil_r. reflexivity.
  - inversion Hkeyed as [|? ? Hk Hrest]; subst. cbn in Hk. rewrite Hk.
    rewrite Map_set_fresh.
    + rewrite IH; [rewrite <- app_assoc; reflexivity | | exact Hrest].
      rewrite <- app_assoc. exact Hnd.
    + rewrite map_app in Hnd. cbn in Hnd. apply NoDup_remove_2 in Hnd.
      intros Hin. apply Hnd. apply in_or_app. left. exact Hin.
Qed.

Lemma load_fold_keys data m0 :
  NoDup (map fst m0) -> Forall (fun kv => docId (snd kv) = fst kv) m0 ->
  let m := fold_left (fun m mapping => Map_set (docId mapping) mapping m) data m0 in
  NoDup (map fst m) /\ Forall (fun kv => docId (snd kv) = fst kv) m.
Proof.
  revert m0. induction data as [|v data IH]; intros m0 Hnd Hkeyed; cbn; [split; assumption|].
  apply IH.
  - clear IH. induction m0 as [|[k0 v0] m0 IH0]; cbn.
    + repeat constructor. intros [].
    + inversion Hnd as [|? ? Hnotin Hnd']; subst. inversion Hkeyed; subst.
      destruct (String.eqb_spec k0 (docId v)) as [->|Hne]; cbn.
      * constructor; assumption.
      * constructor; [|apply IH0; assumption].
        rewrite IndexFacts.Map_set_keys. intros [->|Hin]; [congruence | auto].
  - clear IH. induction Hkeyed as [|[k0 v0] m0 Hk Hrest IH0]; cbn.
    + constructor; [reflexivity | constructor].
    + inversion Hnd; subst.
      destruct (String.eqb_spec k0 (docId v)) as [->|Hne]; constructor; auto.
Qed.

Lemma load_fold_get d data m0 :
  Map_get d (fold_left (fun m mapping => Map_set (docId mapping) mapping m) data m0)
  = match find (fun mapping => String.eqb (docId mapping) d) (rev data) with
    | Some mapping => Some mapping
    | None => Map_get d m0
    end.
Proof.
  revert m0. induction data as [|v data IH]; intros m0; cbn; [reflexivity|].
  rewrite IH, find_app, Map_get_set. cbn.
  destruct (find _ (rev data)); [reflexivity|].
  destruct (String.eqb (docId v) d); reflexivity.
Qed.

End StoreFacts.

(** X1.  Saving the index and loading the written array into a fresh
    manager gives back the same [Map], entry for entry and in the same
    order, when every mapping is entered under its own document id. *)
Theorem save_load_roundtrip (st : AssetRecordManager.State) :
  Store.distinct_keys st ->
  Store.keyed_by_docId st ->
  AssetRecordManager.mappings
    (AssetRecordManager.load (Some (AssetRecordManager.saved (AssetRecordManager.save st)))
       AssetRecordManager.init)
  = AssetRecordManager.mappings st.
Proof.
  intros Hnd Hkeyed. cbn.
  apply (StoreFacts.load_fold (AssetRecordManager.mappings st) []); assumption.
Qed.

Lemma save_load_roundtrip_witness :
  AssetRecordManager.mappings
    (AssetRecordManager.load
       (Some (AssetRecordManager.saved
                (AssetRecordManager.save (Index.run history AssetRecordManager.init))))
       AssetRecordManager.init)
  = AssetRecordManager.mappings (Index.run history AssetRecordManager.init).
Proof.
  apply save_load_roundtrip.
  - unfold Store.distinct_keys. vm_compute. repeat constructor. intros [].
  - unfold Store.keyed_by_docId. vm_compute. repeat constructor.
Defined.

(** X2.  Loading any stored array into a fresh manager gives a [Map] with
    distinct keys, every mapping under its own document id, hence at most one
    mapping per document; of several stored mappings of one document the
    last one is kept. *)
Theorem load_last_wins (data : list DocAssetMapping) (d : string) :
  let st := AssetRecordManager.load (Some data) AssetRecordManager.init in
  Store.distinct_keys st
  /\ Store.keyed_by_docId st
  /\ Index.one_mapping_per_doc st
  /\ AssetRecordManager.getMapping d st = Store.last_stored d data.
Proof.
  intros st. subst st.
  destruct (StoreFacts.load_fold_keys data [] (NoDup_nil _) (Forall_nil _)) as [Hnd Hkeyed].
  split; [exact Hnd|]. split; [exact Hkeyed|]. split.
  - unfold Index.one_mapping_per_doc, AssetRecordManager.getAllMappings,
      AssetRecordManager.Map_values. cbn [AssetRecordManager.load AssetRecordManager.mappings
      AssetRecordManager.init] in *.
    revert Hnd Hkeyed.
    generalize (fold_left (fun m mapping => AssetRecordManager.Map_set (docId mapping) mapping m)
                  data []).
    intros m Hnd Hkeyed.
    replace (map docId (map snd m)) with (map fst m); [exact Hnd|].
    clear Hnd. induction Hkeyed as [|[k v] m Hk _ IH]; [reflexivity|].
    cbn in *. rewrite IH, Hk. reflexivity.
  - unfold AssetRecordManager.getMapping, Store.last_stored. cbn.
    rewrite StoreFacts.load_fold_get. destruct (find _ (rev data)); reflexivity.
Qed.

(** X3.  After [addOrUpdateMapping], the mapping of the document carries the
    new share id and asset list and the clock reading as its update time; a
    re-publication keeps the creation time (and place) of the mapping, a first
    publication sets it; the mappings of the other documents are as
    before, and the index was written. *)
Theorem addOrUpdateMapping_getMapping
  (d s : string) (a : list AssetUploadRecord) (now : Z)
  (st : AssetRecordManager.State) (d' : string) :
  let st' := AssetRecordManager.addOrUpdateMapping d s a now st in
  AssetRecordManager.getMapping d st'
  = Some {| docId := match AssetRecordManager.getMapping d st with
                     | Some existing => docId existing
                     | None => d
                     end;
            shareId := s;
            assets := a;
            createdAt := match AssetRecordManager.getMapping d st with
                         | Some existing => createdAt existing
                         | None => now
                         end;
            updatedAt := now |}
  /\ (d' <> d -> AssetRecordManager.getMapping d' st' = AssetRecordManager.getMapping d' st)
  /\ map fst (AssetRecordManager.mappings st')
     = match AssetRecordManager.getMapping d st with
       | Some _ => map fst (AssetRecordManager.mappings st)
       | None => (map fst (AssetRecordManager.mappings st) ++ [d])%list
       end
  /\ Store.persisted st'.
Proof.
  intros st'. subst st'.
  unfold AssetRecordManager.addOrUpdateMapping, AssetRecordManager.getMapping.
  destruct (AssetRecordManager.Map_get d (AssetRecordManager.mappings st))
    as [existing|] eqn:Hget; cbn [AssetRecordManager.save AssetRecordManager.mappings].
  - split; [|split; [|split]].
    + rewrite StoreFacts.Map_get_set, String.eqb_refl. reflexivity.
    + intros Hne. rewrite StoreFacts.Map_get_set.
      destruct (String.eqb_spec d d') as [->|_]; [congruence | reflexivity].
    + apply (StoreFacts.Map_set_present _ _ _ _ Hget).
    + reflexivity.
  - split; [|split; [|split]].
    + rewrite StoreFacts.Map_get_set, String.eqb_refl. reflexivity.
    + intros Hne. rewrite StoreFacts.Map_get_set.
      destruct (String.eqb_spec d d') as [->|_]; [congruence | reflexivity].
    + rewrite (StoreFacts.Map_set_absent _ _ _ Hget), map_app. reflexivity.
    + reflexivity.
Qed.

(** X4.  After [removeMapping], the document has no mapping any more and
    the mappings of the other documents are as before; removing the mapping
    of a document that has none changes nothing in the [Map]. *)
Theorem removeMapping_getMapping
  (d d' : string) (st : AssetRecordManager.State) :
  Store.distinct_keys st ->
  let st' := AssetRecordManager.removeMapping d st in
  AssetRecordManager.getMapping d st' = None
  /\ (d' <> d -> AssetRecordManager.getMapping d' st' = AssetRecordManager.getMapping d' st)
  /\ (AssetRecordManager.getMapping d st = None ->
      AssetRecordManager.mappings st' = AssetRecordManager.mappings st)
  /\ Store.persisted st'.
Proof.
  intros Hnd st'. subst st'.
  unfold AssetRecordManager.removeMapping, AssetRecordManager.getMapping.
  cbn [AssetRecordManager.save AssetRecordManager.mappings].
  split; [|split; [|split]].
  - apply StoreFacts.Map_get_delete_same, Hnd.
  - intros Hne. apply StoreFacts.Map_get_delete_other. congruence.
  - generalize (AssetRecordManager.mappings st). intros l.
    induction l as [|[k0 v0] m IH]; cbn; [reflexivity|].
    destruct (String.eqb_spec k0 d) as [->|_]; [discriminate|].
    intros H. rewrite (IH H). reflexivity.
  - reflexivity.
Qed.

Lemma removeMapping_getMapping_witness :
  AssetRecordManager.getMapping "doc-1"
    (AssetRecordManager.removeMapping "doc-1" (Index.run history AssetRecordManager.init))
  = None.
Proof.
  refine (proj1 (removeMapping_getMapping "doc-1" "doc-2"
                   (Index.run history AssetRecordManager.init) _)).
  unfold Store.distinct_keys. vm_compute. repeat constructor. intros [].
Defined.

(** X5.  [removeMappingByShareId] removes exactly the mappings published
    under the share id: the others stay, in order and unchanged, none of the
    remaining mappings carries the share id, and a document whose mapping
    carries another share id keeps it. *)
Theorem removeMappingByShareId_exact
  (s : string) (st : AssetRecordManager.State) :
  let st' := AssetRecordManager.removeMappingByShareId s st in
  AssetRecordManager.mappings st'
  = filter (fun kv => negb (String.eqb (shareId (snd kv)) s)) (AssetRecordManager.mappings st)
  /\ Forall (fun mapping => shareId mapping <> s) (AssetRecordManager.getAllMappings st')
  /\ (forall d mapping,
         AssetRecordManager.getMapping d st = Some mapping -> shareId mapping <> s ->
         AssetRecordManager.getMapping d st' = Some mapping)
  /\ (forall d mapping,
         AssetRecordManager.getMapping d st' = Some mapping ->
         In mapping (AssetRecordManager.getAllMappings st) /\ shareId mapping <> s)
  /\ Store.persisted st'.
Proof.
  intros st'. subst st'.
  unfold AssetRecordManager.removeMappingByShareId, AssetRecordManager.getMapping,
    AssetRecordManager.getAllMappings, AssetRecordManager.Map_values.
  cbn [AssetRecordManager.save AssetRecordManager.mappings].
  generalize (AssetRecordManager.mappings st). intros m.
  assert (Hfilter : AssetRecordManager.removeMappingByShareId_loop s m
                    = filter (fun kv => negb (String.eqb (shareId (snd kv)) s)) m).
  { induction m as [|[k v] m IH]; cbn; [reflexivity|].
    destruct (String.eqb (shareId v) s); cbn; rewrite IH; reflexivity. }
  rewrite Hfilter. clear Hfilter. split; [reflexivity|]. split; [|split; [|split; [|reflexivity]]].
  - apply Forall_forall. intros v Hin. apply in_map_iff in Hin as [[k v'] [<- Hin]].
    apply filter_In in Hin as [_ Hs]. cbn in *.
    apply negb_true_iff, String.eqb_neq in Hs. exact Hs.
  - intros d mapping. induction m as [|[k v] m IH]; cbn; [discriminate|].
    destruct (String.eqb_spec k d) as [->|Hne].
    + intros [= ->] Hs. apply String.eqb_neq in Hs. rewrite Hs. cbn.
      rewrite String.eqb_refl. reflexivity.
    + intros Hget Hs. destruct (String.eqb (shareId v) s); cbn.
      * apply IH; [exact Hget | exact Hs].
      * destruct (String.eqb_spec k d) as [->|_]; [congruence|].
        apply IH; [exact Hget | exact Hs].
  - intros d mapping Hget. apply IndexFacts.Map_get_in in Hget.
    apply filter_In in Hget as [Hin Hs]. cbn in Hs.
    apply negb_true_iff, String.eqb_neq in Hs. split; [|exact Hs].
    apply in_map_iff. exists (d, mapping). split; [reflexivity | exact Hin].
Qed.

Module RemovalFacts.

Import AssetRecordManager.

Lemma filter_same_length {A} (p : A -> bool) (l : list A) :
  List.length (filter p l) = List.length l -> filter p l = l.
Proof.
  induction l as [|x l IH]; cbn; [reflexivity|].
  destruct (p x); cbn; intros H.
  - rewrite IH by lia. reflexivity.
  - pose proof (IndexFacts.filter_length_le p l). lia.
Qed.

Lemma filter_none_removed {A} (p : A -> bool) (l : list A) :
  existsb (fun x => negb (p x)) l = false -> filter p l = l.
Proof.
  induction l as [|x l IH]; cbn; [reflexivity|].
  destruct (p x); cbn; [|discriminate]. intros H. rewrite IH by exact H. reflexivity.
Qed.

Lemma filter_some_removed {A} (p : A -> bool) (l : list A) :
  existsb (fun x => negb (p x)) l = true ->
  (List.length (filter p l) < List.length l)%nat.
Proof.
  induction l as [|x l IH]; cbn; [discriminate|].
  pose proof (IndexFacts.filter_length_le p l).
  destruct (p x); cbn; intros Hx; [apply IH in Hx|]; lia.
Qed.

Lemma filter_removed_count {A} (p : A -> bool) (l : list A) :
  (List.length (filter p l) + List.length (filter (fun x => negb (p x)) l)
   = List.length l)%nat.
Proof.
  induction l as [|x l IH]; cbn; [reflexivity|]. destruct (p x); cbn; lia.
Qed.

Lemma existsb_negb_negb {A} (p : A -> bool) (l : list A) :
  existsb (fun x => negb (negb (p x))) l = existsb p l.
Proof.
  induction l as [|x l IH]; cbn; [reflexivity|]. rewrite IH, negb_involutive. reflexivity.
Qed.

Lemma with_assets_same v : with_assets v (assets v) = v.
Proof. destruct v. reflexivity. Qed.

Lemma recorded_entries st :
  recorded st = flat_map (fun kv => assets (snd kv)) (mappings st).
Proof.
  unfold recorded, getAllMappings, Map_values.
  induction (mappings st) as [|kv m IH]; cbn; [reflexivity|]. rewrite IH. reflexivity.
Qed.

Lemma kept_removed ks a : negb (Store.kept ks a) = Set_has ks (s3Key a).
Proof. unfold Store.kept. apply negb_involutive. Qed.

(** One pass of [removeAssets] over the entries. *)
Lemma removeAssets_loop_exact ks now m c :
  flat_map (fun kv => assets (snd kv)) (fst (removeAssets_loop ks now m c))
  = filter (Store.kept ks) (flat_map (fun kv => assets (snd kv)) m)
  /\ snd (removeAssets_loop ks now m c)
     = c + Z.of_nat (List.length
                       (filter (fun a => Set_has ks (s3Key a))
                          (flat_map (fun kv => assets (snd kv)) m)))
  /\ (snd (removeAssets_loop ks now m c) = c -> fst (removeAssets_loop ks now m c) = m).
Proof.
  revert c. induction m as [|[k v] m IH]; intros c.
  - cbn. split; [reflexivity|]. split; [lia | reflexivity].
  - cbn [removeAssets_loop flat_map snd].
    rewrite !filter_app, !length_app.
    fold (Store.kept ks).
    pose proof (filter_removed_count (Store.kept ks) (assets v)) as Hcount.
    assert (Hx : filter (fun a => negb (Store.kept ks a)) (assets v)
                 = filter (fun a => Set_has ks (s3Key a)) (assets v)).
    { apply filter_ext. intros a. apply kept_removed. }
    rewrite Hx in Hcount. clear Hx.
    cbn [with_assets with_updatedAt assets].
    match goal with |- context [if Nat.ltb ?a ?b then _ else _] =>
      destruct (Nat.ltb_spec a b) as [Hlt|Hge] end.
    + specialize (IH (c + (Z.of_nat (List.length (assets v))
                           - Z.of_nat (List.length (filter (Store.kept ks) (assets v)))))).
      destruct (removeAssets_loop ks now m _) as [rest' n]. cbn [fst snd] in IH.
      destruct IH as [IH1 [IH2 _]].
      destruct (Nat.eqb_spec (List.length (filter (Store.kept ks) (assets v))) 0) as [H0|H0];
        cbn [fst snd flat_map assets].
      * apply length_zero_iff_nil in H0. rewrite H0. cbn [app].
        split; [exact IH1|]. split; [|intros ->]; lia.
      * rewrite IH1. split; [reflexivity|]. split; [|intros ->]; lia.
    + specialize (IH c).
      destruct (removeAssets_loop ks now m c) as [rest' n]. cbn [fst snd] in IH.
      destruct IH as [IH1 [IH2 IH3]].
      cbn [fst snd flat_map assets]. rewrite IH1.
      split; [reflexivity|]. split; [lia|].
      intros Hn. rewrite (IH3 ltac:(lia)).
      pose proof (IndexFacts.filter_length_le (Store.kept ks) (assets v)).
      rewrite (filter_same_length (Store.kept ks) (assets v)) by lia.
      rewrite with_assets_same. reflexivity.
Qed.

Lemma removeAssets_fst_snd ks now st :
  removeAssets ks now st
  = (if 0 <? snd (removeAssets_loop ks now (mappings st) 0)
     then save {| mappings := fst (removeAssets_loop ks now (mappings st) 0);
                  saved := saved st |}
     else {| mappings := fst (removeAssets_loop ks now (mappings st) 0);
             saved := saved st |},
     snd (removeAssets_loop ks now (mappings st) 0)).
Proof.
  unfold removeAssets. destruct (removeAssets_loop ks now (mappings st) 0) as [m n].
  cbn [fst snd]. destruct (0 <? n); reflexivity.
Qed.

Lemma removeAssets_unchanged ks now st :
  snd (removeAssets ks now st) = 0 -> fst (removeAssets ks now st) = st.
Proof.
  rewrite removeAssets_fst_snd. cbn [fst snd]. intros Hn.
  destruct (removeAssets_loop_exact ks now (mappings st) 0) as [_ [_ Hsame]].
  rewrite Hn. cbn. rewrite (Hsame Hn). destruct st. reflexivity.
Qed.

Lemma removeAssets_count ks now st :
  snd (removeAssets ks now st)
  = Z.of_nat (List.length (filter (fun a => Set_has ks (s3Key a)) (recorded st))).
Proof.
  rewrite removeAssets_fst_snd, recorded_entries. cbn [snd].
  destruct (removeAssets_loop_exact ks now (mappings st) 0) as [_ [Hn _]].
  rewrite Hn. lia.
Qed.


Lemma removeAssets_persisted ks now st :
  Store.persisted st -> Store.persisted (fst (removeAssets ks now st)).
Proof.
  intros Hp. pose proof (removeAssets_unchanged ks now st) as Hsame.
  pose proof (removeAssets_count ks now st) as Hcount.
  rewrite removeAssets_fst_snd in *. cbn [fst snd] in *.
  destruct (0 <? snd _) eqn:Hpos.
  - reflexivity.
  - apply Z.ltb_ge in Hpos. rewrite Hsame by lia. exact Hp.
Qed.

Lemma removeAssetFromDoc_unchanged d k now st :
  snd (removeAssetFromDoc d k now st) = false -> fst (removeAssetFromDoc d k now st) = st.
Proof.
  unfold removeAssetFromDoc.
  destruct (Map_get d (mappings st)) as [mapping|] eqn:Hget; [|reflexivity].
  cbn [with_assets with_updatedAt assets].
  destruct (Nat.eqb_spec (List.length (filter (fun a => negb (String.eqb (s3Key a) k))
                                         (assets mapping)))
              (List.length (assets mapping))) as [Hsame|Hless]; [|discriminate].
  intros _. cbn [fst]. rewrite (filter_same_length _ _ Hsame), with_assets_same.
  rewrite (StoreFacts.Map_set_same _ _ _ Hget). destruct st. reflexivity.
Qed.

Lemma removeAssetFromDoc_persisted d k now st :
  Store.persisted st -> Store.persisted (fst (removeAssetFromDoc d k now st)).
Proof.
  intros Hp. pose proof (removeAssetFromDoc_unchanged d k now st) as Hsame.
  destruct (snd (removeAssetFromDoc d k now st)) eqn:Hflag.
  - clear Hsame. revert Hflag. unfold removeAssetFromDoc.
    destruct (Map_get d (mappings st)) as [mapping|]; [|discriminate].
    destruct (Nat.eqb _ _); [discriminate|]. reflexivity.
  - rewrite Hsame by reflexivity. exact Hp.
Qed.

Lemma removeAssetsByFilter_persisted f now st :
  Store.persisted st -> Store.persisted (fst (removeAssetsByFilter f now st)).
Proof.
  intros Hp. unfold removeAssetsByFilter.
  destruct (0 <? _)%nat; cbn [fst]; [apply removeAssets_persisted, Hp | exact Hp].
Qed.

Lemma step_persisted st call :
  Store.persisted st -> Store.persisted (Index.step st call).
Proof.
  intros Hp. destruct call as [[d s a|d s a|d k|ks|f|d|s] now];
    unfold Index.step; cbn [fst snd].
  - unfold ShareService.createShare_saveMapping.
    destruct (0 <? _)%nat; [|exact Hp].
    unfold addOrUpdateMapping. destruct (Map_get d (mappings st)); reflexivity.
  - unfold addOrUpdateMapping. destruct (Map_get d (mappings st)); reflexivity.
  - apply removeAssetFromDoc_persisted, Hp.
  - apply removeAssets_persisted, Hp.
  - apply removeAssetsByFilter_persisted, Hp.
  - reflexivity.
  - reflexivity.
Qed.

End RemovalFacts.


(** X7.  [removeAssetFromDoc] answers [true] exactly when the document has
    a mapping that holds a record with the object key.  When it answers
    [false] the manager is unchanged and nothing is written.  When it
    answers [true], the mapping of the document holds the other records,
    in order, with the clock reading as its update time, or is gone when
    no record is left; the other documents keep their mappings, and the
    index is written. *)
Theorem removeAssetFromDoc_exact
  (d k : string) (now : Z) (st : AssetRecordManager.State) (d' : string) :
  Store.distinct_keys st ->
  let st' := fst (AssetRecordManager.removeAssetFromDoc d k now st) in
  let found := snd (AssetRecordManager.removeAssetFromDoc d k now st) in
  found = match AssetRecordManager.getMapping d st with
          | Some mapping => existsb (Store.has_key k) (assets mapping)
          | None => false
          end
  /\ (found = false -> st' = st)
  /\ (found = true ->
      AssetRecordManager.getMapping d st'
      = match AssetRecordManager.getMapping d st with
        | Some mapping =>
            match filter (fun a => negb (Store.has_key k a)) (assets mapping) with
            | [] => None
            | left_ =>
                Some {| docId := docId mapping; shareId := shareId mapping;
                        assets := left_; createdAt := createdAt mapping;
                        updatedAt := now |}
            end
        | None => None
        end
      /\ Store.persisted st')
  /\ (d' <> d ->
      AssetRecordManager.getMapping d' st' = AssetRecordManager.getMapping d' st).
Proof.
  intros Hnd st' found. subst st' found.
  split; [|split; [apply RemovalFacts.removeAssetFromDoc_unchanged|]].
  - unfold AssetRecordManager.removeAssetFromDoc, AssetRecordManager.getMapping.
    destruct (AssetRecordManager.Map_get d (AssetRecordManager.mappings st))
      as [mapping|]; [|reflexivity].
    cbn [AssetRecordManager.with_assets assets].
    fold (Store.has_key k).
    destruct (existsb (Store.has_key k) (assets mapping)) eqn:Hex.
    + pose proof (RemovalFacts.filter_some_removed
                    (fun a => negb (Store.has_key k a)) (assets mapping)) as Hlt.
      cbv beta in Hlt.
      rewrite (RemovalFacts.existsb_negb_negb (Store.has_key k)) in Hlt.
      specialize (Hlt Hex).
      change (fun a => negb (String.eqb (s3Key a) k))
        with (fun a => negb (Store.has_key k a)).
      destruct (Nat.eqb_spec
                  (List.length (filter (fun a => negb (Store.has_key k a)) (assets mapping)))
                  (List.length (assets mapping))); [lia | reflexivity].
    + change (fun a => negb (String.eqb (s3Key a) k))
        with (fun a => negb (Store.has_key k a)).
      rewrite RemovalFacts.filter_none_removed.
      * rewrite Nat.eqb_refl. reflexivity.
      * rewrite (RemovalFacts.existsb_negb_negb (Store.has_key k)). exact Hex.
  - split.
    + intros Hfound. split.
      * revert Hfound.
        unfold AssetRecordManager.removeAssetFromDoc, AssetRecordManager.getMapping.
        destruct (AssetRecordManager.Map_get d (AssetRecordManager.mappings st))
          as [mapping|] eqn:Hget; [|discriminate].
        cbn [AssetRecordManager.with_assets AssetRecordManager.with_updatedAt assets
             docId shareId createdAt].
        change (fun a => negb (String.eqb (s3Key a) k))
          with (fun a => negb (Store.has_key k a)).
        destruct (Nat.eqb _ (List.length (assets mapping))); [discriminate|]. intros _.
        cbn [fst AssetRecordManager.save AssetRecordManager.mappings].
        rewrite StoreFacts.Map_set_set.
        destruct (filter (fun a => negb (Store.has_key k a)) (assets mapping))
          as [|a0 left_]; cbn [List.length Nat.eqb].
        -- apply StoreFacts.Map_get_delete_same.
           rewrite (StoreFacts.Map_set_present _ _ _ _ Hget). exact Hnd.
        -- rewrite StoreFacts.Map_get_set, String.eqb_refl. reflexivity.
      * revert Hfound. unfold AssetRecordManager.removeAssetFromDoc.
        destruct (AssetRecordManager.Map_get d (AssetRecordManager.mappings st));
          [|discriminate].
        destruct (Nat.eqb _ _); [discriminate | reflexivity].
    + intros Hne.
      destruct (snd (AssetRecordManager.removeAssetFromDoc d k now st)) eqn:Hfound;
        [|rewrite RemovalFacts.removeAssetFromDoc_unchanged by exact Hfound; reflexivity].
      revert Hfound.
      unfold AssetRecordManager.removeAssetFromDoc, AssetRecordManager.getMapping.
      destruct (AssetRecordManager.Map_get d (AssetRecordManager.mappings st))
        as [mapping|] eqn:Hget; [|discriminate].
      destruct (Nat.eqb _ (List.length (assets mapping))); [discriminate|]. intros _.
      cbn [fst AssetRecordManager.save AssetRecordManager.mappings].
      assert (Hd : String.eqb d d' = false) by (apply String.eqb_neq; congruence).
      destruct (Nat.eqb _ 0).
      * rewrite StoreFacts.Map_get_delete_other by congruence.
        rewrite !StoreFacts.Map_get_set, Hd. reflexivity.
      * rewrite !StoreFacts.Map_get_set, Hd. reflexivity.
Qed.

Lemma removeAssetFromDoc_exact_witness :
  snd (AssetRecordManager.removeAssetFromDoc "doc-1" "p/2-bbbb.png" 9
         (Index.run history AssetRecordManager.init)) = true
  /\ AssetRecordManager.getMapping "doc-1"
       (fst (AssetRecordManager.removeAssetFromDoc "doc-1" "p/2-bbbb.png" 9
               (Index.run history AssetRecordManager.init))) = None.
Proof.
  assert (Hnd : Store.distinct_keys (Index.run history AssetRecordManager.init)).
  { unfold Store.distinct_keys. vm_compute. repeat constructor. intros []. }
  destruct (removeAssetFromDoc_exact "doc-1" "p/2-bbbb.png" 9
              (Index.run history AssetRecordManager.init) "doc-2" Hnd)
    as [Hfound [_ [Hthen _]]].
  split; [rewrite Hfound; reflexivity|].
  rewrite (proj1 (Hthen ltac:(rewrite Hfound; reflexivity))). reflexivity.
Defined.

(** X8.  Every operation of the manager leaves the stored array equal to
    the values of the [Map], in order, when it was so before: an operation
    either writes the index after its change or changes nothing. *)
Theorem writes_follow_changes
  (calls : list (Index.Op * Z)) (st : AssetRecordManager.State) :
  Store.persisted st -> Store.persisted (Index.run calls st).
Proof.
  revert st. induction calls as [|call calls IH]; intros st Hp; [exact Hp|].
  cbn. apply IH, RemovalFacts.step_persisted, Hp.
Qed.

Lemma writes_follow_changes_witness :
  Store.persisted (Index.run history AssetRecordManager.init).
Proof. apply writes_follow_changes. reflexivity. Defined.

Module FilterFacts.

Import AssetRecordManager.





Lemma Map_set_recorded k v m x :
  In x (flat_map (fun kv => assets (snd kv)) (Map_set k v m)) ->
  In x (assets v) \/ In x (flat_map (fun kv => assets (snd kv)) m).
Proof.
  induction m as [|[k0 v0] m IH]; cbn.
  - rewrite app_nil_r. auto.
  - destruct (String.eqb k0 k); cbn; rewrite !in_app_iff; intuition.
Qed.

Lemma Map_set_records k v m x :
  In x (assets v) -> In x (flat_map (fun kv => assets (snd kv)) (Map_set k v m)).
Proof.
  intros Hx. induction m as [|[k0 v0] m IH]; cbn.
  - rewrite app_nil_r. exact Hx.
  - destruct (String.eqb k0 k); cbn; rewrite in_app_iff; auto.
Qed.

Lemma addOrUpdateMapping_mappings d s a now st :
  exists v, assets v = a
            /\ mappings (addOrUpdateMapping d s a now st) = Map_set d v (mappings st).
Proof.
  unfold addOrUpdateMapping. destruct (Map_get d (mappings st)) as [existing|].
  - exists {| docId := docId existing; shareId := s; assets := a;
              createdAt := createdAt existing; updatedAt := now |}.
    split; reflexivity.
  - exists {| docId := d; shareId := s; assets := a; createdAt := now; updatedAt := now |}.
    split; reflexivity.
Qed.

End FilterFacts.


(** X10.  The assets recorded by [addOrUpdateMapping] are found again by
    local path: after the call, [findAssetByLocalPath] answers, for the
    local path of each asset of the list, with a record of that path that
    is in the index; and every record it answers with, for any path, has
    that path and is either one of the list or was recorded before. *)
Theorem addOrUpdateMapping_findAssetByLocalPath
  (d s : string) (a : list AssetUploadRecord) (now : Z)
  (st : AssetRecordManager.State) :
  let st' := AssetRecordManager.addOrUpdateMapping d s a now st in
  (forall asset, In asset a ->
     exists found, AssetRecordManager.findAssetByLocalPath (localPath asset) st' = Some found
                   /\ localPath found = localPath asset /\ In found (recorded st'))
  /\ (forall p found, AssetRecordManager.findAssetByLocalPath p st' = Some found ->
        localPath found = p /\ (In found a \/ In found (recorded st))).
Proof.
  intros st'. subst st'.
  destruct (FilterFacts.addOrUpdateMapping_mappings d s a now st) as [v [Hv Hm]].
  split.
  - intros asset Hin.
    assert (Hrec : In asset (recorded (AssetRecordManager.addOrUpdateMapping d s a now st))).
    { rewrite RemovalFacts.recorded_entries, Hm.
      apply FilterFacts.Map_set_records. rewrite Hv. exact Hin. }
    destruct (findAssetByLocalPath_recorded _ _ asset Hrec eq_refl) as [found Hfound].
    exists found. split; [exact Hfound|].
    destruct (findAssetByLocalPath_found _ _ _ Hfound) as [H1 H2]. auto.
  - intros p found Hfound.
    destruct (findAssetByLocalPath_found _ _ _ Hfound) as [H1 H2]. split; [exact H2|].
    rewrite RemovalFacts.recorded_entries, Hm in H1.
    apply FilterFacts.Map_set_recorded in H1. rewrite Hv in H1.
    rewrite RemovalFacts.recorded_entries. exact H1.
Qed.

(** ** The guards and the transport of the uploader *)

Section Guards.

Context {crypto : SubtleCrypto}.
Variable config : S3Config.

Lemma uploadFile_guard file lp pre w :
  S3UploadService.validateConfig config = false ->
  S3UploadService.uploadFile config file lp pre w
  = reject (if enabled config then "S3 配置不完整" else "S3 存储未启用").
Proof.
  intros Hv. unfold S3UploadService.uploadFile. rewrite Hv.
  destruct (enabled config); reflexivity.
Qed.

Lemma deleteFile_guard k w :
  S3UploadService.validateConfig config = false ->
  S3UploadService.deleteFile config k w
  = reject (if enabled config then "S3 配置不完整" else "S3 存储未启用").
Proof.
  intros Hv. unfold S3UploadService.deleteFile. rewrite Hv.
  destruct (enabled config); reflexivity.
Qed.

Lemma deleteFiles_loop_guard ks net i success failed trace :
  S3UploadService.validateConfig config = false ->
  S3UploadService.deleteFiles_loop config ks net i success failed trace
  = (Resolved (success, (failed ++ ks)%list), trace).
Proof.
  intros Hv. revert i failed trace.
  induction ks as [|k ks IH]; intros i failed trace; cbn [S3UploadService.deleteFiles_loop].
  - rewrite app_nil_r. reflexivity.
  - rewrite (deleteFile_guard k (net i) Hv). cbn. rewrite IH, app_nil_r, <- app_assoc.
    reflexivity.
Qed.

Lemma attempts_guard files net i :
  S3UploadService.validateConfig config = false ->
  successes (attempts config files net i) = []
  /\ failures (attempts config files net i)
     = map (fun f => snd f ++ ": "
                     ++ (if enabled config then "S3 配置不完整" else "S3 存储未启用"))
         files
  /\ traces (attempts config files net i) = [].
Proof.
  intros Hv. revert i. induction files as [|[file lp] files IH]; intros i.
  - split; [|split]; reflexivity.
  - destruct (IH (S i)) as [IH1 [IH2 IH3]].
    unfold successes, failures, traces in *.
    cbn [attempts flat_map fst snd map].
    rewrite (uploadFile_guard file lp None (net i) Hv), IH1, IH2, IH3.
    split; [|split]; reflexivity.
Qed.

End Guards.

(** X11.  With a configuration that is switched off or incomplete, nothing
    goes to the network: [uploadFile] and [deleteFile] are rejected before
    any request, with "S3 存储未启用" when the service is switched off and
    "S3 配置不完整" when it is enabled but a field is empty; [uploadFiles]
    returns no record and shows one notification that lists every file
    with that message; [deleteFiles] reports every key as failed. *)
Theorem incomplete_config_sends_nothing
  (crypto : SubtleCrypto) (config : S3Config) :
  S3UploadService.validateConfig config = false ->
  let message := if enabled config then "S3 配置不完整" else "S3 存储未启用" in
  (forall file lp pre w,
      S3UploadService.uploadFile config file lp pre w = (Rejected message, []))
  /\ (forall k w, S3UploadService.deleteFile config k w = (Rejected message, []))
  /\ (forall files net,
         S3UploadService.uploadFiles config files net
         = (Resolved [], notification (map (fun f => snd f ++ ": " ++ message) files)))
  /\ (forall ks net,
         S3UploadService.deleteFiles config ks net = (Resolved ([], ks), [])).
Proof.
  intros Hv message. subst message. split; [|split; [|split]].
  - intros. apply uploadFile_guard, Hv.
  - intros. apply deleteFile_guard, Hv.
  - intros files net. rewrite uploadFiles_spec.
    destruct (attempts_guard config files net 0 Hv) as [H1 [H2 H3]].
    rewrite H1, H2, H3. reflexivity.
  - intros ks net. unfold S3UploadService.deleteFiles.
    apply deleteFiles_loop_guard, Hv.
Qed.

Lemma incomplete_config_sends_nothing_witness :
  S3UploadService.uploadFile (crypto := ref_crypto) config_no_region file_abc
    "assets/abc.png" None (world 0 (xhr_load 200 "") relay_down)
  = (Rejected "S3 配置不完整", []).
Proof.
  apply (proj1 (incomplete_config_sends_nothing ref_crypto config_no_region eq_refl)).
Defined.

Section Relay.

Context {crypto : SubtleCrypto}.
Variable config : S3Config.

Lemma performUpload_unfold file s3Key w :
  S3UploadService.performUpload config file s3Key w
  = (perform (XhrSend "PUT" (objectUrl config s3Key) (putHeaders config file s3Key w)) ;;;
     match xhr w with
     | xhr_load status responseText =>
         if (200 <=? status) && (status <? 300)
         then resolve (remoteUrl config s3Key)
         else reject ("S3 上传失败: HTTP " ++ JS.String_ status ++ " - " ++ responseText)
     | xhr_error =>
         S3UploadService.uploadViaForwardProxy config file s3Key
           (putHeaders config file s3Key w) w
     | xhr_abort => reject "上传已取消"
     end).
Proof.
  unfold S3UploadService.performUpload. rewrite final_url_remoteUrl. reflexivity.
Qed.

Lemma uploadFile_unfold file lp pre w :
  enabled config = true ->
  S3UploadService.validateConfig config = true ->
  S3UploadService.uploadFile config file lp pre w
  = (s3Url <- lift (Net lp)
                (S3UploadService.performUpload config file (objectKey config file pre w) w) ;;
     resolve (recordOf config file lp pre w s3Url)).
Proof.
  intros He Hv. unfold S3UploadService.uploadFile. rewrite He, Hv. reflexivity.
Qed.

(** The signers never produce a [Host] header. *)
Lemma putHeaders_no_host file s3Key w :
  filter (fun kv => negb (S3UploadService.is_host_header (fst kv)))
    (putHeaders config file s3Key w)
  = putHeaders config file s3Key w.
Proof.
  unfold putHeaders. destruct (S3UploadService.provider_or_default config); reflexivity.
Qed.

Lemma relay_without_token_rejected file s3Key headers w :
  has_token w = false ->
  S3UploadService.uploadViaForwardProxy config file s3Key headers w
  = reject "forwardProxy 失败：缺少思源内核 Token".
Proof.
  unfold has_token. intros Ht. unfold S3UploadService.uploadViaForwardProxy.
  rewrite Ht. reflexivity.
Qed.

End Relay.

(** X12.  An answer to the direct PUT is final: unless the PUT fails at the
    transport level, [uploadFile] sends that one request and nothing else -
    no relay - and settles by it: a 2xx status resolves with the record,
    any other status is rejected with the status and the response body, an
    abort is rejected with "上传已取消". *)
Theorem direct_answer_is_final
  (crypto : SubtleCrypto) (config : S3Config)
  (file : File) (lp : string) (pre : option string) (w : World) :
  enabled config = true ->
  S3UploadService.validateConfig config = true ->
  xhr w <> xhr_error ->
  let key := objectKey config file pre w in
  effects (S3UploadService.uploadFile config file lp pre w)
  = [Net lp (XhrSend "PUT" (objectUrl config key) (putHeaders config file key w))]
  /\ settled (S3UploadService.uploadFile config file lp pre w)
     = match xhr w with
       | xhr_load status body =>
           if (200 <=? status) && (status <? 300)
           then Resolved (recordOf config file lp pre w (remoteUrl config key))
           else Rejected ("S3 上传失败: HTTP " ++ JS.String_ status ++ " - " ++ body)
       | _ => Rejected "上传已取消"
       end.
Proof.
  intros He Hv Hx key. subst key.
  rewrite (uploadFile_unfold config file lp pre w He Hv), performUpload_unfold.
  destruct (xhr w) as [status body| |]; [|congruence|].
  - destruct ((200 <=? status) && (status <? 300)); split; reflexivity.
  - split; reflexivity.
Qed.

Lemma direct_answer_is_final_witness :
  settled (S3UploadService.uploadFile (crypto := ref_crypto) sample_config file_abc
             "assets/abc.png" None (world 7 (xhr_load 503 "SlowDown") relay_accepts))
  = Rejected "S3 上传失败: HTTP 503 - SlowDown".
Proof.
  refine (proj2 (direct_answer_is_final ref_crypto sample_config file_abc "assets/abc.png"
                   None (world 7 (xhr_load 503 "SlowDown") relay_accepts)
                   eq_refl eq_refl _)).
  discriminate.
Defined.

(** X13.  When the direct PUT fails at the transport level and the kernel
    token is configured, the relay is asked to repeat the very request: the
    same URL, the PUT method and the same headers, none dropped, with the
    bytes of the file in base64 as the payload; these two requests are all
    that [uploadFile] sends, and it settles as the relay call does. *)
Theorem relay_repeats_direct_request
  (crypto : SubtleCrypto) (config : S3Config)
  (file : File) (lp : string) (pre : option string) (w : World) :
  enabled config = true ->
  S3UploadService.validateConfig config = true ->
  xhr w = xhr_error ->
  has_token w = true ->
  let key := objectKey config file pre w in
  let headers := putHeaders config file key w in
  effects (S3UploadService.uploadFile config file lp pre w)
  = [ Net lp (XhrSend "PUT" (objectUrl config key) headers);
      Net lp (ForwardProxyPost (objectUrl config key) "PUT" headers
                (JS.btoa (arrayBuffer file))) ]
  /\ settled (S3UploadService.uploadFile config file lp pre w)
     = match settled (S3UploadService.uploadViaForwardProxy config file key headers w) with
       | Resolved url => Resolved (recordOf config file lp pre w url)
       | Rejected m => Rejected m
       | Pending => Pending
       end.
Proof.
  intros He Hv Hx Ht key headers. subst key headers.
  rewrite (uploadFile_unfold config file lp pre w He Hv).
  rewrite effects_await_resolve, settled_await_resolve, effects_lift, settled_lift.
  rewrite performUpload_unfold, Hx, effects_perform_then, settled_perform_then.
  rewrite (relay_request config _ _ _ _ Ht), putHeaders_no_host.
  split; reflexivity.
Qed.

Lemma relay_repeats_direct_request_witness :
  map request_line
    (effects (S3UploadService.uploadFile (crypto := ref_crypto) sample_config file_abc
                "assets/abc.png" (Some "ba7816bf8f01cfea") (world 7 xhr_error relay_accepts)))
  = [ "assets/abc.png: PUT https://b.s3.example.com/p/7-ba7816bf8f01cfea.png";
      "assets/abc.png: relayed PUT https://b.s3.example.com/p/7-ba7816bf8f01cfea.png" ].
Proof.
  rewrite (proj1 (relay_repeats_direct_request ref_crypto sample_config file_abc
                    "assets/abc.png" (Some "ba7816bf8f01cfea")
                    (world 7 xhr_error relay_accepts)
                    eq_refl eq_refl eq_refl eq_refl)).
  reflexivity.
Defined.

(** X14.  Without a kernel token there is no relay: when the direct PUT
    fails at the transport level and the token is absent or empty,
    [uploadFile] is rejected with "forwardProxy 失败：缺少思源内核 Token"
    and the direct PUT is the only request sent, whatever the relay would
    have answered. *)
Theorem relay_needs_token
  (crypto : SubtleCrypto) (config : S3Config)
  (file : File) (lp : string) (pre : option string) (w : World) :
  enabled config = true ->
  S3UploadService.validateConfig config = true ->
  xhr w = xhr_error ->
  has_token w = false ->
  let key := objectKey config file pre w in
  S3UploadService.uploadFile config file lp pre w
  = (Rejected "forwardProxy 失败：缺少思源内核 Token",
     [Net lp (XhrSend "PUT" (objectUrl config key) (putHeaders config file key w))]).
Proof.
  intros He Hv Hx Ht key. subst key.
  rewrite (uploadFile_unfold config file lp pre w He Hv), performUpload_unfold, Hx.
  rewrite (relay_without_token_rejected config _ _ _ _ Ht). reflexivity.
Qed.

Lemma relay_needs_token_witness :
  settled (S3UploadService.uploadFile (crypto := ref_crypto) sample_config file_abc
             "assets/abc.png" None (world_without_token 7 xhr_error relay_accepts))
  = Rejected "forwardProxy 失败：缺少思源内核 Token".
Proof.
  rewrite (relay_needs_token ref_crypto sample_config file_abc "assets/abc.png" None
             (world_without_token 7 xhr_error relay_accepts)
             eq_refl eq_refl eq_refl eq_refl).
  reflexivity.
Defined.

(** X15.  The relay call resolves exactly when the kernel token is
    configured, the kernel answers, the answer is [ok] and its body, when
    announced as JSON, carries no [code] or the code 0; it then resolves
    with the public URL of the object.  In every other case it is
    rejected: with the message of the failed [fetch], or with
    "forwardProxy 上传失败: " followed by the [msg] of a JSON body when
    there is a non-empty one and by the HTTP status otherwise. *)
Theorem relay_verdict
  (crypto : SubtleCrypto) (config : S3Config)
  (file : File) (s3Key : string) (headers : Headers) (w : World) :
  settled (S3UploadService.uploadViaForwardProxy config file s3Key headers w)
  = if negb (has_token w) then Rejected "forwardProxy 失败：缺少思源内核 Token"
    else match forwardProxy w with
         | fetch_failure m => Rejected m
         | fetch_response resp =>
             if relay_accepted resp then Resolved (remoteUrl config s3Key)
             else Rejected ("forwardProxy 上传失败: "
                            ++ (if is_json resp
                                then JS.opt_or_else (msg (relay_result resp))
                                       ("HTTP " ++ JS.String_ (resp_status resp))
                                else "HTTP " ++ JS.String_ (resp_status resp)))
         end.
Proof.
  unfold S3UploadService.uploadViaForwardProxy, has_token.
  destruct (JS.truthy (JS.opt_or_else (siyuanToken w) "")); [|reflexivity].
  cbn [negb]. rewrite settled_perform_then.
  destruct (forwardProxy w) as [resp|m]; [|reflexivity].
  rewrite final_url_remoteUrl.
  unfold relay_accepted, is_json, relay_result.
  destruct (JS.includes "application/json" (JS.opt_or_else (resp_content_type resp) ""));
    destruct (ok resp); cbn [negb orb andb];
    try reflexivity;
    destruct (code match resp_json resp with Some r => r | None => _ end) as [c|];
    try reflexivity; destruct (c =? 0); reflexivity.
Qed.

Section Deletion.

Context {crypto : SubtleCrypto}.
Variable config : S3Config.
Hypothesis config_enabled : enabled config = true.
Hypothesis config_valid : S3UploadService.validateConfig config = true.

Lemma deleteFile_outcome k w :
  xhr w <> xhr_abort ->
  exists message headers,
    S3UploadService.deleteFile config k w
    = (if deleted w then Resolved tt else Rejected message,
       [Net k (XhrSend "DELETE" (objectUrl config k) headers)]).
Proof.
  intros Hx. rewrite (deleteFile_valid config k w config_enabled config_valid).
  destruct (performDelete_effects config k w) as [headers Heff].
  exists (match settled (S3UploadService.performDelete config k w) with
          | Rejected m => m
          | _ => ""
          end), headers.
  unfold lift. fold (effects (S3UploadService.performDelete config k w)).
  rewrite Heff. cbn [map]. f_equal.
  change (fst (S3UploadService.performDelete config k w))
    with (settled (S3UploadService.performDelete config k w)).
  unfold deleted. destruct (xhr w) as [status body| |] eqn:Hw; [| |congruence].
  - rewrite (performDelete_load config k w status body Hw).
    destruct ((200 <=? status) && (status <? 300)); cbn [orb]; [reflexivity|].
    destruct (status =? 404); reflexivity.
  - unfold S3UploadService.performDelete. rewrite Hw. reflexivity.
Qed.

Lemma deleteFiles_loop_partition ks net : forall i success failed trace,
  (forall j, (i <= j < i + List.length ks)%nat -> xhr (net j) <> xhr_abort) ->
  settled (S3UploadService.deleteFiles_loop config ks net i success failed trace)
  = Resolved ((success ++ map snd (filter (fun ik => deleted (net (fst ik))) (indexed i ks)))%list,
              (failed ++ map snd (filter (fun ik => negb (deleted (net (fst ik))))
                                    (indexed i ks)))%list)
  /\ map request_line
       (effects (S3UploadService.deleteFiles_loop config ks net i success failed trace))
     = (map request_line trace
        ++ map (fun k => (k ++ ": DELETE " ++ objectUrl config k)%string) ks)%list.
Proof.
  induction ks as [|k ks IH]; intros i success failed trace Hx.
  - cbn. rewrite !app_nil_r. split; reflexivity.
  - cbn [S3UploadService.deleteFiles_loop].
    destruct (deleteFile_outcome k (net i)) as [message [headers Hout]].
    { apply Hx. cbn. lia. }
    rewrite Hout. unfold indexed. cbn [List.length seq combine filter fst snd].
    assert (Hx' : forall j, (S i <= j < S i + List.length ks)%nat ->
                            xhr (net j) <> xhr_abort).
    { intros j Hj. apply Hx. cbn. lia. }
    destruct (deleted (net i)); cbn [negb map snd].
    + destruct (IH (S i) (success ++ [k])%list failed
                  (trace ++ [Net k (XhrSend "DELETE" (objectUrl config k) headers)])%list
                  Hx') as [IH1 IH2].
      rewrite IH1, IH2. unfold indexed.
      rewrite <- !app_assoc, map_app, <- app_assoc. split; reflexivity.
    + destruct (IH (S i) success (failed ++ [k])%list
                  (trace ++ [Net k (XhrSend "DELETE" (objectUrl config k) headers)])%list
                  Hx') as [IH1 IH2].
      rewrite IH1, IH2. unfold indexed.
      rewrite <- !app_assoc, map_app, <- app_assoc. split; reflexivity.
Qed.

End Deletion.

(** X16.  [deleteFiles] sends one DELETE per key, in order, each at the URL
    of its object, and sorts the keys by the answers: a key is reported as
    a success when its DELETE was answered by a 2xx status or by 404, as a
    failure otherwise; both lists keep the order of the batch, every key is
    in exactly one of them, and a failure does not stop the batch. *)
Theorem deleteFiles_partition
  (crypto : SubtleCrypto) (config : S3Config) (s3Keys : list string) (net : nat -> World) :
  enabled config = true ->
  S3UploadService.validateConfig config = true ->
  (forall i, (i < List.length s3Keys)%nat -> xhr (net i) <> xhr_abort) ->
  let success :=
    map snd (filter (fun ik => deleted (net (fst ik))) (indexed 0 s3Keys)) in
  let failed :=
    map snd (filter (fun ik => negb (deleted (net (fst ik)))) (indexed 0 s3Keys)) in
  settled (S3UploadService.deleteFiles config s3Keys net) = Resolved (success, failed)
  /\ map request_line (effects (S3UploadService.deleteFiles config s3Keys net))
     = map (fun k => k ++ ": DELETE " ++ objectUrl config k) s3Keys
  /\ (List.length success + List.length failed = List.length s3Keys)%nat.
Proof.
  intros He Hv Hx success failed. subst success failed.
  unfold S3UploadService.deleteFiles.
  destruct (deleteFiles_loop_partition config He Hv s3Keys net 0 [] [] []) as [H1 H2].
  { intros j Hj. apply Hx. lia. }
  split; [exact H1|]. split; [exact H2|].
  rewrite !length_map.
  pose proof (RemovalFacts.filter_removed_count
                (fun ik : nat * string => deleted (net (fst ik))) (indexed 0 s3Keys)) as Hc.
  rewrite Hc. unfold indexed. rewrite length_combine, length_seq. lia.
Qed.

Lemma deleteFiles_partition_witness :
  settled (S3UploadService.deleteFiles (crypto := ref_crypto) sample_config
             ["p/1-a.png"; "p/2-b.png"; "p/3-c.png"]
             (fun i => world 0 (xhr_load (404 - Z.of_nat i) "") relay_down))
  = Resolved (["p/1-a.png"], ["p/2-b.png"; "p/3-c.png"]).
Proof.
  refine (proj1 (deleteFiles_partition ref_crypto sample_config
                   ["p/1-a.png"; "p/2-b.png"; "p/3-c.png"]
                   (fun i => world 0 (xhr_load (404 - Z.of_nat i) "") relay_down)
                   eq_refl eq_refl _)).
  intros i _. discriminate.
Defined.

(** X17.  The earlier revision of the transport has no relay: its
    [performUpload] sends the one PUT, at the same URL as the current
    revision, and nothing else; it settles as the current revision does
    whenever the PUT is answered or aborted, and rejects a transport
    failure with "网络错误，上传失败" where the current revision turns to
    the relay. *)
Theorem legacy_upload_never_relayed
  (crypto : SubtleCrypto) (config : S3Config) (file : File) (s3Key : string) (w : World) :
  effects (S3UploadServiceLegacy.performUpload config file s3Key w)
  = [XhrSend "PUT" (objectUrl config s3Key)
       (S3UploadServiceLegacy.generateSignedHeaders config "PUT" s3Key
          (contentTypeOf file) (file_size file) (date w))]
  /\ (xhr w <> xhr_error ->
      settled (S3UploadServiceLegacy.performUpload config file s3Key w)
      = settled (S3UploadService.performUpload config file s3Key w))
  /\ (xhr w = xhr_error ->
      settled (S3UploadServiceLegacy.performUpload config file s3Key w)
      = Rejected "网络错误，上传失败"
      /\ settled (S3UploadService.performUpload config file s3Key w)
         = settled (S3UploadService.uploadViaForwardProxy config file s3Key
                      (putHeaders config file s3Key w) w)).
Proof.
  rewrite performUpload_unfold.
  unfold S3UploadServiceLegacy.performUpload. rewrite final_url_remoteUrl.
  rewrite effects_perform_then, !settled_perform_then.
  destruct (xhr w) as [status body| |]; (split; [|split]); try congruence;
    try reflexivity.
  - destruct ((200 <=? status) && (status <? 300)); reflexivity.
  - intros _. split; reflexivity.
Qed.

(** ** File names *)

Module NameFacts.

Lemma lastIndexOf_from_dotless s i found :
  dotless s = true -> JS.lastIndexOf_from "." s i found = found.
Proof.
  revert i found. induction s as [|a s IH]; intros i found H; cbn in *; [reflexivity|].
  apply andb_true_iff in H as [Ha Hs]. apply negb_true_iff in Ha. rewrite Ha.
  apply IH, Hs.
Qed.

Lemma lastIndexOf_from_app c a b : forall i found,
  JS.lastIndexOf_from c (a ++ b) i found
  = JS.lastIndexOf_from c b (i + String.length a) (JS.lastIndexOf_from c a i found).
Proof.
  induction a as [|x a IH]; intros i found; cbn.
  - rewrite Nat.add_0_r. reflexivity.
  - rewrite IH. f_equal. lia.
Qed.

Lemma lastIndexOf_last_dot stem rest :
  dotless rest = true ->
  JS.lastIndexOf "." (stem ++ "." ++ rest) = Some (String.length stem).
Proof.
  intros H. unfold JS.lastIndexOf. rewrite lastIndexOf_from_app. cbn.
  apply lastIndexOf_from_dotless, H.
Qed.

Lemma substring_from_app a b : JS.substring_from (String.length a) (a ++ b) = b.
Proof. induction a as [|x a IH]; cbn; [destruct b; reflexivity | exact IH]. Qed.

(** A string is without a dot, or has a last dot. *)
Lemma last_dot s :
  dotless s = true
  \/ exists stem rest, s = stem ++ "." ++ rest /\ dotless rest = true.
Proof.
  induction s as [|a s IH]; [left; reflexivity|].
  destruct IH as [Hs|[stem [rest [-> Hrest]]]].
  - cbn [dotless]. destruct (Ascii.eqb_spec a ".") as [->|Hne].
    + right. exists "", s. split; [reflexivity | exact Hs].
    + left. rewrite Hs. reflexivity.
  - right. exists (String a stem), rest. split; [reflexivity | exact Hrest].
Qed.

Lemma getFileExtension_dotless s :
  dotless s = true -> S3UploadService.getFileExtension s = "".
Proof.
  intros H. unfold S3UploadService.getFileExtension, JS.lastIndexOf.
  rewrite lastIndexOf_from_dotless by exact H. reflexivity.
Qed.

Lemma getFileExtension_after_stem stem rest :
  dotless rest = true ->
  S3UploadService.getFileExtension (stem ++ "." ++ rest)
  = match stem with EmptyString => "" | String _ _ => "." ++ rest end.
Proof.
  intros H. unfold S3UploadService.getFileExtension.
  rewrite (lastIndexOf_last_dot stem rest H).
  destruct stem as [|a stem]; [reflexivity|].
  cbn [String.length Nat.ltb Nat.leb].
  apply (substring_from_app (String a stem)).
Qed.

Lemma lookup_mimeTypes ext :
  In (JS.opt_or_else (S3UploadService.lookup ext S3UploadService.mimeTypes)
        "application/octet-stream")
    ("application/octet-stream" :: map snd S3UploadService.mimeTypes).
Proof.
  unfold S3UploadService.mimeTypes.
  cbn [S3UploadService.lookup map snd].
  repeat match goal with
         | |- context [String.eqb ext ?k] => destruct (String.eqb ext k); [cbn; tauto|]
         end.
  left. reflexivity.
Qed.

Lemma guessContentType_truthy filename :
  JS.truthy (S3UploadService.guessContentType filename) = true.
Proof.
  unfold S3UploadService.guessContentType.
  pose proof (lookup_mimeTypes
                (JS.toLowerCase (S3UploadService.getFileExtension filename))) as Hin.
  cbn [map snd S3UploadService.mimeTypes In] in Hin.
  repeat (destruct Hin as [<-|Hin]; [reflexivity|]). destruct Hin.
Qed.

Lemma or_else_truthy a b : JS.truthy b = true -> JS.truthy (JS.or_else a b) = true.
Proof. intros Hb. unfold JS.or_else. destruct (JS.truthy a) eqn:Ha; assumption. Qed.

End NameFacts.

(** X18.  [getFileExtension] returns the part of the name from its last
    dot on, the dot included, and the empty string when the name has no
    dot or when its only dot is its first character: the extension is
    always a suffix of the name, and it is empty or a dot followed by
    characters other than a dot. *)
Theorem getFileExtension_last_dot (filename : string) :
  (dotless filename = true -> S3UploadService.getFileExtension filename = "")
  /\ (forall rest, dotless rest = true ->
        S3UploadService.getFileExtension ("." ++ rest) = "")
  /\ (forall stem rest, stem <> "" -> dotless rest = true ->
        S3UploadService.getFileExtension (stem ++ "." ++ rest) = "." ++ rest)
  /\ (exists stem, filename = stem ++ S3UploadService.getFileExtension filename)
  /\ (S3UploadService.getFileExtension filename = ""
      \/ exists rest, dotless rest = true
                      /\ S3UploadService.getFileExtension filename = "." ++ rest).
Proof.
  split; [apply NameFacts.getFileExtension_dotless|].
  split; [intros rest H; apply (NameFacts.getFileExtension_after_stem "" rest H)|].
  split.
  { intros stem rest Hstem H. rewrite (NameFacts.getFileExtension_after_stem stem rest H).
    destruct stem; [congruence | reflexivity]. }
  destruct (NameFacts.last_dot filename) as [H|[stem [rest [-> H]]]].
  - rewrite (NameFacts.getFileExtension_dotless _ H). split.
    + exists filename. rewrite append_nil_r. reflexivity.
    + left. reflexivity.
  - rewrite (NameFacts.getFileExtension_after_stem stem rest H).
    destruct stem as [|a stem].
    + split; [exists ("." ++ rest); rewrite append_nil_r; reflexivity | left; reflexivity].
    + split; [exists (String a stem); reflexivity|].
      right. exists rest. split; [exact H | reflexivity].
Qed.

(** X19.  The content type of an upload is never empty: it is the type of
    the file when the file has one, and otherwise the entry of the MIME
    table for the lower-cased extension of the name, or
    "application/octet-stream"; it is what the record of the upload holds
    and what the PUT announces in its [Content-Type] header, under both
    signature schemes. *)
Theorem contentType_never_empty
  (crypto : SubtleCrypto) (config : S3Config)
  (file : File) (lp : string) (pre : option string) (w : World) (s3Key url : string) :
  contentTypeOf file <> ""
  /\ (type file <> "" -> contentTypeOf file = type file)
  /\ (type file = "" ->
      In (contentTypeOf file)
        ("application/octet-stream" :: map snd S3UploadService.mimeTypes))
  /\ (type file = "" -> dotless (name file) = true ->
      contentTypeOf file = "application/octet-stream")
  /\ (forall stem rest,
         type file = "" -> name file = stem ++ "." ++ rest -> stem <> "" ->
         dotless rest = true ->
         contentTypeOf file
         = JS.opt_or_else
             (S3UploadService.lookup ("." ++ JS.toLowerCase rest) S3UploadService.mimeTypes)
             "application/octet-stream")
  /\ contentType (recordOf config file lp pre w url) = contentTypeOf file
  /\ S3UploadService.lookup "Content-Type" (putHeaders config file s3Key w)
     = Some (contentTypeOf file).
Proof.
  assert (Hne : contentTypeOf file <> "").
  { pose proof (NameFacts.or_else_truthy (type file) _
                  (NameFacts.guessContentType_truthy (name file))) as Ht.
    unfold contentTypeOf. intros Heq. rewrite Heq in Ht. discriminate. }
  split; [exact Hne|]. split; [|split; [|split; [|split; [|split]]]].
  - unfold contentTypeOf, JS.or_else. destruct (type file); [congruence | reflexivity].
  - intros Ht. unfold contentTypeOf. rewrite Ht. apply NameFacts.lookup_mimeTypes.
  - intros Ht Hd. unfold contentTypeOf, S3UploadService.guessContentType.
    rewrite Ht, (NameFacts.getFileExtension_dotless _ Hd). reflexivity.
  - intros stem rest Ht Hn Hs Hd. unfold contentTypeOf, S3UploadService.guessContentType.
    rewrite Ht, Hn, (NameFacts.getFileExtension_after_stem stem rest Hd).
    destruct stem; [congruence | reflexivity].
  - reflexivity.
  - unfold putHeaders. fold (contentTypeOf file).
    destruct (S3UploadService.provider_or_default config); [reflexivity|].
    cbn. unfold JS.or_else. destruct (contentTypeOf file); [congruence | reflexivity].
Qed.

(** X20.  Under the OSS scheme the PUT signs the content type that it
    announces, and the DELETE does not: [performUpload] sends the headers
    of [generateOssHeaders] for the content type of the file, which is the
    third line of the signed string and the [Content-Type] header alike,
    whereas [performDelete] signs an empty content-type line and sends
    "application/octet-stream" in the header. *)
Theorem oss_signed_content_type
  (crypto : SubtleCrypto) (config : S3Config) (file : File) (s3Key : string) (w : World) :
  provider config = Some oss ->
  let date := toUTCString (date w) in
  let resource := "/" ++ bucket config ++ "/" ++ s3Key in
  let signed method contentType :=
    S3UploadService.hmacSha1Base64 (secretAccessKey config)
      (method ++ LF ++ LF ++ contentType ++ LF ++ date ++ LF ++ resource) in
  effects (S3UploadService.performUpload config file s3Key w)
  = XhrSend "PUT" (objectUrl config s3Key)
      [ ("Date", date);
        ("Content-Type", contentTypeOf file);
        ("Authorization",
         "OSS " ++ accessKeyId config ++ ":" ++ signed "PUT" (contentTypeOf file)) ]
    :: match xhr w with
       | xhr_error =>
           effects (S3UploadService.uploadViaForwardProxy config file s3Key
                      (putHeaders config file s3Key w) w)
       | _ => []
       end
  /\ effects (S3UploadService.performDelete config s3Key w)
     = [ XhrSend "DELETE" (objectUrl config s3Key)
           [ ("Date", date);
             ("Content-Type", "application/octet-stream");
             ("Authorization", "OSS " ++ accessKeyId config ++ ":" ++ signed "DELETE" "") ] ].
Proof.
  intros Hp date resource signed. subst date resource signed.
  assert (Hct : JS.or_else (contentTypeOf file) "application/octet-stream"
                = contentTypeOf file).
  { pose proof (NameFacts.or_else_truthy (type file) _
                  (NameFacts.guessContentType_truthy (name file))) as Ht.
    fold (contentTypeOf file) in Ht. unfold JS.or_else at 1. rewrite Ht. reflexivity. }
  split.
  - rewrite performUpload_unfold, effects_perform_then.
    unfold putHeaders, S3UploadService.provider_or_default. rewrite Hp.
    fold (contentTypeOf file).
    unfold S3UploadService.generateOssHeaders, S3UploadService.ossStringToSign.
    rewrite Hct. cbn [JS.join String.concat].
    replace (("PUT" ++ LF ++ "" ++ LF ++ contentTypeOf file ++ LF
              ++ toUTCString (date w) ++ LF ++ "" ++ "/" ++ bucket config ++ "/" ++ s3Key))
      with ("PUT" ++ LF ++ LF ++ contentTypeOf file ++ LF
              ++ toUTCString (date w) ++ LF ++ "/" ++ bucket config ++ "/" ++ s3Key)
      by reflexivity.
    f_equal. destruct (xhr w) as [status body| |]; try reflexivity.
    destruct ((200 <=? status) && (status <? 300)); reflexivity.
  - unfold S3UploadService.performDelete, S3UploadService.provider_or_default.
    rewrite Hp. rewrite effects_perform_then.
    unfold S3UploadService.generateOssHeaders, S3UploadService.ossStringToSign.
    cbn [JS.join String.concat].
    destruct (xhr w) as [status body| |]; try reflexivity.
    destruct ((200 <=? status) && (status <? 300)); [reflexivity|].
    destruct (status =? 404); reflexivity.
Qed.

Lemma oss_signed_content_type_witness :
  map (fun r => match r with
                | XhrSend _ _ headers => S3UploadService.lookup "Content-Type" headers
                | _ => None
                end)
    (effects (S3UploadService.performDelete (crypto := ref_crypto) sample_config_oss
                "p/1-a.png" (world 0 (xhr_load 204 "") relay_down)))
  = [Some "application/octet-stream"].
Proof.
  rewrite (proj2 (oss_signed_content_type ref_crypto sample_config_oss file_abc "p/1-a.png"
                    (world 0 (xhr_load 204 "") relay_down) eq_refl)).
  reflexivity.
Defined.

(** ** Timestamps and signatures *)

Module StampFacts.

Lemma pad2_digits n : 0 <= n < 100 -> matches (digits 2) (S3UploadService.pad2 n) = true.
Proof.
  apply (holds_below (fun n => matches (digits 2) (S3UploadService.pad2 n)) 100).
  vm_compute. reflexivity.
Qed.

Lemma year_digits y : 1000 <= y < 10000 -> matches (digits 4) (JS.String_ y) = true.
Proof.
  intros Hy.
  apply (check_from_spec (fun y => matches (digits 4) (JS.String_ y))
           (N.to_nat 9000) 1000); [vm_compute; reflexivity|].
  rewrite N_nat_Z. lia.
Qed.

Lemma matches_length cs : forall s, matches cs s = true -> String.length s = List.length cs.
Proof.
  induction cs as [|c cs IH]; intros [|a s] H; cbn in *; try discriminate; [reflexivity|].
  apply andb_true_iff in H as [_ H]. rewrite (IH _ H). reflexivity.
Qed.

Lemma substring_prefix a b : substring 0 (String.length a) (a ++ b) = a.
Proof.
  induction a as [|x a IH]; cbn; [destruct b; reflexivity | rewrite IH; reflexivity].
Qed.

Lemma formatDateStamp_digits d :
  valid_date d -> 1000 <= getUTCFullYear d ->
  matches (digits 8) (S3UploadService.formatDateStamp d) = true.
Proof.
  intros [Hy [Hm [Hd _]]] Hy'. unfold S3UploadService.formatDateStamp.
  change (digits 8) with (digits 4 ++ digits 2 ++ digits 2)%list.
  apply matches_app; [apply year_digits; lia|].
  apply matches_app; apply pad2_digits; lia.
Qed.

End StampFacts.

(** X21.  For a date of the years 1000 to 9999, [formatAmzDate] is
    sixteen characters long - eight digits, a [T], six digits and a [Z] -
    and [formatDateStamp] is its first eight characters, digits all, so
    that the date of the credential scope is the date of the [x-amz-date]
    header. *)
Theorem formatAmzDate_shape (d : Date) :
  valid_date d ->
  1000 <= getUTCFullYear d ->
  matches amz_date_shape (S3UploadService.formatAmzDate d) = true
  /\ String.length (S3UploadService.formatAmzDate d) = 16%nat
  /\ matches (digits 8) (S3UploadService.formatDateStamp d) = true
  /\ S3UploadService.formatDateStamp d
     = substring 0 8 (S3UploadService.formatAmzDate d).
Proof.
  intros Hd Hy.
  pose proof (StampFacts.formatDateStamp_digits d Hd Hy) as Hstamp.
  assert (Hshape : matches amz_date_shape (S3UploadService.formatAmzDate d) = true).
  { destruct Hd as [_ [_ [_ [_ [Hh [Hm Hs]]]]]].
    unfold S3UploadService.formatAmzDate, amz_date_shape.
    apply matches_app; [exact Hstamp|].
    apply (matches_app (literally "T") _ "T"); [reflexivity|].
    change (digits 6) with (digits 2 ++ digits 2 ++ digits 2)%list.
    rewrite <- !app_assoc.
    apply matches_app; [apply StampFacts.pad2_digits; lia|].
    apply matches_app; [apply StampFacts.pad2_digits; lia|].
    apply matches_app; [apply StampFacts.pad2_digits; lia | reflexivity]. }
  split; [exact Hshape|]. split; [|split; [exact Hstamp|]].
  - rewrite (StampFacts.matches_length _ _ Hshape). reflexivity.
  - unfold S3UploadService.formatAmzDate.
    pose proof (StampFacts.matches_length _ _ Hstamp) as Hlen.
    change (List.length (digits 8)) with 8%nat in Hlen.
    rewrite <- Hlen. rewrite StampFacts.substring_prefix. reflexivity.
Qed.

Lemma formatAmzDate_shape_witness :
  S3UploadService.formatAmzDate sample_date = "20240102T030405Z"
  /\ matches amz_date_shape (S3UploadService.formatAmzDate sample_date) = true.
Proof.
  split; [reflexivity|].
  apply (formatAmzDate_shape sample_date); [|cbn; lia].
  unfold valid_date. cbn. lia.
Defined.

(** X22.  Whatever the configuration, the request and the date, the
    Signature V4 signature is 64 lower-case hexadecimal digits - the
    HMAC-SHA256, under a signing key of 32 bytes, of a string whose last
    line is the 64-digit SHA-256 of the canonical request - in the current
    and in the earlier revision. *)
Theorem signature_shape
  (crypto : SubtleCrypto) (config : S3Config) (method key : string) (d : Date) :
  let hex64 s :=
    String.length s = 64%nat /\ forallb is_lower_hex (list_ascii_of_string s) = true in
  hex64 (S3UploadService.signature config method key d)
  /\ hex64 (S3UploadServiceLegacy.signature config method key d)
  /\ hex64 (S3UploadService.sha256
              (S3UploadService.canonicalRequest config method key
                 (S3UploadService.formatAmzDate d)))
  /\ List.length
       (S3UploadService.getSignatureKey (secretAccessKey config)
          (S3UploadService.formatDateStamp d) (region config) "s3") = 32%nat
  /\ S3UploadService.stringToSign config method key d
     = "AWS4-HMAC-SHA256" ++ LF ++ S3UploadService.formatAmzDate d ++ LF
       ++ S3UploadService.formatDateStamp d ++ "/" ++ region config ++ "/s3/aws4_request"
       ++ LF
       ++ S3UploadService.sha256
            (S3UploadService.canonicalRequest config method key
               (S3UploadService.formatAmzDate d)).
Proof.
  intros hex64. subst hex64. cbv beta.
  assert (Hhex : forall bs, List.length bs = 32%nat ->
                   String.length (hex_of_bytes bs) = 64%nat
                   /\ forallb is_lower_hex (list_ascii_of_string (hex_of_bytes bs)) = true).
  { intros bs Hlen. rewrite hex_of_bytes_hex_string, hex_string_length, Hlen.
    split; [reflexivity | apply hex_string_lower]. }
  split; [|split; [|split; [|split]]].
  - apply Hhex. apply (sign_HMAC_size SHA_256).
  - apply Hhex. apply (sign_HMAC_size SHA_256).
  - apply Hhex. apply digest_SHA256_size.
  - apply (sign_HMAC_size SHA_256).
  - unfold S3UploadService.stringToSign, S3UploadService.algorithm,
      S3UploadService.credentialScope.
    same_text.
Qed.

(** ** Object keys *)

Module KeyFacts.








End KeyFacts.



(** ** Canonical URIs *)

Module UriFacts.

Lemma concat_split_loop c s : forall cur,
  String.concat (String c "") (JS.split_loop c s cur) = cur ++ s.
Proof.
  induction s as [|a s IH]; intros cur; cbn [JS.split_loop].
  - cbn. rewrite append_nil_r. reflexivity.
  - destruct (Ascii.eqb_spec a c) as [->|Hne].
    + specialize (IH "").
      destruct (JS.split_loop c s "") as [|x xs] eqn:Hs.
      * destruct s; cbn in Hs; [discriminate|].
        destruct (Ascii.eqb _ c); discriminate.
      * cbn [String.concat]. cbn [String.concat] in IH. rewrite IH. reflexivity.
    + rewrite IH, append_assoc. reflexivity.
Qed.

Lemma split_loop_without c s : forall cur,
  without c s = true -> JS.split_loop c s cur = [cur ++ s].
Proof.
  induction s as [|a s IH]; intros cur H; cbn in *.
  - rewrite append_nil_r. reflexivity.
  - apply andb_true_iff in H as [Ha Hs]. apply negb_true_iff in Ha. rewrite Ha.
    rewrite (IH _ Hs), append_assoc. reflexivity.
Qed.

Lemma split_loop_segment c s rest : forall cur,
  without c s = true ->
  JS.split_loop c (s ++ String c rest) cur = (cur ++ s) :: JS.split_loop c rest "".
Proof.
  induction s as [|a s IH]; intros cur H; cbn in *.
  - rewrite Ascii.eqb_refl, append_nil_r. reflexivity.
  - apply andb_true_iff in H as [Ha Hs]. apply negb_true_iff in Ha. rewrite Ha.
    rewrite (IH _ Hs), append_assoc. reflexivity.
Qed.

(** Splitting what was joined, when no piece holds the separator. *)
Lemma split_concat c (l : list string) :
  l <> [] -> Forall (fun s => without c s = true) l ->
  JS.split c (String.concat (String c "") l) = l.
Proof.
  unfold JS.split. induction l as [|x l IH]; [congruence|]. intros _ Hall.
  inversion Hall as [|? ? Hx Hl]; subst.
  destruct l as [|y l].
  - cbn. apply (split_loop_without c x "" Hx).
  - change (String.concat (String c "") (x :: y :: l))
      with (x ++ String c (String.concat (String c "") (y :: l))).
    rewrite (split_loop_segment c x _ "" Hx). cbn [append].
    rewrite IH; [reflexivity | discriminate | exact Hl].
Qed.

Lemma upper_digit_no_slash a :
  Ascii.eqb (JS.upper_digit (N_of_ascii a / 16)) "/" = false
  /\ Ascii.eqb (JS.upper_digit (N_of_ascii a mod 16)) "/" = false.
Proof. destruct a as [[] [] [] [] [] [] [] []]; split; vm_compute; reflexivity. Qed.

Lemma unreserved_no_slash a : JS.uri_unreserved a = true -> Ascii.eqb a "/" = false.
Proof.
  destruct (Ascii.eqb_spec a "/") as [->|_]; [vm_compute; discriminate | reflexivity].
Qed.

Lemma encodeURIComponent_without_slash s :
  without "/" (JS.encodeURIComponent s) = true.
Proof.
  induction s as [|a s IH]; [reflexivity|]. cbn [JS.encodeURIComponent].
  destruct (JS.uri_unreserved a) eqn:Ha; cbn [without].
  - rewrite (unreserved_no_slash a Ha), IH. reflexivity.
  - destruct (upper_digit_no_slash a) as [H1 H2]. rewrite H1, H2, IH. reflexivity.
Qed.

Lemma split_loop_safe s : forall cur,
  uri_safe s = true -> uri_safe cur = true -> without "/" cur = true ->
  Forall (fun x => uri_safe x = true /\ without "/" x = true) (JS.split_loop "/" s cur).
Proof.
  assert (Hsnoc : forall cur a, uri_safe cur = true -> without "/" cur = true ->
                    (JS.uri_unreserved a || Ascii.eqb a "/") = true ->
                    Ascii.eqb a "/" = false ->
                    uri_safe (cur ++ String a "") = true
                    /\ without "/" (cur ++ String a "") = true).
  { induction cur as [|x cur IH]; intros a H1 H2 Ha Hs; cbn in *.
    - rewrite Ha, Hs. split; reflexivity.
    - apply andb_true_iff in H1 as [Hx H1]. apply andb_true_iff in H2 as [Hx' H2].
      destruct (IH a H1 H2 Ha Hs) as [IH1 IH2]. rewrite Hx, Hx', IH1, IH2.
      split; reflexivity. }
  induction s as [|a s IH]; intros cur Hs Hcur Hcur'; cbn in *.
  - constructor; [split; assumption | constructor].
  - apply andb_true_iff in Hs as [Ha Hs].
    destruct (Ascii.eqb a "/") eqn:Hslash.
    + constructor; [split; assumption|]. apply IH; [exact Hs | reflexivity | reflexivity].
    + assert (Ha' : (JS.uri_unreserved a || Ascii.eqb a "/") = true)
        by (rewrite Hslash; exact Ha).
      destruct (Hsnoc cur a Hcur Hcur' Ha' Hslash) as [H1 H2]. apply IH; assumption.
Qed.

Lemma encodeURIComponent_unreserved s :
  uri_safe s = true -> without "/" s = true -> JS.encodeURIComponent s = s.
Proof.
  induction s as [|a s IH]; [reflexivity|]. cbn. intros H1 H2.
  apply andb_true_iff in H1 as [Ha H1]. apply andb_true_iff in H2 as [Ha' H2].
  apply negb_true_iff in Ha'. rewrite Ha', orb_false_r in Ha. rewrite Ha, (IH H1 H2).
  reflexivity.
Qed.

Lemma split_loop_nonempty c s cur : JS.split_loop c s cur <> [].
Proof.
  revert cur. induction s as [|a s IH]; intros cur; cbn; [discriminate|].
  destruct (Ascii.eqb a c); [discriminate | apply IH].
Qed.

End UriFacts.

(** X24.  The request line that Signature V4 signs is the one that is
    sent.  The signed host is the host of the URL to which the PUT and the
    DELETE go.  The canonical URI keeps the segments of the object key,
    each one percent-encoded, so that the slashes of the key, and only
    they, separate its segments; for a key of unreserved characters and
    slashes it is the path of the URL itself. *)
Theorem canonicalUri_matches_url
  (crypto : SubtleCrypto) (config : S3Config) (key : string) :
  objectUrl config key = "https://" ++ S3UploadService.host config ++ "/" ++ key
  /\ JS.split "/" (S3UploadService.canonicalUri key)
     = "" :: map JS.encodeURIComponent (JS.split "/" key)
  /\ JS.join "/" (JS.split "/" key) = key
  /\ (uri_safe key = true ->
      S3UploadService.canonicalUri key = "/" ++ key
      /\ objectUrl config key
         = "https://" ++ S3UploadService.host config ++ S3UploadService.canonicalUri key).
Proof.
  assert (Hjoin : JS.join "/" (JS.split "/" key) = key).
  { unfold JS.join, JS.split. apply (UriFacts.concat_split_loop "/" key ""). }
  assert (Hurl : objectUrl config key
                 = "https://" ++ S3UploadService.host config ++ "/" ++ key).
  { unfold objectUrl, S3UploadService.host. same_text. }
  split; [exact Hurl|]. split; [|split; [exact Hjoin|]].
  - unfold S3UploadService.canonicalUri, JS.join.
    destruct (JS.split "/" key) as [|x l] eqn:Hsplit;
      [exfalso; exact (UriFacts.split_loop_nonempty "/" key "" Hsplit)|].
    change ("/" ++ String.concat "/" (map JS.encodeURIComponent (x :: l)))
      with (String.concat "/" ("" :: map JS.encodeURIComponent (x :: l))).
    + apply UriFacts.split_concat; [discriminate|].
      constructor; [reflexivity|].
      apply Forall_forall. intros seg Hseg. apply in_map_iff in Hseg as [y [<- _]].
      apply UriFacts.encodeURIComponent_without_slash.
  - intros Hsafe.
    assert (Hcanon : S3UploadService.canonicalUri key = "/" ++ key).
    { unfold S3UploadService.canonicalUri.
      rewrite <- Hjoin at 2. f_equal. f_equal.
      pose proof (UriFacts.split_loop_safe key "" Hsafe eq_refl eq_refl) as Hall.
      unfold JS.split.
      induction (JS.split_loop "/" key "") as [|x l IH]; [reflexivity|].
      inversion Hall as [|? ? [H1 H2] Hl]; subst. cbn [map].
      rewrite (UriFacts.encodeURIComponent_unreserved x H1 H2), (IH Hl). reflexivity. }
    split; [exact Hcanon|]. rewrite Hcanon. exact Hurl.
Qed.

(** ** The asset pipeline, continued *)

Module PathFacts.

Lemma Set_add_in path paths p :
  In p (ShareService.Set_add path paths) <-> p = path \/ In p paths.
Proof.
  unfold ShareService.Set_add.
  destruct (existsb (String.eqb path) paths) eqn:Hex.
  - split; [auto|]. intros [->|H]; [|exact H].
    apply existsb_exists in Hex as [x [Hin Heq]]. apply String.eqb_eq in Heq.
    rewrite Heq. exact Hin.
  - rewrite in_app_iff. cbn. intuition.
Qed.

Lemma Set_add_NoDup path paths : NoDup paths -> NoDup (ShareService.Set_add path paths).
Proof.
  intros Hnd. unfold ShareService.Set_add.
  destruct (existsb (String.eqb path) paths) eqn:Hex; [exact Hnd|].
  apply NoDup_app; [exact Hnd | repeat constructor; intros [] |].
  intros x Hin [Heq|[]]. subst x.
  assert (existsb (String.eqb path) paths = true); [|congruence].
  apply existsb_exists. exists path. split; [exact Hin | apply String.eqb_refl].
Qed.

Lemma extract_fold l : forall paths,
  NoDup paths ->
  NoDup (fold_left (fun paths path => if ShareService.isLocalAsset path
                                      then ShareService.Set_add path paths else paths)
           l paths)
  /\ forall p,
       In p (fold_left (fun paths path => if ShareService.isLocalAsset path
                                          then ShareService.Set_add path paths else paths)
               l paths)
       <-> In p paths \/ (In p l /\ ShareService.isLocalAsset p = true).
Proof.
  induction l as [|x l IH]; intros paths Hnd; cbn [fold_left].
  - split; [exact Hnd|]. intros p. cbn. tauto.
  - destruct (ShareService.isLocalAsset x) eqn:Hx.
    + destruct (IH _ (Set_add_NoDup x paths Hnd)) as [IH1 IH2]. split; [exact IH1|].
      intros p. rewrite IH2, Set_add_in. cbn [In]. split.
      * intros [[->|H]|[H1 H2]]; auto.
      * intros [H|[[->|H1] H2]]; auto.
    + destruct (IH _ Hnd) as [IH1 IH2]. split; [exact IH1|].
      intros p. rewrite IH2. cbn [In]. split.
      * intros [H|[H1 H2]]; auto.
      * intros [H|[[->|H1] H2]]; auto. congruence.
Qed.

Lemma isLocalAsset_prefix p :
  ShareService.isLocalAsset p = JS.startsWith "assets/" p || JS.startsWith "/assets/" p.
Proof.
  unfold ShareService.isLocalAsset, JS.startsWith.
  destruct p as [|b p]; [reflexivity|]. cbn [prefix].
  destruct (ascii_dec "h" b) as [<-|Hh].
  - destruct (ascii_dec "a" "h"); [discriminate|].
    destruct (ascii_dec "/" "h"); [discriminate|].
    match goal with |- context [if ?c then _ else _] => destruct c end; reflexivity.
  - cbn [orb]. destruct (ascii_dec "d" b) as [<-|Hd]; [|reflexivity].
    destruct (ascii_dec "a" "d"); [discriminate|].
    destruct (ascii_dec "/" "d"); [discriminate|].
    match goal with |- context [if ?c then _ else _] => destruct c end; reflexivity.
Qed.

Lemma prefix_cons a s t : prefix (String a s) (String a t) = prefix s t.
Proof. cbn. destruct (ascii_dec a a); [reflexivity | congruence]. Qed.

Lemma prefix_head a b s t : a <> b -> prefix (String a s) (String b t) = false.
Proof. intros Hne. cbn. destruct (ascii_dec a b); [congruence | reflexivity]. Qed.

Lemma apiPathOf_local p :
  ShareService.isLocalAsset p = true -> JS.startsWith "/assets/" (apiPathOf p) = true.
Proof.
  rewrite isLocalAsset_prefix. unfold apiPathOf, JS.startsWith.
  destruct p as [|b p]; [discriminate|].
  destruct (Ascii.eqb_spec b "/") as [->|Hb].
  - rewrite (prefix_head "a" "/") by discriminate. rewrite (prefix_cons "/" "" p).
    cbn [orb]. destruct p; cbn [prefix]; intros H; exact H.
  - rewrite (prefix_head "/" b "assets/" p) by congruence. rewrite orb_false_r.
    rewrite (prefix_head "/" b "" p) by congruence.
    intros H. change ("/" ++ String b p) with (String "/" (String b p)).
    rewrite prefix_cons. exact H.
Qed.

Lemma split_loop_pieces c s : forall cur,
  without c cur = true ->
  Forall (fun x => without c x = true) (JS.split_loop c s cur).
Proof.
  assert (Hsnoc : forall cur a, without c cur = true -> Ascii.eqb a c = false ->
                                without c (cur ++ String a "") = true).
  { induction cur as [|x cur IH]; intros a H Ha; cbn in *.
    - rewrite Ha. reflexivity.
    - apply andb_true_iff in H as [Hx H]. rewrite Hx, (IH a H Ha). reflexivity. }
  induction s as [|a s IH]; intros cur Hcur; cbn.
  - constructor; [exact Hcur | constructor].
  - destruct (Ascii.eqb a c) eqn:Ha.
    + constructor; [exact Hcur | apply IH; reflexivity].
    + apply IH, Hsnoc; assumption.
Qed.

Lemma last_Forall {A} (P : A -> Prop) (l : list A) (d : A) :
  l <> [] -> Forall P l -> P (last l d).
Proof.
  induction l as [|x l IH]; [congruence|]. intros _ Hall.
  inversion Hall as [|? ? Hx Hl]; subst. destruct l as [|y l]; [exact Hx|].
  apply IH; [discriminate | exact Hl].
Qed.

Lemma last_segment_without_slash assetPath :
  without "/" (ShareService.last_segment assetPath) = true.
Proof.
  unfold ShareService.last_segment, JS.split.
  apply (last_Forall (fun x => without "/" x = true)).
  - apply UriFacts.split_loop_nonempty.
  - apply split_loop_pieces. reflexivity.
Qed.

End PathFacts.

(** X25.  [extractAssetPaths] returns, without repetition, exactly the
    captured link targets that are local assets; and a link target is a
    local asset exactly when it starts with [assets/] or [/assets/] (the
    exclusion of [http://], [https://] and [data:] targets never decides). *)
Theorem extractAssetPaths_local_once (scan : string -> list string) (content : string) :
  NoDup (ShareService.extractAssetPaths scan content)
  /\ (forall p, In p (ShareService.extractAssetPaths scan content)
                <-> In p (scan content) /\ ShareService.isLocalAsset p = true)
  /\ (forall p, ShareService.isLocalAsset p
                = JS.startsWith "assets/" p || JS.startsWith "/assets/" p)
  /\ (forall p, In p (ShareService.extractAssetPaths scan content) ->
                JS.startsWith "/assets/" (apiPathOf p) = true).
Proof.
  unfold ShareService.extractAssetPaths.
  destruct (PathFacts.extract_fold (scan content) [] (NoDup_nil _)) as [H1 H2].
  split; [exact H1|]. split; [|split; [apply PathFacts.isLocalAsset_prefix|]].
  - intros p. rewrite H2. cbn. tauto.
  - intros p Hin. apply H2 in Hin as [[]|[_ Hlocal]].
    apply PathFacts.apiPathOf_local, Hlocal.
Qed.

(** X26.  [fetchAssetFile] never fails: it sends one GET, for the path
    with a leading slash added when it has none, and resolves - with
    nothing when the kernel does not answer [ok], and otherwise with a file
    that holds the blob and its type and is named after the last segment
    of the path, or "asset" when the path ends with a slash; the name is
    never empty and holds no slash. *)
Theorem fetchAssetFile_never_fails (assetPath : string) (web : ShareService.Web) :
  effects (ShareService.fetchAssetFile assetPath web)
  = [Net assetPath (AssetGet (apiPathOf assetPath))]
  /\ JS.startsWith "/" (apiPathOf assetPath) = true
  /\ exists result,
       settled (ShareService.fetchAssetFile assetPath web) = Resolved result
       /\ (result = None <-> web (apiPathOf assetPath) = None)
       /\ forall file, result = Some file ->
            web (apiPathOf assetPath) = Some (arrayBuffer file, type file)
            /\ name file <> ""
            /\ without "/" (name file) = true
            /\ (ShareService.last_segment assetPath <> "" ->
                name file = ShareService.last_segment assetPath)
            /\ (ShareService.last_segment assetPath = "" -> name file = "asset").
Proof.
  unfold ShareService.fetchAssetFile. fold (apiPathOf assetPath).
  rewrite effects_perform_then, settled_perform_then.
  split; [destruct (web _) as [[blob ty]|]; reflexivity|].
  split.
  { unfold apiPathOf. destruct (JS.startsWith "/" assetPath) eqn:Hs; [exact Hs|].
    unfold JS.startsWith. cbn. destruct (ascii_dec "/" "/"); [|congruence].
    destruct assetPath; reflexivity. }
  destruct (web (apiPathOf assetPath)) as [[blob ty]|].
  - eexists. split; [reflexivity|]. split; [split; discriminate|].
    intros file [= <-]. cbn [arrayBuffer type name].
    pose proof (PathFacts.last_segment_without_slash assetPath) as Hseg.
    unfold JS.or_else.
    destruct (ShareService.last_segment assetPath) as [|a seg].
    + cbn. repeat split; try discriminate; congruence.
    + cbn [JS.truthy]. repeat split; try discriminate; try exact Hseg; congruence.
  - exists None. split; [reflexivity|]. split; [tauto|]. discriminate.
Qed.


Section Outcome.

Context {crypto : SubtleCrypto}.
Variable config_s3 : S3Config.
Variable index : AssetRecordManager.State.
Variable web : ShareService.Web.
Variable paths : list string.


End Outcome.



Lemma collect_all_recorded (index : AssetRecordManager.State) (web : ShareService.Web)
  (assetPaths : list string) : forall existing files trace,
  (forall p, In p assetPaths ->
             exists a, AssetRecordManager.findAssetByLocalPath p index = Some a) ->
  ShareService.collect index web assetPaths existing files trace
  = ((existing ++ found_for index assetPaths)%list, files, trace).
Proof.
  induction assetPaths as [|q rest IH]; intros existing files trace Hall.
  - cbn. rewrite app_nil_r. reflexivity.
  - destruct (Hall q (or_introl eq_refl)) as [a Ha].
    unfold found_for in *. cbn [ShareService.collect flat_map]. rewrite Ha.
    rewrite IH by (intros p Hp; apply Hall; right; exact Hp).
    rewrite <- app_assoc. reflexivity.
Qed.

Lemma found_for_paths (index : AssetRecordManager.State) (assetPaths : list string) :
  (forall p, In p assetPaths ->
             exists a, AssetRecordManager.findAssetByLocalPath p index = Some a) ->
  map localPath (found_for index assetPaths) = assetPaths
  /\ Forall (fun a => In a (recorded index)) (found_for index assetPaths).
Proof.
  induction assetPaths as [|q rest IH]; intros Hall; [split; [reflexivity | constructor]|].
  destruct (Hall q (or_introl eq_refl)) as [a Ha].
  destruct (IH (fun p Hp => Hall p (or_intror Hp))) as [IH1 IH2].
  unfold found_for in *. cbn [flat_map]. rewrite Ha. cbn [app map].
  destruct (findAssetByLocalPath_found q index a Ha) as [Hin Hlp].
  rewrite IH1, Hlp. split; [reflexivity | constructor; assumption].
Qed.

(** X28.  A re-publication uploads nothing: once [createShare] has
    recorded the assets of a publication, [processAndUploadAssets] on a
    document that references only paths of these assets sends no request
    at all - no fetch, no PUT, no relay - and resolves with one record of
    the index per referenced path, in the order of the paths. *)
Theorem republication_sends_nothing
  (crypto : SubtleCrypto) (config_s3 : S3Config)
  (scan : string -> list string) (replaceOne : string -> AssetUploadRecord -> string)
  (content docId_ shareId_ : string) (uploadedAssets : list AssetUploadRecord) (now : Z)
  (index : AssetRecordManager.State) (web : ShareService.Web) (net : nat -> World) :
  (forall p, In p (ShareService.extractAssetPaths scan content) ->
             In p (map localPath uploadedAssets)) ->
  let index' :=
    ShareService.createShare_saveMapping docId_ shareId_ uploadedAssets now index in
  let run :=
    ShareService.processAndUploadAssets config_s3 scan replaceOne content docId_
      index' web net in
  effects run = []
  /\ exists reused,
       settled run = Resolved (fold_left replaceOne reused content, reused)
       /\ map localPath reused = ShareService.extractAssetPaths scan content
       /\ Forall (fun a => In a (recorded index')) reused.
Proof.
  intros Hsub index' run. subst run.
  assert (Hall : forall p, In p (ShareService.extractAssetPaths scan content) ->
                   exists a, AssetRecordManager.findAssetByLocalPath p index' = Some a).
  { intros p Hp. apply Hsub in Hp. apply in_map_iff in Hp as [asset [Hlp Hin]].
    apply (findAssetByLocalPath_recorded p index' asset); [|exact Hlp].
    subst index'. unfold ShareService.createShare_saveMapping.
    destruct uploadedAssets as [|a0 rest]; [destruct Hin|].
    cbn [List.length Nat.ltb Nat.leb].
    destruct (FilterFacts.addOrUpdateMapping_mappings docId_ shareId_ (a0 :: rest) now index)
      as [v [Hv Hm]].
    rewrite RemovalFacts.recorded_entries, Hm.
    apply FilterFacts.Map_set_records. rewrite Hv. exact Hin. }
  unfold ShareService.processAndUploadAssets.
  destruct (ShareService.extractAssetPaths scan content) as [|q rest] eqn:Hpaths.
  { cbn. split; [reflexivity|]. exists []. split; [reflexivity|].
    split; [reflexivity | constructor]. }
  cbn [List.length Nat.eqb].
  rewrite (collect_all_recorded index' web (q :: rest) [] [] [] Hall).
  destruct (found_for_paths index' (q :: rest) Hall) as [H1 H2].
  cbn. split; [reflexivity|].
  eexists. split; [reflexivity|]. split; [exact H1 | exact H2].
Qed.

Lemma republication_sends_nothing_witness :
  effects
    (ShareService.processAndUploadAssets (crypto := ref_crypto) sample_config
       scan_two (fun content _ => content) "![a](assets/a.png) [b](assets/b.png)" "doc-1"
       (ShareService.createShare_saveMapping "doc-1" "share-1" [asset_a; asset_b] 1
          AssetRecordManager.init)
       web_b (fun _ => world 2 xhr_error relay_down))
  = [].
Proof.
  refine (proj1 (republication_sends_nothing ref_crypto sample_config scan_two
                   (fun content _ => content) "![a](assets/a.png) [b](assets/b.png)"
                   "doc-1" "share-1" [asset_a; asset_b] 1 AssetRecordManager.init
                   web_b (fun _ => world 2 xhr_error relay_down) _)).
  intros p Hp. vm_compute in Hp. cbn.
  destruct Hp as [<-|[<-|[]]]; auto.
Defined.
